(** * fileshare: the pair and broadcast WebRTC managers

    A shallow embedding of [src/utils/webrtc.ts] (class [WebRTCManager]) and
    [src/utils/chatWebRTC.ts] (class [ChatWebRTCManager]), with the part of
    the JavaScript run time both lean on: JSON text, IEEE-754 numbers,
    [Map]s and the simple-peer transport.

    Conventions.
    - A JS string is kept as its UTF-8 bytes (a Rocq [string]); the wire
      carries exactly those bytes.
    - A JS number is an IEEE-754 binary64 value, here [spec_float] with
      [prec = 53] and [emax = 1024].
    - A callback of a manager ([onProgress], [onFileReceived], ...) and a
      [console.warn] / [console.error] call is an [Event] appended to the
      trace a method returns. A [console.log] call leaves no event; where
      its message is a template literal around a parsed value, the
      conversion of that value is kept, since it can throw.
    - A method that may [throw] returns [Res]. *)

From Stdlib Require Import ZArith NArith List String Ascii Bool Lia.
From Stdlib.Strings Require Import Byte.
From Stdlib Require Import SpecFloat DecimalString DecimalFacts DecimalNat.
From stdpp Require Import base option list gmap.

Local Open Scope Z_scope.

(** ** JavaScript numbers *)

Module Num.

Definition prec : Z := 53.
Definition emax : Z := 1024.

Definition number := spec_float.

Definition nan : number := S754_nan.
Definition infinity : number := S754_infinity false.

(** An integer as a number (exact below 2^53, rounded to nearest-even
    above, as the engine does). *)
Definition of_Z (z : Z) : number := binary_normalize prec emax z 0 false.
Definition of_N (n : N) : number := of_Z (Z.of_N n).
Definition of_nat (n : nat) : number := of_Z (Z.of_nat n).

Definition eqb (x y : number) : bool := SFeqb x y.
Definition ltb (x y : number) : bool := SFltb x y.
Definition div (x y : number) : number := SFdiv prec emax x y.
Definition mul (x y : number) : number := SFmul prec emax x y.

(** The decimal literal [(-1)^neg * m * 10^e], correctly rounded. *)
Definition of_decimal (neg : bool) (m : N) (e : Z) : number :=
  match m with
  | N0 => S754_zero neg
  | Npos p =>
      if 0 <=? e
      then binary_normalize prec emax (cond_Zopp neg (Zpos p * 10 ^ e)) 0 neg
      else SFdiv prec emax (S754_finite neg p 0)
                           (S754_finite false (Z.to_pos (10 ^ (- e))) 0)
  end.

(** [Math.round]: the nearest integer, ties towards +infinity. *)
Definition round (x : number) : number :=
  match x with
  | S754_finite s m e =>
      if 0 <=? e then x
      else
        let n := cond_Zopp s (Zpos m) in
        let k := - e in
        binary_normalize prec emax (Z.shiftr (2 * n + 2 ^ k) (k + 1)) 0 s
  | _ => x
  end.

(** [ToBoolean] of a number: [0], [-0] and [NaN] are falsy. *)
Definition truthy (x : number) : bool :=
  match x with
  | S754_zero _ | S754_nan => false
  | _ => true
  end.

End Num.

Abbreviation number := Num.number.

(** ** JavaScript values, as [JSON.parse] can build them *)

#[warnings="-register-all"]
Inductive jsval : Type :=
| JUndefined
| JNull
| JBool (b : bool)
| JNum (x : number)
| JStr (s : string)
| JArr (elems : list jsval)
| JObj (members : list (string * jsval)).

(** [if (v)], [!v] *)
Definition truthy (v : jsval) : bool :=
  match v with
  | JUndefined | JNull => false
  | JBool b => b
  | JNum x => Num.truthy x
  | JStr s => negb (String.eqb s EmptyString)
  | JArr _ | JObj _ => true
  end.

(** The last binding of [k] wins, as in an object built by [JSON.parse]. *)
Fixpoint lookup_member (k : string) (ms : list (string * jsval)) : jsval :=
  match ms with
  | [] => JUndefined
  | (k', v) :: rest =>
      match lookup_member k rest with
      | JUndefined => if String.eqb k k' then v else JUndefined
      | found => found
      end
  end.

(** [v.k] for a property name [k] that no prototype defines ([type], [data],
    [chunks], [name], [fileId], ...): [None] is the [TypeError] of reading a
    property of [null] or [undefined]. *)
Definition get_prop (v : jsval) (k : string) : option jsval :=
  match v with
  | JUndefined | JNull => None
  | JObj ms => Some (lookup_member k ms)
  | _ => Some JUndefined
  end.

(** [v === "s"] *)
Definition is_str (v : jsval) (s : string) : bool :=
  match v with
  | JStr s' => String.eqb s' s
  | _ => false
  end.

(** [n === v] and [n !== v] for a number [n] *)
Definition strict_eq_num (n : number) (v : jsval) : bool :=
  match v with
  | JNum x => Num.eqb n x
  | _ => false
  end.

(** ** JSON text

    [JSON.parse] as a pushdown automaton that reads one character at a time
    (so it is total, with no fuel), after ECMA-404: the mode says what the
    grammar expects next, the stack holds the arrays and objects that are
    still open. *)

Module JSON.

Local Open Scope char_scope.

Definition code (c : ascii) : N := N_of_ascii c.

Definition is_ws (c : ascii) : bool :=
  match c with
  | " " | "009" | "010" | "013" => true
  | _ => false
  end.

Definition digit (c : ascii) : option N :=
  let n := code c in
  if ((48 <=? n) && (n <=? 57))%N then Some (n - 48)%N else None.

Definition hexdigit (c : ascii) : option N :=
  let n := code c in
  if ((48 <=? n) && (n <=? 57))%N then Some (n - 48)%N
  else if ((97 <=? n) && (n <=? 102))%N then Some (n - 87)%N
  else if ((65 <=? n) && (n <=? 70))%N then Some (n - 55)%N
  else None.

(** *** String literals *)

(** What a string literal contributes: a byte of the text as it stands, or
    the UTF-16 code unit of a [\uXXXX] escape. *)
Inductive sunit := Raw (c : ascii) | Unit16 (cu : N).

Definition byte_of (n : N) : ascii := ascii_of_N (n mod 256).

(** UTF-8 of a code point (a lone surrogate is written like any other
    three-byte code point). *)
Definition utf8 (cp : N) : list ascii :=
  if (cp <? 128)%N then [byte_of cp]
  else if (cp <? 2048)%N then
    [byte_of (192 + cp / 64); byte_of (128 + cp mod 64)]
  else if (cp <? 65536)%N then
    [byte_of (224 + cp / 4096); byte_of (128 + (cp / 64) mod 64);
     byte_of (128 + cp mod 64)]
  else
    [byte_of (240 + cp / 262144); byte_of (128 + (cp / 4096) mod 64);
     byte_of (128 + (cp / 64) mod 64); byte_of (128 + cp mod 64)].

Definition is_high (cu : N) : bool := ((55296 <=? cu) && (cu <? 56320))%N.
Definition is_low (cu : N) : bool := ((56320 <=? cu) && (cu <? 57344))%N.

Fixpoint bytes_of_units (us : list sunit) : list ascii :=
  match us with
  | [] => []
  | Raw c :: rest => c :: bytes_of_units rest
  | Unit16 hi :: rest =>
      match rest with
      | Unit16 lo :: rest' =>
          if is_high hi && is_low lo
          then utf8 (65536 + (hi - 55296) * 1024 + (lo - 56320))%N
                 ++ bytes_of_units rest'
          else utf8 hi ++ bytes_of_units rest
      | _ => utf8 hi ++ bytes_of_units rest
      end
  end.

Definition string_of_units (rev_us : list sunit) : string :=
  string_of_list_ascii (bytes_of_units (rev rev_us)).

Inductive strst :=
| SPlain                      (* between characters *)
| SEsc                        (* after a backslash *)
| SHex (k : nat) (cu : N).    (* after \u and [k] hex digits *)

(** *** Number literals *)

Inductive numst :=
| NSign | NZero | NInt | NDot | NFrac | NE | NESign | NExp.

Record numacc := {
  n_neg : bool;      (* a leading minus *)
  n_mant : N;        (* the digits of the integer and fraction parts *)
  n_frac : N;        (* how many of them are fraction digits *)
  n_eneg : bool;     (* a minus in the exponent *)
  n_exp : N;         (* the digits of the exponent *)
  n_st : numst
}.

Definition num_start (neg : bool) (m : N) (st : numst) : numacc :=
  {| n_neg := neg; n_mant := m; n_frac := 0; n_eneg := false; n_exp := 0;
     n_st := st |}.

Definition num_value (a : numacc) : number :=
  Num.of_decimal (n_neg a) (n_mant a)
    ((if n_eneg a then - Z.of_N (n_exp a) else Z.of_N (n_exp a))
     - Z.of_N (n_frac a)).

(** The literal may stop here. *)
Definition num_final (a : numacc) : bool :=
  match n_st a with
  | NZero | NInt | NFrac | NExp => true
  | _ => false
  end.

Definition set_st (a : numacc) (st : numst) : numacc :=
  {| n_neg := n_neg a; n_mant := n_mant a; n_frac := n_frac a;
     n_eneg := n_eneg a; n_exp := n_exp a; n_st := st |}.

Definition push_int (a : numacc) (d : N) : numacc :=
  {| n_neg := n_neg a; n_mant := (n_mant a * 10 + d)%N; n_frac := n_frac a;
     n_eneg := n_eneg a; n_exp := n_exp a; n_st := NInt |}.

Definition push_frac (a : numacc) (d : N) : numacc :=
  {| n_neg := n_neg a; n_mant := (n_mant a * 10 + d)%N;
     n_frac := (n_frac a + 1)%N;
     n_eneg := n_eneg a; n_exp := n_exp a; n_st := NFrac |}.

Definition push_exp (a : numacc) (d : N) : numacc :=
  {| n_neg := n_neg a; n_mant := n_mant a; n_frac := n_frac a;
     n_eneg := n_eneg a; n_exp := (n_exp a * 10 + d)%N; n_st := NExp |}.

Definition exp_minus (a : numacc) : numacc :=
  {| n_neg := n_neg a; n_mant := n_mant a; n_frac := n_frac a;
     n_eneg := true; n_exp := n_exp a; n_st := NESign |}.

Definition is_e (c : ascii) : bool :=
  match c with "e" | "E" => true | _ => false end.

(** One more character of a number literal: [Some (Some a')] reads it,
    [Some None] says the literal ended before it, [None] is a syntax
    error. *)
Definition num_step (a : numacc) (c : ascii) : option (option numacc) :=
  match n_st a, digit c with
  | NSign, Some 0%N => Some (Some (set_st a NZero))
  | NSign, Some d => Some (Some (push_int a d))
  | NSign, None => None
  | NZero, _ =>
      if Ascii.eqb c "." then Some (Some (set_st a NDot))
      else if is_e c then Some (Some (set_st a NE))
      else Some None
  | NInt, Some d => Some (Some (push_int a d))
  | NInt, None =>
      if Ascii.eqb c "." then Some (Some (set_st a NDot))
      else if is_e c then Some (Some (set_st a NE))
      else Some None
  | NDot, Some d => Some (Some (push_frac a d))
  | NDot, None => None
  | NFrac, Some d => Some (Some (push_frac a d))
  | NFrac, None =>
      if is_e c then Some (Some (set_st a NE)) else Some None
  | NE, Some d => Some (Some (push_exp a d))
  | NE, None =>
      if Ascii.eqb c "+" then Some (Some (set_st a NESign))
      else if Ascii.eqb c "-" then Some (Some (exp_minus a))
      else None
  | NESign, Some d => Some (Some (push_exp a d))
  | NESign, None => None
  | NExp, Some d => Some (Some (push_exp a d))
  | NExp, None => Some None
  end.

(** *** The automaton *)

Inductive frame :=
| FArr (done : list jsval)
    (* an open array and its elements so far, last first *)
| FObj (done : list (string * jsval)) (key : option string).
    (* an open object, its members so far, and the key being defined *)

Inductive mode :=
| MValue                     (* a value starts here *)
| MArrFirst                  (* after [[]: a value or []] *)
| MObjFirst                  (* after [{]: a key or [}] *)
| MObjKey                    (* after [,] in an object: a key *)
| MColon                     (* after a key: [:] *)
| MAfter                     (* after a value inside an array or object *)
| MNum (a : numacc)
| MStr (iskey : bool) (acc : list sunit) (st : strst)
| MLit (rest : string) (v : jsval)
| MDone (v : jsval)          (* the whole text was one value *)
| MFail.

Definition pstate : Type := mode * list frame.

Definition fail : pstate := (MFail, []).

(** A value is complete: it is the result, or joins the innermost open
    array or object. *)
Definition complete (v : jsval) (stack : list frame) : pstate :=
  match stack with
  | [] => (MDone v, [])
  | FArr done :: st => (MAfter, FArr (v :: done) :: st)
  | FObj done (Some k) :: st => (MAfter, FObj ((k, v) :: done) None :: st)
  | FObj _ None :: _ => fail
  end.

Definition start_value (c : ascii) (stack : list frame) : pstate :=
  match c with
  | "{" => (MObjFirst, FObj [] None :: stack)
  | "[" => (MArrFirst, FArr [] :: stack)
  | "034" => (MStr false [] SPlain, stack)
  | "-" => (MNum (num_start true 0 NSign), stack)
  | "t" => (MLit "rue" (JBool true), stack)
  | "f" => (MLit "alse" (JBool false), stack)
  | "n" => (MLit "ull" JNull, stack)
  | _ =>
      match digit c with
      | Some 0%N => (MNum (num_start false 0 NZero), stack)
      | Some d => (MNum (num_start false d NInt), stack)
      | None => fail
      end
  end.

Definition after_value (c : ascii) (stack : list frame) : pstate :=
  match c, stack with
  | ",", FArr _ :: _ => (MValue, stack)
  | ",", FObj _ None :: _ => (MObjKey, stack)
  | "]", FArr done :: st => complete (JArr (rev done)) st
  | "}", FObj done None :: st => complete (JObj (rev done)) st
  | _, _ => if is_ws c then (MAfter, stack) else fail
  end.

Definition step_str (iskey : bool) (acc : list sunit) (st : strst)
    (c : ascii) (stack : list frame) : pstate :=
  match st with
  | SPlain =>
      if Ascii.eqb c "034" then
        let s := string_of_units acc in
        if iskey then
          match stack with
          | FObj done None :: rest => (MColon, FObj done (Some s) :: rest)
          | _ => fail
          end
        else complete (JStr s) stack
      else if Ascii.eqb c "\" then (MStr iskey acc SEsc, stack)
      else if (code c <? 32)%N then fail
      else (MStr iskey (Raw c :: acc) SPlain, stack)
  | SEsc =>
      match c with
      | "034" | "\" | "/" => (MStr iskey (Raw c :: acc) SPlain, stack)
      | "b" => (MStr iskey (Raw "008" :: acc) SPlain, stack)
      | "f" => (MStr iskey (Raw "012" :: acc) SPlain, stack)
      | "n" => (MStr iskey (Raw "010" :: acc) SPlain, stack)
      | "r" => (MStr iskey (Raw "013" :: acc) SPlain, stack)
      | "t" => (MStr iskey (Raw "009" :: acc) SPlain, stack)
      | "u" => (MStr iskey acc (SHex 0 0), stack)
      | _ => fail
      end
  | SHex k cu =>
      match hexdigit c with
      | Some h =>
          let cu' := (cu * 16 + h)%N in
          if Nat.eqb k 3 then (MStr iskey (Unit16 cu' :: acc) SPlain, stack)
          else (MStr iskey acc (SHex (S k) cu'), stack)
      | None => fail
      end
  end.

Definition step (st : pstate) (c : ascii) : pstate :=
  let '(m, stack) := st in
  match m with
  | MValue => if is_ws c then st else start_value c stack
  | MArrFirst =>
      if is_ws c then st
      else if Ascii.eqb c "]" then
        match stack with
        | FArr _ :: rest => complete (JArr []) rest
        | _ => fail
        end
      else start_value c stack
  | MObjFirst =>
      if is_ws c then st
      else if Ascii.eqb c "}" then
        match stack with
        | FObj _ _ :: rest => complete (JObj []) rest
        | _ => fail
        end
      else if Ascii.eqb c "034" then (MStr true [] SPlain, stack)
      else fail
  | MObjKey =>
      if is_ws c then st
      else if Ascii.eqb c "034" then (MStr true [] SPlain, stack)
      else fail
  | MColon =>
      if is_ws c then st
      else if Ascii.eqb c ":" then (MValue, stack)
      else fail
  | MAfter => after_value c stack
  | MNum a =>
      match num_step a c with
      | Some (Some a') => (MNum a', stack)
      | Some None =>
          match complete (JNum (num_value a)) stack with
          | (MAfter, stack') => after_value c stack'
          | (MDone v, _) => if is_ws c then (MDone v, []) else fail
          | _ => fail
          end
      | None => fail
      end
  | MStr iskey acc s => step_str iskey acc s c stack
  | MLit rest v =>
      match rest with
      | String c' rest' =>
          if Ascii.eqb c c' then
            match rest' with
            | EmptyString => complete v stack
            | _ => (MLit rest' v, stack)
            end
          else fail
      | EmptyString => fail
      end
  | MDone v => if is_ws c then st else fail
  | MFail => fail
  end.

Fixpoint run (st : pstate) (s : string) : pstate :=
  match s with
  | EmptyString => st
  | String c rest => run (step st c) rest
  end.

(** The end of the text: a number may still be open. *)
Definition finish (st : pstate) : option jsval :=
  match st with
  | (MDone v, _) => Some v
  | (MNum a, []) => if num_final a then Some (JNum (num_value a)) else None
  | _ => None
  end.

(** [JSON.parse(text)]: [None] is its [SyntaxError]. *)
Definition parse (text : string) : option jsval :=
  finish (run (MValue, []) text).

End JSON.

Local Close Scope Z_scope.

(** *** [JSON.stringify], for the objects the managers send *)

Module Stringify.

Local Open Scope string_scope.

(** The double quote, and a literal in which ['] is written for it. *)
Definition dq : ascii := "034".

Fixpoint lit (s : string) : string :=
  match s with
  | EmptyString => EmptyString
  | String c rest =>
      String match c with "'"%char => dq | _ => c end (lit rest)
  end.

Definition hex (n : N) : ascii :=
  if (n <? 10)%N then ascii_of_N (48 + n) else ascii_of_N (87 + n).

(** One character of a quoted string (QuoteJSONString). *)
Definition escape (c : ascii) : string :=
  let n := N_of_ascii c in
  if (n =? 34)%N then String "\" (String dq "")
  else if (n =? 92)%N then "\\"
  else if (n =? 8)%N then "\b"
  else if (n =? 9)%N then "\t"
  else if (n =? 10)%N then "\n"
  else if (n =? 12)%N then "\f"
  else if (n =? 13)%N then "\r"
  else if (n <? 32)%N then
    "\u00" ++ String (hex (n / 16)) (String (hex (n mod 16)) "")
  else String c "".

Fixpoint escape_all (s : string) : string :=
  match s with
  | EmptyString => ""
  | String c rest => escape c ++ escape_all rest
  end.

Definition quote (s : string) : string :=
  String dq "" ++ escape_all s ++ String dq "".

(** A non-negative integer below 10^21 prints as its decimal digits. *)
Definition dec (n : nat) : string :=
  DecimalString.NilEmpty.string_of_uint (Nat.to_uint n).

End Stringify.

(** ** The run time shared by the two managers *)

(** What [peer.send] is given: a string (every control message) or an
    [ArrayBuffer]. *)
Inductive Frame :=
| FText (text : string)
| FBinary (bytes : list byte).

(** What the ['data'] event hands over. simple-peer is a byte stream (the
    managers do not ask for [objectMode]), so a string and a buffer both
    arrive as a [Buffer] of bytes. *)
Abbreviation Data := (list byte).

Definition deliver (f : Frame) : Data :=
  match f with
  | FText text => list_byte_of_string text
  | FBinary bytes => bytes
  end.

(** [data.toString()]: the bytes read as UTF-8 text. *)
Definition toString (data : Data) : string := string_of_list_byte data.

(** ** Conversions of a parsed value

    [ToString] (ECMA-262 7.1.17) and [ToNumber] (7.1.4) on a value that
    [JSON.parse] built.

    An object or array goes through [OrdinaryToPrimitive], which calls
    [toString] and [valueOf] where they are callable. No JSON value is
    callable, and the inherited [Object.prototype.valueOf] returns the
    object itself. So an object with an own member named [toString] cannot
    be converted (a [TypeError]); any other object reads [[object
    Object]]. An array is joined ([Array.prototype.join]): each element
    other than [null] is converted in turn, so an array converts unless one
    of its elements does not. *)

Definition has_member (k : string) (members : list (string * jsval)) : bool :=
  existsb (fun m => String.eqb (fst m) k) members.

(** Does [ToString(v)] return (rather than throw). *)
Fixpoint stringifiable (v : jsval) : bool :=
  match v with
  | JArr elems => forallb stringifiable elems
  | JObj members => negb (has_member "toString" members)
  | _ => true
  end.

(** *** [StringToNumber] (ECMA-262 7.1.4.1.1)

    The text is a StringNumericLiteral: white space around a decimal
    literal with an optional sign ([Infinity], digits with an optional
    fraction and exponent), or a binary, octal or hexadecimal integer
    without sign. Only white space reads as [0]; anything else is [NaN].
    The value is rounded to the nearest number, as the engines do. *)

Module StringNumericLiteral.

Local Open Scope N_scope.

Definition code (c : ascii) : N := N_of_ascii c.

(** One StrWhiteSpaceChar taken off the front: TAB, LF, VT, FF, CR, SP,
    and in UTF-8 U+00A0, U+1680, U+2000 to U+200A, U+2028, U+2029, U+202F,
    U+205F, U+3000 and U+FEFF. *)
Definition white (s : list ascii) : option (list ascii) :=
  match s with
  | [] => None
  | c :: rest =>
      let n := code c in
      if (9 <=? n) && (n <=? 13) || (n =? 32) then Some rest
      else
        match rest with
        | [] => None
        | c2 :: rest2 =>
            let m := code c2 in
            if (n =? 194) && (m =? 160) then Some rest2
            else
              match rest2 with
              | [] => None
              | c3 :: rest3 =>
                  let k := code c3 in
                  if (n =? 225) && (m =? 154) && (k =? 128)
                     || (n =? 226) && (m =? 128)
                        && ((128 <=? k) && (k <=? 138)
                            || (k =? 168) || (k =? 169) || (k =? 175))
                     || (n =? 226) && (m =? 129) && (k =? 159)
                     || (n =? 227) && (m =? 128) && (k =? 128)
                     || (n =? 239) && (m =? 187) && (k =? 191)
                  then Some rest3
                  else None
              end
        end
  end.

Fixpoint skip_white (fuel : nat) (s : list ascii) : list ascii :=
  match fuel with
  | O => s
  | S fuel' =>
      match white s with
      | Some rest => skip_white fuel' rest
      | None => s
      end
  end.

(** Nothing but white space. *)
Definition blank (s : list ascii) : bool :=
  match skip_white (length s) s with
  | [] => true
  | _ => false
  end.

(** The value of a digit of the base. *)
Definition digit (base : N) (c : ascii) : option N :=
  let n := code c in
  let v :=
    if (48 <=? n) && (n <=? 57) then Some (n - 48)
    else if (97 <=? n) && (n <=? 102) then Some (n - 87)
    else if (65 <=? n) && (n <=? 70) then Some (n - 55)
    else None in
  match v with
  | Some d => if d <? base then Some d else None
  | None => None
  end.

(** The digits at the front of [s], read on top of [acc]: the value, how
    many digits there were, and what follows them. *)
Fixpoint digits (base : N) (s : list ascii) (acc : N) (count : nat)
    : N * nat * list ascii :=
  match s with
  | [] => (acc, count, [])
  | c :: rest =>
      match digit base c with
      | Some d => digits base rest (acc * base + d) (S count)
      | None => (acc, count, s)
      end
  end.

(** An ExponentPart, if one comes next; [None] for an [e] that no digit
    follows. *)
Definition exponent (s : list ascii) : option (Z * list ascii) :=
  match s with
  | [] => Some (0%Z, [])
  | c :: rest =>
      if (code c =? 101) || (code c =? 69) then
        let '(neg, rest') :=
          match rest with
          | d :: r =>
              if code d =? 43 then (false, r)
              else if code d =? 45 then (true, r)
              else (false, rest)
          | [] => (false, rest)
          end in
        let '(e, n, after) := digits 10 rest' 0 0 in
        match n with
        | O => None
        | _ => Some (cond_Zopp neg (Z.of_N e), after)
        end
      else Some (0%Z, s)
  end.

Fixpoint strip_prefix (p s : list ascii) : option (list ascii) :=
  match p, s with
  | [], _ => Some s
  | a :: p', b :: s' => if Ascii.eqb a b then strip_prefix p' s' else None
  | _ :: _, [] => None
  end.

(** StrUnsignedDecimalLiteral *)
Definition unsigned (neg : bool) (s : list ascii)
    : option (number * list ascii) :=
  match strip_prefix (list_ascii_of_string "Infinity") s with
  | Some rest => Some (S754_infinity neg, rest)
  | None =>
      let '(int, n1, r1) := digits 10 s 0 0 in
      let '(m, n2, r2) :=
        match r1 with
        | c :: r => if code c =? 46 then digits 10 r int 0 else (int, O, r1)
        | [] => (int, O, r1)
        end in
      match (n1 + n2)%nat with
      | O => None
      | _ =>
          match exponent r2 with
          | Some (e, rest) =>
              Some (Num.of_decimal neg m (e - Z.of_nat n2), rest)
          | None => None
          end
      end
  end.

(** The base a [0x], [0o] or [0b] prefix announces. *)
Definition radix (s : list ascii) : option (N * list ascii) :=
  match s with
  | z :: x :: rest =>
      if code z =? 48 then
        let n := code x in
        if (n =? 120) || (n =? 88) then Some (16, rest)
        else if (n =? 111) || (n =? 79) then Some (8, rest)
        else if (n =? 98) || (n =? 66) then Some (2, rest)
        else None
      else None
  | _ => None
  end.

(** StrNumericLiteral *)
Definition literal (s : list ascii) : option (number * list ascii) :=
  match radix s with
  | Some (base, rest) =>
      let '(v, n, after) := digits base rest 0 0 in
      match n with
      | O => None
      | _ => Some (Num.of_N v, after)
      end
  | None =>
      match s with
      | c :: rest =>
          if code c =? 43 then unsigned false rest
          else if code c =? 45 then unsigned true rest
          else unsigned false s
      | [] => None
      end
  end.

End StringNumericLiteral.

Definition StringToNumber (s : string) : number :=
  let cs := list_ascii_of_string s in
  match StringNumericLiteral.skip_white (length cs) cs with
  | [] => Num.of_nat 0
  | body =>
      match StringNumericLiteral.literal body with
      | Some (x, rest) =>
          if StringNumericLiteral.blank rest then x else Num.nan
      | None => Num.nan
      end
  end.

(** [StringToNumber(ToString(v))] for a [v] that converts. A number comes
    back from its own text (ECMA-262 6.1.6.1.20, note 1), [-0] as [0];
    [undefined], [null], [true], [false] and [[object Object]] are no
    numeric literals; an array of two or more elements has a comma in its
    text, and an array of one reads as that element, [null] as the empty
    text. *)
Fixpoint text_number (v : jsval) : number :=
  match v with
  | JUndefined | JNull | JBool _ | JObj _ => Num.nan
  | JNum (S754_zero _) => Num.of_nat 0
  | JNum x => x
  | JStr s => StringToNumber s
  | JArr [] => Num.of_nat 0
  | JArr [JUndefined] | JArr [JNull] => Num.of_nat 0
  | JArr [e] => text_number e
  | JArr _ => Num.nan
  end.

(** [ToNumber(v)]: [None] is the [TypeError] of a value that cannot be
    converted. *)
Definition ToNumber (v : jsval) : option number :=
  match v with
  | JUndefined => Some Num.nan
  | JNull => Some (Num.of_nat 0)
  | JBool b => Some (Num.of_nat (if b then 1 else 0))
  | JNum x => Some x
  | JStr s => Some (StringToNumber s)
  | JArr _ | JObj _ =>
      if stringifiable v then Some (text_number v) else None
  end.

(** [Math.round((a / b) * 100)] *)
Definition percent (a b : number) : number :=
  Num.round (Num.mul (Num.div a b) (Num.of_nat 100)).

Inductive Error :=
| SyntaxError                 (* JSON.parse *)
| TypeError                   (* a property of null or undefined; a value
                                 that cannot be converted *)
| SendError                   (* the data channel refused a message *)
| ErrorMsg (message : string).  (* throw new Error(message) *)

Inductive Res (A : Type) :=
| Ok (a : A)
| Throw (e : Error).
Arguments Ok {A} a.
Arguments Throw {A} e.

(** *** simple-peer's [Peer], as far as the managers use it *)

Record Peer := {
  connected : bool;             (* peer.connected *)
  destroyed : bool;
  calls : list (Frame * bool);  (* every send call, oldest first, and
                                   whether the channel accepted it *)
  faults : list bool            (* the channel's future: will the next send
                                   calls throw (none listed: no) *)
}.

(** [new Peer({...})] *)
Definition Peer_new (faults : list bool) : Peer :=
  {| connected := false; destroyed := false; calls := []; faults := faults |}.

(** [peer.send(frame)] *)
Definition Peer_send (p : Peer) (f : Frame) : Res unit * Peer :=
  match faults p with
  | true :: later =>
      (Throw SendError,
       {| connected := connected p; destroyed := destroyed p;
          calls := calls p ++ [(f, false)]; faults := later |})
  | _ =>
      (Ok tt,
       {| connected := connected p; destroyed := destroyed p;
          calls := calls p ++ [(f, true)]; faults := tl (faults p) |})
  end.

(** The frames the channel accepted, oldest first. *)
Definition outbox (p : Peer) : list Frame :=
  map fst (filter (fun c => snd c = true) (calls p)).

(** [peer.destroy()]: the second component says whether ['close'] is
    emitted (once per peer). *)
Definition Peer_destroy (p : Peer) : Peer * bool :=
  if destroyed p then (p, false)
  else ({| connected := false; destroyed := true; calls := calls p;
           faults := faults p |}, true).

(** No send on this peer is going to throw. *)
Definition reliable (p : Peer) : Prop := Forall (fun b => b = false) (faults p).

(** The send calls a run of accepted frames adds to [calls]. *)
Definition accepted (fs : list Frame) : list (Frame * bool) :=
  map (fun f => (f, true)) fs.

(** The ['connect'] event of the transport. *)
Definition Peer_connect (p : Peer) : Peer :=
  {| connected := negb (destroyed p); destroyed := destroyed p;
     calls := calls p; faults := faults p |}.

(** [peer.signal(descriptor)]. simple-peer is not part of the sources:
    whether the call throws on the descriptor it is given, and what, is an
    argument ([refusal]; [None]: the call returns) of the methods that make
    the call. A destroyed peer refuses every descriptor. *)
Definition Peer_signal (p : Peer) (refusal : option Error) : Res unit :=
  if destroyed p then Throw (ErrorMsg "cannot signal after peer is destroyed")
  else
    match refusal with
    | Some e => Throw e
    | None => Ok tt
    end.

(** *** Methods: state, trace and exceptions *)

Definition M (Ev S A : Type) : Type := S -> Res A * S * list Ev.

Section Monad.

Context {Ev S : Type}.

Local Abbreviation M := (M Ev S).

Definition ret {A} (a : A) : M A := fun s => (Ok a, s, []).

Definition bind {A B} (m : M A) (k : A -> M B) : M B :=
  fun s =>
    match m s with
    | (Ok a, s', t) => let '(r, s'', t') := k a s' in (r, s'', t ++ t')
    | (Throw e, s', t) => (Throw e, s', t)
    end.

Definition throw {A} (e : Error) : M A := fun s => (Throw e, s, []).

Definition emit (e : Ev) : M unit := fun s => (Ok tt, s, [e]).

Definition get : M S := fun s => (Ok s, s, []).

Definition put (s : S) : M unit := fun _ => (Ok tt, s, []).

Definition modify (f : S -> S) : M unit := fun s => (Ok tt, f s, []).

(** [try { body } catch (e) { handler }] *)
Definition try_catch {A} (body : M A) (handler : Error -> M A) : M A :=
  fun s =>
    match body s with
    | (Ok a, s', t) => (Ok a, s', t)
    | (Throw e, s', t) => let '(r, s'', t') := handler e s' in (r, s'', t ++ t')
    end.

Definition lift {A} (o : option A) (e : Error) : M A :=
  match o with
  | Some a => ret a
  | None => throw e
  end.

(** A template literal around the values [vs]: each is converted with
    [ToString], which throws for a value that cannot be converted. The
    text itself goes to the console, or into a label that keeps the
    value. *)
Definition interpolate (vs : list jsval) : M unit :=
  if forallb stringifiable vs then ret tt else throw TypeError.

End Monad.

Declare Scope js_scope.
Delimit Scope js_scope with js.
Notation "x ← m ; k" := (bind m (fun x => k))
  (at level 20, m at level 100, k at level 200, only parsing) : js_scope.
Notation "m ;; k" := (bind m (fun _ => k))
  (at level 100, k at level 200, only parsing, right associativity) : js_scope.

Definition result {Ev S A} (r : Res A * S * list Ev) : Res A := fst (fst r).
Definition state {Ev S A} (r : Res A * S * list Ev) : S := snd (fst r).
Definition trace {Ev S A} (r : Res A * S * list Ev) : list Ev := snd r.

Inductive LogLevel := Warn | Err.

(** [file.slice(start, end)] on the bytes of a file. *)
Definition slice (start stop : nat) (bytes : list byte) : list byte :=
  take (stop - start) (drop start bytes).

Definition CHUNK_SIZE : nat := 16384.

(** [Math.ceil(size / CHUNK_SIZE)]. The divisor is a power of two, so the
    quotient is exact in binary64 and its ceiling is the integer one. *)
Definition chunk_count (size : nat) : nat :=
  size / CHUNK_SIZE + (if size mod CHUNK_SIZE =? 0 then 0 else 1).

(** The loop both managers assemble a file with,
    [for (let i = 0; i < n; i++) { const chunk = chunks.get(i); if (!chunk)
    return; parts.push(chunk) }], from index [i] on for [todo] rounds:
    [None] at the first index the map does not hold. *)
Fixpoint collect (chunks : gmap nat Data) (i todo : nat)
    : option (list Data) :=
  match todo with
  | 0 => Some []
  | S todo' =>
      match chunks !! i with
      | None => None
      | Some chunk => cons chunk <$> collect chunks (S i) todo'
      end
  end.

(** The chunks a map holds under [i], [i+1], ..., [i+n-1], in that order. *)
Definition chunks_in_order (chunks : gmap nat Data) (i n : nat) : list Data :=
  (fun j => default [] (chunks !! j)) <$> seq i n.

(** The browser's [File]. *)
Record File := {
  file_name : string;
  file_type : string;
  file_bytes : list byte
}.

Definition file_size (f : File) : nat := length (file_bytes f).

(** ** [WebRTCManager]: one peer, one file ([src/utils/webrtc.ts]) *)

Module WebRTCManager.

Local Open Scope js_scope.
Local Open Scope string_scope.

(** [TransferProgress] *)
Record TransferProgress := {
  sent : nat;
  total : jsval;
  percentage : number;
  speed : nat
}.

(** What [assembleFile] hands to [new File([new Blob(chunks, {type})],
    name, {type, lastModified})]: the chunks joined, and the [name] and
    [type] values as read from the metadata (the constructor turns them
    into strings). [lastModified] is the clock and is left out. *)
Record ReceivedFile := {
  name : jsval;
  type : jsval;
  bytes : list byte
}.

Inductive Event :=
| onProgress (p : TransferProgress)
| onFileReceived (f : ReceivedFile)
| onConnected
| onDisconnected
| console (level : LogLevel) (message : string).

Record t := {
  peer : option Peer;
  isInitiator : bool;
  fileData : jsval;                       (* FileData | null *)
  receivedChunks : gmap nat Data;         (* Map<number, ArrayBuffer> *)
  expectedChunkIndex : nat;
  connectionTimeout : bool                (* is the timer armed *)
}.

Abbreviation M := (M Event t).

Definition set_peer (p : option Peer) (s : t) : t :=
  {| peer := p; isInitiator := isInitiator s; fileData := fileData s;
     receivedChunks := receivedChunks s;
     expectedChunkIndex := expectedChunkIndex s;
     connectionTimeout := connectionTimeout s |}.

Definition set_fileData (v : jsval) (s : t) : t :=
  {| peer := peer s; isInitiator := isInitiator s; fileData := v;
     receivedChunks := receivedChunks s;
     expectedChunkIndex := expectedChunkIndex s;
     connectionTimeout := connectionTimeout s |}.

Definition set_receive (chunks : gmap nat Data) (index : nat) (s : t) : t :=
  {| peer := peer s; isInitiator := isInitiator s; fileData := fileData s;
     receivedChunks := chunks; expectedChunkIndex := index;
     connectionTimeout := connectionTimeout s |}.

Definition set_connectionTimeout (armed : bool) (s : t) : t :=
  {| peer := peer s; isInitiator := isInitiator s; fileData := fileData s;
     receivedChunks := receivedChunks s;
     expectedChunkIndex := expectedChunkIndex s;
     connectionTimeout := armed |}.

(** [new WebRTCManager(isInitiator, ...)] *)
Definition new (initiator : bool) : t :=
  {| peer := None; isInitiator := initiator; fileData := JNull;
     receivedChunks := ∅; expectedChunkIndex := 0;
     connectionTimeout := false |}.

(** [cleanup()] *)
Definition cleanup : M unit :=
  modify (set_connectionTimeout false).

(** *** The handlers [createPeer] registers on the transport *)

(** ['connect'] *)
Definition on_connect : M unit :=
  modify (fun s => set_peer (Peer_connect <$> peer s) s);;
  modify (set_connectionTimeout false);;
  emit onConnected.

(** ['error'] (the promise of [createPeer] is rejected) *)
Definition on_error : M unit :=
  emit (console Err "WebRTC: Peer error:");;
  cleanup.

(** ['close'] *)
Definition on_close : M unit :=
  cleanup;;
  emit onDisconnected.

(** [createPeer()], up to the point where it waits for ['signal']. *)
Definition createPeer (faults : list bool) : M unit :=
  modify (set_peer (Some (Peer_new faults)));;
  modify (set_connectionTimeout true).

(** [connectToPeer(signalData)], for the [metadata] of the envelope and
    the outcome [refusal] of [peer.signal] on its descriptor. *)
Definition connectToPeer (metadata : jsval) (refusal : option Error)
    : M unit :=
  s ← get;
  match peer s with
  | None => throw (ErrorMsg "Peer not initialized")
  | Some p =>
      (if truthy metadata then modify (set_fileData metadata) else ret tt);;
      match Peer_signal p refusal with
      | Ok _ => ret tt
      | Throw e =>
          emit (console Err "WebRTC: Failed to signal peer:");;
          cleanup;;
          throw e
      end
  end.

(** *** Sending *)

(** [JSON.stringify({type: 'fileStart', data: this.fileData})] *)
Definition fileStart_text (file : File) (chunks : nat) : string :=
  Eval cbv beta iota delta [Stringify.lit Stringify.dq] in
  Stringify.lit "{'type':'fileStart','data':{'name':" ++
  Stringify.quote (file_name file) ++
  Stringify.lit ",'size':" ++ Stringify.dec (file_size file) ++
  Stringify.lit ",'type':" ++ Stringify.quote (file_type file) ++
  Stringify.lit ",'chunks':" ++ Stringify.dec chunks ++ "}}".

(** [JSON.stringify({type: 'chunkStart', data: {index, size, total}})] *)
Definition chunkStart_text (index size total : nat) : string :=
  Eval cbv beta iota delta [Stringify.lit Stringify.dq] in
  Stringify.lit "{'type':'chunkStart','data':{'index':" ++ Stringify.dec index ++
  Stringify.lit ",'size':" ++ Stringify.dec size ++
  Stringify.lit ",'total':" ++ Stringify.dec total ++ "}}".

(** [JSON.stringify({type: 'fileComplete'})] *)
Definition fileComplete_text : string :=
  Eval cbv beta iota delta [Stringify.lit Stringify.dq] in
  Stringify.lit "{'type':'fileComplete'}".

(** The object [sendFile] stores in [this.fileData]. *)
Definition fileData_of (file : File) (chunks : nat) : jsval :=
  JObj [("name", JStr (file_name file));
        ("size", JNum (Num.of_nat (file_size file)));
        ("type", JStr (file_type file));
        ("chunks", JNum (Num.of_nat chunks))].

(** [this.peer.send(frame)] *)
Definition send (f : Frame) : M unit :=
  s ← get;
  match peer s with
  | None => throw TypeError
  | Some p =>
      let '(r, p') := Peer_send p f in
      put (set_peer (Some p') s);;
      match r with
      | Ok _ => ret tt
      | Throw e => throw e
      end
  end.

(** The chunk with index [i] of a file. *)
Definition chunk_of (file : File) (i : nat) : list byte :=
  let start := i * CHUNK_SIZE in
  let stop := Nat.min (start + CHUNK_SIZE) (file_size file) in
  slice start stop (file_bytes file).

(** The body of [for (let i = 0; i < chunks; i++)], from index [i] on,
    with [todo = chunks - i] rounds to go. The two [await]s of a round
    (reading the slice, the 10 ms pause) are taken to return with the
    manager as it was left. *)
Fixpoint send_chunks (file : File) (chunks i todo : nat) : M unit :=
  match todo with
  | 0 => ret tt
  | S todo' =>
      let arrayBuffer := chunk_of file i in
      send (FText (chunkStart_text i (length arrayBuffer) chunks));;
      send (FBinary arrayBuffer);;
      emit (onProgress
              {| sent := i + 1; total := JNum (Num.of_nat chunks);
                 percentage :=
                   percent (Num.of_nat (i + 1)) (Num.of_nat chunks);
                 speed := 0 |});;
      send_chunks file chunks (S i) todo'
  end.

(** [sendFile(file)] *)
Definition sendFile (file : File) : M unit :=
  s ← get;
  if negb (from_option connected false (peer s)) then
    throw (ErrorMsg "Peer not connected")
  else
    let chunks := chunk_count (file_size file) in
    modify (set_fileData (fileData_of file chunks));;
    try_catch
      (send (FText (fileStart_text file chunks));;
       send_chunks file chunks 0 chunks;;
       send (FText fileComplete_text))
      (fun e =>
         emit (console Err "WebRTC: File transfer failed:");;
         throw e).

(** *** Receiving *)

(** The warning for a frame that is not JSON while no metadata is
    recorded. *)
Definition no_metadata_warning : Event :=
  console Warn "WebRTC: Received binary data without file metadata".

Section Receive.

(** [handleBinaryChunk(data)]. The chunk is stored before
    [fileData.chunks] is converted, for the [console.log] line first and
    for the division next. *)
Definition handleBinaryChunk (data : Data) : M unit :=
  s ← get;
  if negb (truthy (fileData s)) then
    emit (console Err "WebRTC: Cannot handle chunk: no file metadata")
  else
    let chunkIndex := expectedChunkIndex s in
    let chunks' := <[chunkIndex := data]> (receivedChunks s) in
    put (set_receive chunks' (S chunkIndex) s);;
    total ← lift (get_prop (fileData s) "chunks") TypeError;
    interpolate [total];;
    divisor ← lift (ToNumber total) TypeError;
    emit (onProgress
            {| sent := size chunks'; total := total;
               percentage := percent (Num.of_nat (size chunks')) divisor;
               speed := 0 |}).

(** [assembleFile()]. Once the size test has passed, [fileData.chunks]
    is the number of entries of the map, which bounds the loop. The
    message of the size test converts [fileData.chunks]; [new Blob] and
    [new File] convert [fileData.type] and [fileData.name] to strings,
    inside the [try]. *)
Definition assembleFile : M unit :=
  s ← get;
  if negb (truthy (fileData s)) then
    emit (console Err "WebRTC: Cannot assemble file: no metadata")
  else
    expected ← lift (get_prop (fileData s) "chunks") TypeError;
    let received := size (receivedChunks s) in
    if negb (strict_eq_num (Num.of_nat received) expected) then
      interpolate [expected];;
      emit (console Err "WebRTC: Cannot assemble file: expected chunks")
    else
      match collect (receivedChunks s) 0 received with
      | None => emit (console Err "WebRTC: Missing chunk")
      | Some chunks =>
          try_catch
            (type ← lift (get_prop (fileData s) "type") TypeError;
             interpolate [type];;
             name ← lift (get_prop (fileData s) "name") TypeError;
             interpolate [name];;
             emit (onFileReceived
                     {| name := name; type := type;
                        bytes := concat chunks |}))
            (fun _ => emit (console Err "WebRTC: Error assembling file:"))
      end.

(** [handleReceivedData(data)] *)
Definition handleReceivedData (data : Data) : M unit :=
  try_catch
    (message ← lift (JSON.parse (toString data)) SyntaxError;
     type ← lift (get_prop message "type") TypeError;
     if is_str type "fileStart" then
       data' ← lift (get_prop message "data") TypeError;
       modify (set_fileData data');;
       modify (set_receive ∅ 0)
     else if is_str type "chunkStart" then
       ret tt
     else if is_str type "fileComplete" then
       assembleFile
     else
       emit (console Warn "WebRTC: Unknown message type:"))
    (fun _ =>
       s ← get;
       if truthy (fileData s) then handleBinaryChunk data
       else emit no_metadata_warning).

(** The ['data'] events of a sequence of frames, in order. *)
Fixpoint receive (frames : list Data) : M unit :=
  match frames with
  | [] => ret tt
  | data :: rest => handleReceivedData data;; receive rest
  end.

End Receive.

(** [destroy()]. The destroyed peer emits ['close'] once, in the next
    microtask; its handler runs when the body is over. *)
Definition destroy : M unit :=
  cleanup;;
  s ← get;
  closes ← match peer s with
           | Some p => modify (set_peer None);; ret (snd (Peer_destroy p))
           | None => ret false
           end;
  modify (set_receive ∅ 0);;
  modify (set_fileData JNull);;
  if closes : bool then on_close else ret tt.

(** [get isConnected()] *)
Definition isConnected (s : t) : bool :=
  from_option connected false (peer s).

(** A frame [handleReceivedData] takes for binary data: its text is not
    JSON, or is the JSON text [null] (reading [message.type] then
    throws). *)
Definition binary_like (data : Data) : Prop :=
  JSON.parse (toString data) = None \/
  JSON.parse (toString data) = Some JNull.

(** The receive state is in step when the map holds exactly the indices
    below [expectedChunkIndex]. *)
Definition in_step (s : t) : Prop :=
  forall j, is_Some (receivedChunks s !! j) <-> j < expectedChunkIndex s.

Definition progress_of (e : Event) : option TransferProgress :=
  match e with
  | onProgress p => Some p
  | _ => None
  end.

Definition file_of (e : Event) : option ReceivedFile :=
  match e with
  | onFileReceived f => Some f
  | _ => None
  end.

End WebRTCManager.

(** ** [Map]: insertion order matters

    A JS [Map] iterates in insertion order ([keys()], [entries()],
    [forEach]); [set] on a key it holds keeps the key's place. *)

Section JSMap.

Context {K V : Type} (same : K -> K -> bool).

Fixpoint Map_get (k : K) (m : list (K * V)) : option V :=
  match m with
  | [] => None
  | (k', v) :: rest => if same k k' then Some v else Map_get k rest
  end.

Definition Map_has (k : K) (m : list (K * V)) : bool :=
  match Map_get k m with Some _ => true | None => false end.

Fixpoint Map_set (k : K) (v : V) (m : list (K * V)) : list (K * V) :=
  match m with
  | [] => [(k, v)]
  | (k', v') :: rest =>
      if same k k' then (k', v) :: rest else (k', v') :: Map_set k v rest
  end.

Fixpoint Map_delete (k : K) (m : list (K * V)) : list (K * V) :=
  match m with
  | [] => []
  | (k', v') :: rest =>
      if same k k' then rest else (k', v') :: Map_delete k rest
  end.

Definition Map_keys (m : list (K * V)) : list K := map fst m.

End JSMap.

(** SameValueZero, the key equality of a [Map]. An array or object is equal
    only to itself, and every [JSON.parse] builds new ones. *)
Definition same_value_zero (a b : jsval) : bool :=
  match a, b with
  | JUndefined, JUndefined | JNull, JNull => true
  | JBool x, JBool y => Bool.eqb x y
  | JNum S754_nan, JNum S754_nan => true
  | JNum x, JNum y => Num.eqb x y
  | JStr x, JStr y => String.eqb x y
  | _, _ => false
  end.

(** ** [ChatWebRTCManager]: a host and its subscribers
    ([src/utils/chatWebRTC.ts])

    [generateId()] (random) and [Date.now()] (the clock) are arguments of
    the methods that call them. *)

Module ChatWebRTCManager.

Local Open Scope js_scope.
Local Open Scope string_scope.

Record Subscriber := {
  sub_id : string;
  sub_name : string;
  sub_connected : bool;
  joinedAt : nat
}.

(** [ChatSignalData] *)
Inductive SignalType := offer | answer.

Record ChatSignalData := {
  sig_type : SignalType;
  signal : string;                       (* the transport's descriptor *)
  sig_subscriberId : option string;
  sig_subscriberName : option string
}.

(** [!s] for an optional string *)
Definition missing (s : option string) : bool :=
  match s with
  | None | Some "" => true
  | Some _ => false
  end.

Inductive Sender := host | subscriber.
Inductive MessageType := text | file.

(** The text of a message: a plain string, or one of the two templates
    around a file name ([📁 ${name}], [📁 Receiving ${name}...]). *)
Inductive Content :=
| Plain (s : string)
| FileLabel (name : jsval)
| ReceivingLabel (name : jsval).

(** [new Blob(chunks, {type})] behind the URL [createObjectURL] made. *)
Record Blob := {
  blob_type : jsval;
  blob_bytes : list byte
}.

Record FileAttachment := {
  att_name : jsval;
  att_size : jsval;
  att_type : jsval;
  url : option Blob
}.

(** [ChatMessage], as the manager builds it. *)
Record ChatMessage := {
  msg_id : jsval;
  content : Content;
  timestamp : nat;
  sender : Sender;
  msg_subscriberId : option string;
  msg_type : MessageType;
  msg_fileData : option FileAttachment
}.

Inductive Event :=
| onMessage (m : ChatMessage)            (* a message built here *)
| onMessageParsed (data : jsval)         (* [parsed.data] of a frame *)
| onSubscriberJoined (s : Subscriber)
| onSubscriberLeft (subscriberId : string)
| onConnected
| onDisconnected
| onFileProgress (percentage : number) (fileName : jsval)
| console (level : LogLevel) (message : string).

(** An entry of [fileTransfers]. *)
Record Transfer := {
  chunks : gmap nat Data;
  receivedChunks : nat;
  totalChunks : jsval;
  fileName : jsval;
  fileSize : jsval;
  fileType : jsval
}.

Record t := {
  isHost : bool;
  peers : list (string * Peer);                  (* Map<string, Peer> *)
  subscribers : list (string * Subscriber);      (* Map<string, Subscriber> *)
  hostPeer : option Peer;
  subscriberId : string;
  subscriberName : string;
  fileTransfers : list (jsval * Transfer)        (* Map<string, {...}> *)
}.

Abbreviation M := (M Event t).

Definition set_peers (ps : list (string * Peer)) (s : t) : t :=
  {| isHost := isHost s; peers := ps; subscribers := subscribers s;
     hostPeer := hostPeer s; subscriberId := subscriberId s;
     subscriberName := subscriberName s;
     fileTransfers := fileTransfers s |}.

Definition set_subscribers (ss : list (string * Subscriber)) (s : t) : t :=
  {| isHost := isHost s; peers := peers s; subscribers := ss;
     hostPeer := hostPeer s; subscriberId := subscriberId s;
     subscriberName := subscriberName s;
     fileTransfers := fileTransfers s |}.

Definition set_hostPeer (p : option Peer) (s : t) : t :=
  {| isHost := isHost s; peers := peers s; subscribers := subscribers s;
     hostPeer := p; subscriberId := subscriberId s;
     subscriberName := subscriberName s;
     fileTransfers := fileTransfers s |}.

Definition set_subscriberId (i : string) (s : t) : t :=
  {| isHost := isHost s; peers := peers s; subscribers := subscribers s;
     hostPeer := hostPeer s; subscriberId := i;
     subscriberName := subscriberName s;
     fileTransfers := fileTransfers s |}.

Definition set_fileTransfers (ts : list (jsval * Transfer)) (s : t) : t :=
  {| isHost := isHost s; peers := peers s; subscribers := subscribers s;
     hostPeer := hostPeer s; subscriberId := subscriberId s;
     subscriberName := subscriberName s;
     fileTransfers := ts |}.

(** [new ChatWebRTCManager(isHost, subscriberName, ...)] *)
Definition new (host_role : bool) (name : option string) : t :=
  {| isHost := host_role; peers := []; subscribers := []; hostPeer := None;
     subscriberId := ""; subscriberName := default "" name;
     fileTransfers := [] |}.

(** [removeSubscriber(subscriberId)] *)
Definition removeSubscriber (subscriberId : string) : M unit :=
  s ← get;
  (if Map_has String.eqb subscriberId (subscribers s) then
     modify (fun s => set_subscribers
                        (Map_delete String.eqb subscriberId (subscribers s)) s);;
     emit (onSubscriberLeft subscriberId)
   else ret tt);;
  s ← get;
  match Map_get String.eqb subscriberId (peers s) with
  | Some _ =>
      modify (set_peers (Map_delete String.eqb subscriberId (peers s)))
  | None => ret tt
  end.

(** [createOffer()], up to the point where it waits for ['signal'];
    [subscriberId] is the identifier [generateId()] drew. *)
Definition createOffer (subscriberId : string) (faults : list bool)
    : M unit :=
  s ← get;
  if negb (isHost s) then throw (ErrorMsg "Only host can create offers")
  else
    modify (set_peers
              (Map_set String.eqb subscriberId (Peer_new faults) (peers s))).

(** The envelope [createOffer()] resolves with on ['signal']. *)
Definition offer_of (subscriberId descriptor : string) : ChatSignalData :=
  {| sig_type := offer; signal := descriptor;
     sig_subscriberId := Some subscriberId; sig_subscriberName := None |}.

(** [createAnswer(offerData)], up to the point where it waits for
    ['signal']; [refusal] is the outcome of [peer.signal] on the offer's
    descriptor. A throw inside the executor rejects the promise. *)
Definition createAnswer (offerData : ChatSignalData) (faults : list bool)
    (refusal : option Error) : M unit :=
  s ← get;
  if isHost s then throw (ErrorMsg "Host cannot create answers")
  else
    match sig_subscriberId offerData with
    | Some subscriberId =>
        if missing (Some subscriberId) then
          throw (ErrorMsg "Invalid offer data: missing subscriberId")
        else
          modify (set_subscriberId subscriberId);;
          let peer := Peer_new faults in
          match Peer_signal peer refusal with
          | Ok _ => modify (set_hostPeer (Some peer))
          | Throw e => throw e
          end
    | None => throw (ErrorMsg "Invalid offer data: missing subscriberId")
    end.

(** The envelope [createAnswer()] resolves with on ['signal']. *)
Definition answer_of (s : t) (descriptor : string) : ChatSignalData :=
  {| sig_type := answer; signal := descriptor;
     sig_subscriberId := Some (subscriberId s);
     sig_subscriberName := Some (subscriberName s) |}.

(** *** The text of the control messages *)

Definition sender_text (who : Sender) : string :=
  match who with host => "host" | subscriber => "subscriber" end.

(** [JSON.stringify({type: 'message', data: message})] for a text message
    ([subscriberId] is left out when it is [undefined]). *)
Definition message_text (id content : string) (now : nat) (who : Sender)
    (sid : option string) : string :=
  Eval cbv beta iota delta [Stringify.lit Stringify.dq] in
  Stringify.lit "{'type':'message','data':{'id':" ++ Stringify.quote id ++
  Stringify.lit ",'content':" ++ Stringify.quote content ++
  Stringify.lit ",'timestamp':" ++ Stringify.dec now ++
  Stringify.lit ",'sender':" ++ Stringify.quote (sender_text who) ++
  match sid with
  | Some i => Stringify.lit ",'subscriberId':" ++ Stringify.quote i
  | None => ""
  end ++
  Stringify.lit ",'type':'text'}}".

Definition fileStart_text (fileId : string) (f : File) (total : nat)
    : string :=
  Eval cbv beta iota delta [Stringify.lit Stringify.dq] in
  Stringify.lit "{'type':'fileStart','data':{'fileId':" ++ Stringify.quote fileId ++
  Stringify.lit ",'fileName':" ++ Stringify.quote (file_name f) ++
  Stringify.lit ",'fileSize':" ++ Stringify.dec (file_size f) ++
  Stringify.lit ",'fileType':" ++ Stringify.quote (file_type f) ++
  Stringify.lit ",'totalChunks':" ++ Stringify.dec total ++ "}}".

Definition fileChunk_text (fileId : string) (index total : nat) : string :=
  Eval cbv beta iota delta [Stringify.lit Stringify.dq] in
  Stringify.lit "{'type':'fileChunk','data':{'fileId':" ++ Stringify.quote fileId ++
  Stringify.lit ",'chunkIndex':" ++ Stringify.dec index ++
  Stringify.lit ",'totalChunks':" ++ Stringify.dec total ++ "}}".

Definition fileComplete_text (fileId : string) : string :=
  Eval cbv beta iota delta [Stringify.lit Stringify.dq] in
  Stringify.lit "{'type':'fileComplete','data':{'fileId':" ++
  Stringify.quote fileId ++ "}}".

(** *** Sending *)

(** [peer.send(frame)] on the transport stored under [subscriberId]. *)
Definition send_on (subscriberId : string) (f : Frame) : M unit :=
  s ← get;
  match Map_get String.eqb subscriberId (peers s) with
  | None => throw TypeError
  | Some p =>
      let '(r, p') := Peer_send p f in
      put (set_peers (Map_set String.eqb subscriberId p' (peers s)) s);;
      match r with
      | Ok _ => ret tt
      | Throw e => throw e
      end
  end.

Fixpoint send_all_on (subscriberId : string) (fs : list Frame) : M unit :=
  match fs with
  | [] => ret tt
  | f :: rest => send_on subscriberId f;; send_all_on subscriberId rest
  end.

(** The body every [targets.forEach] of the host shares:
    [if (peer && peer.connected) try { peer.send(...) ... } catch
    { console.error(...) }]. *)
Definition try_send (fs : list Frame) (failure : string)
    (subscriberId : string) : M unit :=
  s ← get;
  match Map_get String.eqb subscriberId (peers s) with
  | Some p =>
      if connected p then
        try_catch (send_all_on subscriberId fs)
                  (fun _ => emit (console Err failure))
      else ret tt
  | None => ret tt
  end.

Fixpoint forEach {A} (xs : list A) (body : A -> M unit) : M unit :=
  match xs with
  | [] => ret tt
  | x :: rest => body x;; forEach rest body
  end.

(** [targetSubscribers || Array.from(this.subscribers.keys())] *)
Definition targets_of (targetSubscribers : option (list string)) (s : t)
    : list string :=
  match targetSubscribers with
  | Some ts => ts
  | None => Map_keys (subscribers s)
  end.

(** [this.hostPeer.send(frame)] *)
Definition send_host (f : Frame) : M unit :=
  s ← get;
  match hostPeer s with
  | None => throw TypeError
  | Some p =>
      let '(r, p') := Peer_send p f in
      put (set_hostPeer (Some p') s);;
      match r with
      | Ok _ => ret tt
      | Throw e => throw e
      end
  end.

(** [sendMessage(content, targetSubscribers?)]; [id] is what
    [generateId()] drew and [now] is [Date.now()]. *)
Definition sendMessage (id : string) (now : nat) (body : string)
    (targetSubscribers : option (list string)) : M unit :=
  s ← get;
  let who := if isHost s then host else subscriber in
  let sid := if isHost s then None else Some (subscriberId s) in
  let message :=
    {| msg_id := JStr id; content := Plain body; timestamp := now;
       sender := who; msg_subscriberId := sid; msg_type := text;
       msg_fileData := None |} in
  let frame := FText (message_text id body now who sid) in
  (if isHost s then
     forEach (targets_of targetSubscribers s)
       (try_send [frame] "Chat: Failed to send message to subscriber")
   else
     if from_option connected false (hostPeer s) then
       try_catch (send_host frame)
         (fun _ => emit (console Err "Chat: Failed to send message to host:"))
     else ret tt);;
  emit (onMessage message).

(** [processAnswer(answerData)]; [now] is [Date.now()], [welcomeId] the
    identifier of the welcome message, [refusal] the outcome of
    [peer.signal] on the answer's descriptor. *)
Definition processAnswer (answerData : ChatSignalData) (now : nat)
    (welcomeId : string) (refusal : option Error) : M unit :=
  s ← get;
  if negb (isHost s) then throw (ErrorMsg "Only host can process answers")
  else
    match sig_subscriberId answerData, sig_subscriberName answerData with
    | Some subscriberId, Some subscriberName =>
        if missing (Some subscriberId) || missing (Some subscriberName)
        then throw (ErrorMsg "Invalid answer data")
        else
          match Map_get String.eqb subscriberId (peers s) with
          | None => throw (ErrorMsg "Peer not found for subscriber")
          | Some p =>
              match Peer_signal p refusal with
              | Throw e => throw e
              | Ok _ =>
                  let joined :=
                    {| sub_id := subscriberId; sub_name := subscriberName;
                       sub_connected := true; joinedAt := now |} in
                  modify (fun s =>
                    set_subscribers
                      (Map_set String.eqb subscriberId joined (subscribers s))
                      s);;
                  emit (onSubscriberJoined joined);;
                  sendMessage welcomeId now "Welcome to the chat!"
                    (Some [subscriberId])
              end
          end
    | _, _ => throw (ErrorMsg "Invalid answer data")
    end.

(** The chunk with index [i] of a file. *)
Definition chunk_of (f : File) (i : nat) : list byte :=
  let start := i * CHUNK_SIZE in
  let stop := Nat.min (start + CHUNK_SIZE) (file_size f) in
  slice start stop (file_bytes f).

(** The body of [for (let i = 0; i < chunks; i++)] of [sendFile], from
    index [i] on, [todo = chunks - i] rounds to go; the [await]s of a
    round are taken to return with the manager as it was left. *)
Fixpoint send_chunks (fileId : string) (f : File) (targets : list string)
    (total i todo : nat) : M unit :=
  match todo with
  | 0 => ret tt
  | S todo' =>
      let arrayBuffer := chunk_of f i in
      forEach targets
        (try_send [FText (fileChunk_text fileId i total); FBinary arrayBuffer]
           "Chat: Failed to send file chunk to subscriber");;
      emit (onFileProgress
              (percent (Num.of_nat (i + 1)) (Num.of_nat total))
              (JStr (file_name f)));;
      send_chunks fileId f targets total (S i) todo'
  end.

(** [sendFile(file, targetSubscribers?)]; [fileId] is what [generateId()]
    drew and [now] is [Date.now()]. *)
Definition sendFile (fileId : string) (now : nat) (f : File)
    (targetSubscribers : option (list string)) : M unit :=
  s ← get;
  if negb (isHost s) then throw (ErrorMsg "Only host can send files")
  else
    let total := chunk_count (file_size f) in
    let targets := targets_of targetSubscribers s in
    emit (onMessage
            {| msg_id := JStr fileId; content := FileLabel (JStr (file_name f));
               timestamp := now; sender := host; msg_subscriberId := None;
               msg_type := file;
               msg_fileData :=
                 Some {| att_name := JStr (file_name f);
                         att_size := JNum (Num.of_nat (file_size f));
                         att_type := JStr (file_type f); url := None |} |});;
    forEach targets
      (try_send [FText (fileStart_text fileId f total)]
         "Chat: Failed to send file metadata to subscriber");;
    send_chunks fileId f targets total 0 total;;
    forEach targets
      (try_send [FText (fileComplete_text fileId)]
         "Chat: Failed to send file completion to subscriber").

(** *** Receiving *)

Section Receive.

(** [handleFileStart(fileData, senderId)]; [now] is [Date.now()].
    Destructuring [null] or [undefined] is a [TypeError]. The transfer is
    stored before the label of the file message converts [fileName]. *)
Definition handleFileStart (fileData : jsval) (now : nat) : M unit :=
  fileId ← lift (get_prop fileData "fileId") TypeError;
  fileName ← lift (get_prop fileData "fileName") TypeError;
  fileSize ← lift (get_prop fileData "fileSize") TypeError;
  fileType ← lift (get_prop fileData "fileType") TypeError;
  totalChunks ← lift (get_prop fileData "totalChunks") TypeError;
  modify (fun s =>
    set_fileTransfers
      (Map_set same_value_zero fileId
         {| chunks := ∅; receivedChunks := 0; totalChunks := totalChunks;
            fileName := fileName; fileSize := fileSize;
            fileType := fileType |}
         (fileTransfers s)) s);;
  interpolate [fileName];;
  emit (onMessage
          {| msg_id := fileId; content := ReceivingLabel fileName;
             timestamp := now; sender := host; msg_subscriberId := None;
             msg_type := file;
             msg_fileData :=
               Some {| att_name := fileName; att_size := fileSize;
                       att_type := fileType; url := None |} |}).

(** [handleFileChunkMeta(chunkData, senderId)] *)
Definition handleFileChunkMeta (chunkData : jsval) : M unit := ret tt.

(** [transfer.receivedChunks < transfer.totalChunks]: [None] is the
    [TypeError] of a [totalChunks] that cannot be converted. *)
Definition active (tr : Transfer) : option bool :=
  Num.ltb (Num.of_nat (receivedChunks tr)) <$> ToNumber (totalChunks tr).

(** The transfer a binary chunk is given to, with the chunk stored. *)
Definition store (data : Data) (tr : Transfer) : Transfer :=
  {| chunks := <[receivedChunks tr := data]> (chunks tr);
     receivedChunks := S (receivedChunks tr);
     totalChunks := totalChunks tr; fileName := fileName tr;
     fileSize := fileSize tr; fileType := fileType tr |}.

(** The loop of [handleBinaryChunk] over [fileTransfers.entries()]: the
    first entry that is still short of chunks takes the data; the loop
    ends in a [TypeError] at an entry whose test throws. *)
Fixpoint first_active (data : Data) (entries : list (jsval * Transfer))
    : Res (option (list (jsval * Transfer) * Transfer)) :=
  match entries with
  | [] => Ok None
  | (fileId, tr) :: rest =>
      match active tr with
      | None => Throw TypeError
      | Some true => Ok (Some ((fileId, store data tr) :: rest, store data tr))
      | Some false =>
          match first_active data rest with
          | Ok (Some (rest', hit)) => Ok (Some ((fileId, tr) :: rest', hit))
          | other => other
          end
      end
  end.

(** [handleBinaryChunk(data, senderId)]. The chunk is stored before the
    [console.log] line converts [totalChunks] and [fileName]. *)
Definition handleBinaryChunk (data : Data) : M unit :=
  s ← get;
  match first_active data (fileTransfers s) with
  | Throw e => throw e
  | Ok (Some (entries', hit)) =>
      put (set_fileTransfers entries' s);;
      interpolate [totalChunks hit; fileName hit];;
      divisor ← lift (ToNumber (totalChunks hit)) TypeError;
      emit (onFileProgress
              (percent (Num.of_nat (receivedChunks hit)) divisor)
              (fileName hit))
  | Ok None => ret tt
  end.

(** [handleFileComplete(fileData, senderId)]; [now] is [Date.now()].
    Once the count test has passed, [totalChunks] is the count of
    chunks received, which bounds the loop. Each [console.error] message
    is a template literal; [new Blob] converts [fileType] and the label
    converts [fileName], inside the [try], whose handler converts
    [fileName] again. *)
Definition handleFileComplete (fileData : jsval) (now : nat) : M unit :=
  fileId ← lift (get_prop fileData "fileId") TypeError;
  s ← get;
  match Map_get same_value_zero fileId (fileTransfers s) with
  | None =>
      interpolate [fileId];;
      emit (console Err "Chat: File transfer not found")
  | Some transfer =>
      if negb (strict_eq_num (Num.of_nat (receivedChunks transfer))
                             (totalChunks transfer))
      then
        interpolate [totalChunks transfer];;
        emit (console Err "Chat: Incomplete file transfer")
      else
        match collect (chunks transfer) 0 (receivedChunks transfer) with
        | None =>
            interpolate [fileName transfer];;
            emit (console Err "Chat: Missing chunk")
        | Some parts =>
            try_catch
              (interpolate [fileType transfer];;
               interpolate [fileName transfer];;
               emit (onMessage
                       {| msg_id := fileId;
                          content := FileLabel (fileName transfer);
                          timestamp := now; sender := host;
                          msg_subscriberId := None; msg_type := file;
                          msg_fileData :=
                            Some {| att_name := fileName transfer;
                                    att_size := fileSize transfer;
                                    att_type := fileType transfer;
                                    url :=
                                      Some {| blob_type := fileType transfer;
                                              blob_bytes := concat parts |}
                                 |} |});;
               modify (fun s =>
                 set_fileTransfers
                   (Map_delete same_value_zero fileId (fileTransfers s)) s))
              (fun _ =>
                 interpolate [fileName transfer];;
                 emit (console Err "Chat: Failed to assemble file"))
        end
  end.

(** [handleReceivedData(data, senderId)]; [now] is [Date.now()]. *)
Definition handleReceivedData (data : Data) (now : nat) : M unit :=
  try_catch
    (parsed ← lift (JSON.parse (toString data)) SyntaxError;
     type ← lift (get_prop parsed "type") TypeError;
     payload ← lift (get_prop parsed "data") TypeError;
     if is_str type "message" then emit (onMessageParsed payload)
     else if is_str type "fileStart" then handleFileStart payload now
     else if is_str type "fileChunk" then handleFileChunkMeta payload
     else if is_str type "fileComplete" then handleFileComplete payload now
     else emit (console Warn "Chat: Unknown message type:"))
    (fun _ => handleBinaryChunk data).

(** The ['data'] events of a sequence of frames, in order. *)
Fixpoint receive (frames : list Data) (now : nat) : M unit :=
  match frames with
  | [] => ret tt
  | data :: rest => handleReceivedData data now;; receive rest now
  end.

End Receive.

(** [get isConnected()] *)
Definition isConnected (s : t) : bool :=
  if isHost s then (0 <? length (peers s))%nat
  else from_option connected false (hostPeer s).

(** *** Notions the statements below use *)

(** Is the transport stored under [subscriberId] connected
    ([peer && peer.connected]). *)
Definition live (s : t) (subscriberId : string) : bool :=
  from_option connected false (Map_get String.eqb subscriberId (peers s)).

(** The connected subscribers of a host: the keys of [subscribers] whose
    transport is connected. *)
Definition connected_subscribers (s : t) : list string :=
  List.filter (live s) (Map_keys (subscribers s)).

(** The number of [peer.send] calls made so far, over all transports. *)
Definition total_calls (s : t) : nat :=
  list_sum (map (fun e => length (calls (snd e))) (peers s)).

Definition is_console (e : Event) : bool :=
  match e with
  | console _ _ => true
  | _ => false
  end.

Definition message_of (e : Event) : option ChatMessage :=
  match e with
  | onMessage m => Some m
  | _ => None
  end.

Definition joined_of (e : Event) : option Subscriber :=
  match e with
  | onSubscriberJoined sub => Some sub
  | _ => None
  end.

(** The blob of a file message that carries a download URL. *)
Definition download_of (e : Event) : option (ChatMessage * Blob) :=
  match e with
  | onMessage m =>
      match msg_fileData m with
      | Some att => pair m <$> url att
      | None => None
      end
  | _ => None
  end.

(** The [totalChunks] and the [fileName] of a transfer can be converted
    to strings, as they are when a chunk is added to it. *)
Definition convertible (tr : Transfer) : bool :=
  stringifiable (totalChunks tr) && stringifiable (fileName tr).

(** [getSubscriberCount()] *)
Definition getSubscriberCount (s : t) : nat := length (subscribers s).

(** [getSubscribers()] *)
Definition getSubscribers (s : t) : list Subscriber :=
  map snd (subscribers s).

(** The file name of a progress notification. *)
Definition progress_of (e : Event) : option jsval :=
  match e with
  | onFileProgress _ fileName => Some fileName
  | _ => None
  end.

(** The transports of the host that [destroy()] closes: those not yet
    destroyed emit ['close']. *)
Definition closing (ps : list (string * Peer)) : list string :=
  map fst (filter (fun e => destroyed (snd e) = false) ps).

(** [destroy()]. Each destroyed transport emits ['close'] once, in the
    next microtask: the handlers ([removeSubscriber] on the host,
    [onDisconnected] on a subscriber) run when the body is over. *)
Definition destroy : M unit :=
  s ← get;
  let host_closes := closing (peers s) in
  modify (set_peers []);;
  link_closes ← match hostPeer s with
                | Some p =>
                    modify (set_hostPeer None);; ret (snd (Peer_destroy p))
                | None => ret false
                end;
  modify (set_subscribers []);;
  forEach host_closes removeSubscriber;;
  if link_closes : bool then emit onDisconnected else ret tt.

End ChatWebRTCManager.

(** ** The specification's words, for comparison *)

Module Spec.

(** "percentage = round(100*receivedCount/expectedChunkCount)", the
    operations in the order written. *)
Definition percentage (receivedCount expectedChunkCount : nat) : number :=
  Num.round (Num.div (Num.mul (Num.of_nat 100) (Num.of_nat receivedCount))
                     (Num.of_nat expectedChunkCount)).

(** "chunkCount = ceil(size / CHUNK_SIZE)": the least [n] with
    [size <= n * CHUNK_SIZE]. *)
Definition is_ceil (size n : nat) : Prop :=
  size <= n * CHUNK_SIZE /\ forall m, size <= m * CHUNK_SIZE -> n <= m.

(** "Chunk size: fixed at 16384 bytes for both protocols" *)
Definition chunkSize : nat := 16384.

(** "chunkCount = ceil(s/c)", for the fixed chunk size. *)
Definition chunkCount (size : nat) : nat :=
  (size + (chunkSize - 1)) / chunkSize.

(** "payload[i*chunkSize : min((i+1)*chunkSize, size)]": the bytes from
    the first bound up to, and without, the second. *)
Definition payload_slice (payload : list byte) (i : nat) : list byte :=
  let first := i * chunkSize in
  let last := Nat.min ((i + 1) * chunkSize) (length payload) in
  take (last - first) (drop first payload).

(** *** The send sequence, as what each frame says

    "one start control frame carrying the descriptor, then for each index
    i in [0, chunkCount) one chunk-meta control frame {index, size, total}
    immediately followed by the raw bytes of the slice, then a final
    complete control frame". A control frame is JSON text; it is given
    here as the value the text denotes, after the wire format of the
    specification's section 6. *)
Inductive Message :=
| Control (value : jsval)
| Raw (bytes : list byte).

(** The frame [f] on the wire says [m]. *)
Definition carries (f : Frame) (m : Message) : Prop :=
  match f, m with
  | FText text, Control value => JSON.parse text = Some value
  | FBinary bytes, Raw bytes' => bytes = bytes'
  | _, _ => False
  end.

Definition num (n : nat) : jsval := JNum (Num.of_nat n).

Local Open Scope string_scope.

(** The pair protocol: [{type: fileStart, data: FileDescriptor}] with the
    descriptor's name, size, mime type and chunk count under [name],
    [size], [type] and [chunks]; [{type: chunkStart, data: {index, size,
    total}}]; [{type: fileComplete}]. *)
Definition pair_start (f : File) : Message :=
  Control (JObj [("type", JStr "fileStart");
                 ("data", JObj [("name", JStr (file_name f));
                                ("size", num (file_size f));
                                ("type", JStr (file_type f));
                                ("chunks", num (chunkCount (file_size f)))])]).

Definition pair_chunk_meta (index size total : nat) : Message :=
  Control (JObj [("type", JStr "chunkStart");
                 ("data", JObj [("index", num index); ("size", num size);
                                ("total", num total)])]).

Definition pair_complete : Message :=
  Control (JObj [("type", JStr "fileComplete")]).

Definition pair_messages (f : File) : list Message :=
  let chunkCount := chunkCount (file_size f) in
  pair_start f
  :: flat_map
       (fun i =>
          [pair_chunk_meta i (length (payload_slice (file_bytes f) i))
                           chunkCount;
           Raw (payload_slice (file_bytes f) i)])
       (seq 0 chunkCount)
  ++ [pair_complete].

(** The broadcast protocol, "fileId-scoped variant": [{type: fileStart,
    data: {fileId, fileName, fileSize, fileType, totalChunks}}], [{type:
    fileChunk, data: {fileId, chunkIndex, totalChunks}}], [{type:
    fileComplete, data: {fileId}}]. Its chunk-meta frame names the index
    and the total, and no size. *)
Definition broadcast_start (fileId : string) (f : File) : Message :=
  Control (JObj [("type", JStr "fileStart");
                 ("data", JObj [("fileId", JStr fileId);
                                ("fileName", JStr (file_name f));
                                ("fileSize", num (file_size f));
                                ("fileType", JStr (file_type f));
                                ("totalChunks",
                                 num (chunkCount (file_size f)))])]).

Definition broadcast_chunk_meta (fileId : string) (index total : nat)
    : Message :=
  Control (JObj [("type", JStr "fileChunk");
                 ("data", JObj [("fileId", JStr fileId);
                                ("chunkIndex", num index);
                                ("totalChunks", num total)])]).

Definition broadcast_complete (fileId : string) : Message :=
  Control (JObj [("type", JStr "fileComplete");
                 ("data", JObj [("fileId", JStr fileId)])]).

Definition broadcast_messages (fileId : string) (f : File) : list Message :=
  let chunkCount := chunkCount (file_size f) in
  broadcast_start fileId f
  :: flat_map
       (fun i =>
          [broadcast_chunk_meta fileId i chunkCount;
           Raw (payload_slice (file_bytes f) i)])
       (seq 0 chunkCount)
  ++ [broadcast_complete fileId].

(** *** The send sequence, as frames on the wire

    The same sequences with each control frame as the text the managers
    print for it ([fileStart_text], [chunkStart_text], ...), to feed a
    receiver with. *)
Definition pair_rounds (f : File) (chunkCount i n : nat) : list Frame :=
  flat_map
    (fun j =>
       [FText (WebRTCManager.chunkStart_text
                 j (length (payload_slice (file_bytes f) j)) chunkCount);
        FBinary (payload_slice (file_bytes f) j)])
    (seq i n).

Definition pair_sequence (f : File) : list Frame :=
  let chunkCount := chunk_count (file_size f) in
  FText (WebRTCManager.fileStart_text f chunkCount)
  :: pair_rounds f chunkCount 0 chunkCount
  ++ [FText WebRTCManager.fileComplete_text].

Definition broadcast_round (fileId : string) (f : File)
    (chunkCount j : nat) : list Frame :=
  [FText (ChatWebRTCManager.fileChunk_text fileId j chunkCount);
   FBinary (payload_slice (file_bytes f) j)].

Definition broadcast_rounds (fileId : string) (f : File)
    (chunkCount i n : nat) : list Frame :=
  flat_map (broadcast_round fileId f chunkCount) (seq i n).

Definition broadcast_sequence (fileId : string) (f : File) : list Frame :=
  let chunkCount := chunk_count (file_size f) in
  FText (ChatWebRTCManager.fileStart_text fileId f chunkCount)
  :: broadcast_rounds fileId f chunkCount 0 chunkCount
  ++ [FText (ChatWebRTCManager.fileComplete_text fileId)].

End Spec.

(** ** Scenarios

    States and frames the examples below run the managers on. *)

Section Scenarios.

Local Open Scope string_scope.

(** *** The pair manager *)

(** A sender whose transport is open and accepts every message. *)
Definition connected_sender : WebRTCManager.t :=
  state (WebRTCManager.on_connect
           (state (WebRTCManager.createPeer [] (WebRTCManager.new true)))).

(** A sender whose transport is open and accepts two messages; the third
    send throws. *)
Definition flaky_sender : WebRTCManager.t :=
  state (WebRTCManager.on_connect
           (state (WebRTCManager.createPeer [false; false; true]
                     (WebRTCManager.new true)))).

(** A text file of one byte, the digit 7. *)
Definition digit_file : File :=
  {| file_name := "seven.txt"; file_type := "text/plain";
     file_bytes := ["7"%byte] |}.

(** A file of three bytes, which do not read as JSON. *)
Definition plain_file : File :=
  {| file_name := "abc.txt"; file_type := "text/plain";
     file_bytes := ["a"%byte; "b"%byte; "c"%byte] |}.

(** The start frame of a file of 655360 bytes, 40 chunks. *)
Definition fileStart_a_bin : string :=
  Eval cbv beta iota delta [Stringify.lit Stringify.dq] in
  Stringify.lit
    "{'type':'fileStart','data':{'name':'a.bin','size':655360,'type':'','chunks':40}}".

(** A receiver that was told of a file of 40 chunks and holds 22 of
    them. *)
Definition receiver_22_of_40 : WebRTCManager.t :=
  state (WebRTCManager.receive
           (deliver (FText fileStart_a_bin) :: replicate 22 [x00%byte])
           (WebRTCManager.new false)).

(** The start frame of a file whose chunk count is no number but an
    object with the one member [toString]. *)
Definition fileStart_odd : string :=
  Eval cbv beta iota delta [Stringify.lit Stringify.dq] in
  Stringify.lit "{'type':'fileStart','data':{'chunks':{'toString':0}}}".

(** A receiver that was sent that frame. *)
Definition odd_receiver : WebRTCManager.t :=
  state (WebRTCManager.handleReceivedData (deliver (FText fileStart_odd))
           (WebRTCManager.new false)).

(** *** The broadcast manager *)

Import ChatWebRTCManager.

Definition fresh_host : t := new true None.

(** The host after one [createOffer], which drew the id [s1]. *)
Definition pending_host : t := state (createOffer "s1" [] fresh_host).

(** The answer of the subscriber the offer [s1] went to. *)
Definition answer_s1 : ChatSignalData :=
  {| sig_type := answer; signal := "sdp"; sig_subscriberId := Some "s1";
     sig_subscriberName := Some "bob" |}.

(** An answer that names an id the host never drew, and no name. *)
Definition nameless_answer : ChatSignalData :=
  {| sig_type := answer; signal := "sdp"; sig_subscriberId := Some "s9";
     sig_subscriberName := None |}.

Definition open_peer (faults : list bool) : Peer :=
  Peer_connect (Peer_new faults).

Definition member (id name : string) : string * Subscriber :=
  (id, {| sub_id := id; sub_name := name; sub_connected := true;
          joinedAt := 0 |}).

(** A host with three subscribers: the transports of [s1] and [s2] are
    open, and the next send on that of [s1] throws; that of [s3] is still
    connecting. *)
Definition host_of_three : t :=
  {| isHost := true;
     peers := [("s1", open_peer [true]); ("s2", open_peer []);
               ("s3", Peer_new [])];
     subscribers := [member "s1" "ann"; member "s2" "bob";
                     member "s3" "cy"];
     hostPeer := None; subscriberId := ""; subscriberName := "";
     fileTransfers := [] |}.

(** The offer [createOffer] resolved with on [pending_host]. *)
Definition offer_s1 : ChatSignalData :=
  {| sig_type := offer; signal := "sdp"; sig_subscriberId := Some "s1";
     sig_subscriberName := None |}.

(** A subscriber that answered that offer, once its transport is open. *)
Definition joined_subscriber : t :=
  let s := state (createAnswer offer_s1 [] None (new false (Some "bob"))) in
  set_hostPeer (Peer_connect <$> hostPeer s) s.

(** The frames of two transfers, each announced with two chunks, as they
    reach a subscriber when the host has two [sendFile] calls in flight:
    the frames of [A] and of [B] alternate. (The chunks are kept short;
    the receiver never looks at their length.) *)
Definition chunk_A0 : Data := ["A"%byte; "0"%byte].
Definition chunk_A1 : Data := ["A"%byte; "1"%byte].
Definition chunk_B0 : Data := ["B"%byte; "0"%byte].
Definition chunk_B1 : Data := ["B"%byte; "1"%byte].

Definition file_A : File :=
  {| file_name := "a.bin"; file_type := "";
     file_bytes := chunk_A0 ++ chunk_A1 |}.

Definition file_B : File :=
  {| file_name := "b.bin"; file_type := "";
     file_bytes := chunk_B0 ++ chunk_B1 |}.

Definition overlapping_frames : list Frame :=
  [FText (fileStart_text "A" file_A 2);
   FText (fileStart_text "B" file_B 2);
   FText (fileChunk_text "A" 0 2); FBinary chunk_A0;
   FText (fileChunk_text "B" 0 2); FBinary chunk_B0;
   FText (fileChunk_text "A" 1 2); FBinary chunk_A1;
   FText (fileChunk_text "B" 1 2); FBinary chunk_B1;
   FText (fileComplete_text "A");
   FText (fileComplete_text "B")].

(** The start frame of a transfer whose total is no number but an object
    with the one member [toString], and that of a transfer whose name is
    such an object. *)
Definition fileStart_odd_total : string :=
  Eval cbv beta iota delta [Stringify.lit Stringify.dq] in
  Stringify.lit
    "{'type':'fileStart','data':{'fileId':'Z','fileName':'z.bin','fileSize':1,'fileType':'','totalChunks':{'toString':0}}}".

Definition fileStart_odd_name : string :=
  Eval cbv beta iota delta [Stringify.lit Stringify.dq] in
  Stringify.lit
    "{'type':'fileStart','data':{'fileId':'Z','fileName':{'toString':0},'fileSize':1,'fileType':'','totalChunks':1}}".

(** A subscriber in the middle of these transfers: the two start frames
    and the first chunk have arrived. *)
Definition receiving_subscriber : t :=
  state (receive (deliver <$> take 4 overlapping_frames) 0
           joined_subscriber).

End Scenarios.

(** * Properties *)

(** ** Values *)

Lemma truthy_get_prop (v : jsval) (k : string) :
  truthy v = true -> exists w, get_prop v k = Some w.
Proof.
  destruct v; simpl; intros Hv; try discriminate; eauto.
Qed.

Lemma get_prop_not_null (v : jsval) (k k' : string) (w : jsval) :
  get_prop v k = Some w -> exists w', get_prop v k' = Some w'.
Proof.
  destruct v; simpl; intros Hv; try discriminate; eauto.
Qed.

(** ** Methods *)

Section MonadFacts.

Context {Ev S A B : Type}.

Lemma bind_get (k : S -> M Ev S B) (s : S) : bind get k s = k s s.
Proof. unfold bind, get. by destruct (k s s) as [[r s'] t]. Qed.

Lemma bind_ret (a : A) (k : A -> M Ev S B) (s : S) : bind (ret a) k s = k a s.
Proof. unfold bind, ret. by destruct (k a s) as [[r s'] t]. Qed.

Lemma bind_modify (f : S -> S) (k : unit -> M Ev S B) (s : S) :
  bind (modify f) k s = k tt (f s).
Proof. unfold bind, modify. by destruct (k tt (f s)) as [[r s'] t]. Qed.

Lemma bind_put (s' : S) (k : unit -> M Ev S B) (s : S) :
  bind (put s') k s = k tt s'.
Proof. unfold bind, put. by destruct (k tt s') as [[r s''] t]. Qed.

Lemma bind_throw (e : Error) (k : A -> M Ev S B) (s : S) :
  bind (throw e) k s = (Throw e, s, []).
Proof. reflexivity. Qed.

End MonadFacts.

(** ** Conversions *)

Lemma ToNumber_None (v : jsval) :
  ToNumber v = None <-> stringifiable v = false.
Proof.
  destruct v; try (split; discriminate); unfold ToNumber;
    match goal with |- context [stringifiable ?v] =>
      destruct (stringifiable v) end;
    split; congruence.
Qed.

Lemma ToNumber_Some (v : jsval) :
  stringifiable v = true -> exists x, ToNumber v = Some x.
Proof.
  intros Hv. destruct (ToNumber v) as [x|] eqn:Hx; [eauto|].
  apply ToNumber_None in Hx. congruence.
Qed.

Lemma interpolate_one {Ev S : Type} (v : jsval) (s : S) :
  interpolate (Ev := Ev) [v] s
  = if stringifiable v then (Ok tt, s, []) else (Throw TypeError, s, []).
Proof.
  unfold interpolate. cbn [forallb]. rewrite andb_true_r.
  destruct (stringifiable v); reflexivity.
Qed.

Lemma bind_interpolate {Ev S B : Type} (vs : list jsval)
    (k : unit -> M Ev S B) (s : S) :
  bind (interpolate vs) k s
  = if forallb stringifiable vs then k tt s else (Throw TypeError, s, []).
Proof.
  unfold bind, interpolate.
  destruct (forallb stringifiable vs); [|reflexivity].
  unfold ret. by destruct (k tt s) as [[r s'] t].
Qed.

(** ** The pair manager: receiving *)

Section PairReceive.

Import WebRTCManager.

(** What [handleBinaryChunk] does once metadata is recorded: the chunk is
    stored, and then the chunk count is converted. *)
Lemma handleBinaryChunk_run (data : Data) (s : t) :
  truthy (fileData s) = true ->
  exists total,
    get_prop (fileData s) "chunks" = Some total /\
    handleBinaryChunk data s =
      match ToNumber total with
      | Some divisor =>
          (Ok tt,
           set_receive (<[expectedChunkIndex s := data]> (receivedChunks s))
                       (S (expectedChunkIndex s)) s,
           [onProgress
              {| sent :=
                   size (<[expectedChunkIndex s := data]> (receivedChunks s));
                 total := total;
                 percentage :=
                   percent
                     (Num.of_nat
                        (size (<[expectedChunkIndex s := data]>
                                 (receivedChunks s))))
                     divisor;
                 speed := 0 |}])
      | None =>
          (Throw TypeError,
           set_receive (<[expectedChunkIndex s := data]> (receivedChunks s))
                       (S (expectedChunkIndex s)) s,
           [])
      end.
Proof.
  intros Hfd.
  destruct (truthy_get_prop _ "chunks" Hfd) as [total Htotal].
  exists total. split; [exact Htotal|].
  unfold handleBinaryChunk. rewrite bind_get, Hfd. cbn [negb].
  rewrite bind_put, Htotal. cbn [lift]. rewrite bind_ret.
  unfold bind at 1. rewrite interpolate_one.
  destruct (stringifiable total) eqn:Hs.
  - destruct (ToNumber_Some total Hs) as [x ->]. reflexivity.
  - rewrite (proj2 (ToNumber_None total) Hs). reflexivity.
Qed.

(** [handleBinaryChunk] throws nothing but the [TypeError] of a chunk
    count that cannot be converted. *)
Lemma handleBinaryChunk_result (data : Data) (s : t) :
  result (handleBinaryChunk data s) = Ok tt \/
  (result (handleBinaryChunk data s) = Throw TypeError /\
   truthy (fileData s) = true /\
   exists total,
     get_prop (fileData s) "chunks" = Some total /\
     stringifiable total = false).
Proof.
  destruct (truthy (fileData s)) eqn:Hfd.
  - destruct (handleBinaryChunk_run data s Hfd) as (total & Htotal & ->).
    destruct (ToNumber total) as [x|] eqn:Hx; [left; reflexivity|].
    right. split; [reflexivity|]. split; [reflexivity|].
    exists total. split; [exact Htotal|]. apply ToNumber_None, Hx.
  - left. unfold handleBinaryChunk. rewrite bind_get, Hfd. reflexivity.
Qed.

(** [assembleFile], case by case. *)
Lemma assembleFile_run (s : t) :
  assembleFile s =
    if truthy (fileData s) then
      match get_prop (fileData s) "chunks", get_prop (fileData s) "name",
            get_prop (fileData s) "type" with
      | Some expected, Some name, Some type =>
          if strict_eq_num (Num.of_nat (size (receivedChunks s))) expected
          then
            match collect (receivedChunks s) 0 (size (receivedChunks s)) with
            | Some chunks =>
                if stringifiable type && stringifiable name then
                  (Ok tt, s,
                   [onFileReceived
                      {| name := name; type := type;
                         bytes := concat chunks |}])
                else
                  (Ok tt, s, [console Err "WebRTC: Error assembling file:"])
            | None => (Ok tt, s, [console Err "WebRTC: Missing chunk"])
            end
          else if stringifiable expected then
            (Ok tt, s,
             [console Err "WebRTC: Cannot assemble file: expected chunks"])
          else (Throw TypeError, s, [])
      | _, _, _ => (Throw TypeError, s, [])
      end
    else (Ok tt, s, [console Err "WebRTC: Cannot assemble file: no metadata"]).
Proof.
  unfold assembleFile. rewrite bind_get.
  destruct (truthy (fileData s)) eqn:Hfd; cbn [negb]; [|reflexivity].
  destruct (truthy_get_prop _ "chunks" Hfd) as [c Hc].
  destruct (truthy_get_prop _ "name" Hfd) as [n Hn].
  destruct (truthy_get_prop _ "type" Hfd) as [ty Hty].
  rewrite Hc, Hn, Hty. cbn [lift]. rewrite bind_ret.
  destruct (strict_eq_num _ c); cbn [negb].
  - destruct (collect _ _ _); [|reflexivity].
    unfold try_catch. rewrite bind_ret.
    unfold bind at 1. rewrite interpolate_one.
    destruct (stringifiable ty); [|reflexivity].
    rewrite bind_ret. unfold bind at 1. rewrite interpolate_one.
    destruct (stringifiable n); reflexivity.
  - unfold bind. rewrite interpolate_one.
    destruct (stringifiable c); reflexivity.
Qed.

(** [assembleFile] leaves the manager as it is. It throws nothing but the
    [TypeError] of a chunk count that cannot be converted, and then it has
    logged nothing. *)
Lemma assembleFile_result (s : t) :
  state (assembleFile s) = s /\
  (result (assembleFile s) = Ok tt \/
   (assembleFile s = (Throw TypeError, s, []) /\
    truthy (fileData s) = true /\
    exists total,
      get_prop (fileData s) "chunks" = Some total /\
      stringifiable total = false)).
Proof.
  rewrite assembleFile_run.
  destruct (truthy (fileData s)) eqn:Hfd; [|auto].
  destruct (truthy_get_prop _ "chunks" Hfd) as [c Hc].
  destruct (truthy_get_prop _ "name" Hfd) as [n Hn].
  destruct (truthy_get_prop _ "type" Hfd) as [ty Hty].
  rewrite Hc, Hn, Hty.
  destruct (strict_eq_num _ c).
  - destruct (collect _ _ _); [|auto].
    destruct (stringifiable ty && stringifiable n); auto.
  - destruct (stringifiable c) eqn:Hs; [auto|].
    split; [reflexivity|]. right. split; [reflexivity|].
    split; [reflexivity|]. eauto.
Qed.

End PairReceive.

Lemma collect_Some (m : gmap nat Data) (n i : nat) :
  (forall j, i <= j < i + n -> is_Some (m !! j)) ->
  collect m i n = Some (chunks_in_order m i n).
Proof.
  revert i. induction n as [|n IH]; intros i Hall; [reflexivity|].
  simpl. destruct (Hall i ltac:(lia)) as [c Hc]. rewrite Hc.
  rewrite IH by (intros j Hj; apply Hall; lia).
  unfold chunks_in_order. simpl. rewrite Hc. reflexivity.
Qed.

Lemma collect_None (m : gmap nat Data) (n i : nat) :
  collect m i n = None <-> exists j, i <= j < i + n /\ m !! j = None.
Proof.
  revert i. induction n as [|n IH]; intros i; simpl.
  - split; [discriminate|]. intros (j & Hj & _). lia.
  - destruct (m !! i) as [c|] eqn:Hc.
    + destruct (collect m (S i) n) as [l|] eqn:Hl; simpl.
      * split; [discriminate|]. intros (j & Hj & Hnone).
        assert (Hex : exists j, S i <= j < S i + n /\ m !! j = None).
        { exists j. split; [|exact Hnone].
          destruct (decide (j = i)) as [->|]; [congruence|lia]. }
        apply IH in Hex. congruence.
      * split; [|reflexivity]. intros _.
        destruct (proj1 (IH (S i)) Hl) as (j & Hj & Hnone).
        exists j. split; [lia|exact Hnone].
    + split; [|reflexivity]. intros _. exists i. split; [lia|exact Hc].
Qed.

Lemma collect_inv (m : gmap nat Data) (n i : nat) (l : list Data) :
  collect m i n = Some l ->
  (forall j, i <= j < i + n -> is_Some (m !! j)) /\ l = chunks_in_order m i n.
Proof.
  intros Hl.
  assert (Hall : forall j, i <= j < i + n -> is_Some (m !! j)).
  { intros j Hj. destruct (m !! j) eqn:Hm; [eauto|].
    assert (collect m i n = None) by (apply collect_None; eauto).
    congruence. }
  split; [exact Hall|]. rewrite (collect_Some _ _ _ Hall) in Hl. congruence.
Qed.

(** A map that holds exactly the keys below [n] has [n] entries. *)
Lemma size_below (m : gmap nat Data) (n : nat) :
  (forall j, is_Some (m !! j) <-> j < n) -> size m = n.
Proof.
  intros Hm.
  assert (Hdom : dom m = (set_seq 0 n : gset nat)).
  { apply set_eq. intros j. rewrite elem_of_dom, elem_of_set_seq, Hm. lia. }
  rewrite <- size_dom, Hdom. apply size_set_seq.
Qed.

Section PairReceiveClaims.

Import WebRTCManager.
Local Open Scope string_scope.

Lemma in_step_fresh (initiator : bool) : in_step (new initiator).
Proof.
  intros j. simpl. rewrite lookup_empty. split; [intros []; discriminate|lia].
Qed.

Lemma in_step_insert (data : Data) (s : t) :
  in_step s ->
  in_step (set_receive (<[expectedChunkIndex s := data]> (receivedChunks s))
                       (S (expectedChunkIndex s)) s).
Proof.
  intros Hs j. simpl.
  destruct (decide (expectedChunkIndex s = j)) as [<-|Hne].
  - rewrite lookup_insert_eq. split; [lia|eauto].
  - rewrite lookup_insert_ne by exact Hne. rewrite (Hs j). lia.
Qed.

Lemma handleReceivedData_binary (data : Data) (s : t) :
  JSON.parse (toString data) = None \/ JSON.parse (toString data) = Some JNull ->
  handleReceivedData data s =
    if truthy (fileData s) then handleBinaryChunk data s
    else (Ok tt, s, [no_metadata_warning]).
Proof.
  intros Hparse.
  unfold handleReceivedData, try_catch, bind, lift, get, emit, throw, ret.
  destruct Hparse as [-> | ->]; simpl.
  - destruct (truthy (fileData s)); [|reflexivity].
    destruct (handleBinaryChunk data s) as [[r s'] t]. reflexivity.
  - destruct (truthy (fileData s)); [|reflexivity].
    destruct (handleBinaryChunk data s) as [[r s'] t]. reflexivity.
Qed.

(** The six ways [handleReceivedData] can go. A fileComplete frame on
    which [assembleFile] throws is handed to [handleBinaryChunk] by the
    [catch], like a frame that is no JSON text. *)
Lemma handleReceivedData_cases (data : Data) (s : t) :
  (exists d,
     handleReceivedData data s
       = (Ok tt, set_receive ∅ 0 (set_fileData d s), [])) \/
  handleReceivedData data s = (Ok tt, s, []) \/
  (result (assembleFile s) = Ok tt /\
   handleReceivedData data s = assembleFile s) \/
  handleReceivedData data s
    = (Ok tt, s, [console Warn "WebRTC: Unknown message type:"]) \/
  (truthy (fileData s) = true /\
   handleReceivedData data s = handleBinaryChunk data s) \/
  handleReceivedData data s = (Ok tt, s, [no_metadata_warning]).
Proof.
  remember (handleReceivedData data s) as run eqn:Hrun.
  unfold handleReceivedData, try_catch in Hrun.
  unfold bind at 1 in Hrun. unfold lift at 1 in Hrun.
  destruct (JSON.parse (toString data)) as [message|]; simpl in Hrun.
  - unfold bind at 1 in Hrun. unfold lift at 1 in Hrun.
    destruct (get_prop message "type") as [type|] eqn:Htype; simpl in Hrun.
    + destruct (is_str type "fileStart").
      { destruct (get_prop_not_null _ _ "data" _ Htype) as [d Hd].
        rewrite Hd in Hrun. left. exists d. exact Hrun. }
      destruct (is_str type "chunkStart"); [right; left; exact Hrun|].
      destruct (is_str type "fileComplete").
      * destruct (assembleFile_result s) as [_ [Hok|(Hthrow & Hfd & _)]].
        -- right; right; left. split; [exact Hok|]. rewrite Hrun.
           destruct (assembleFile s) as [[r s'] t].
           cbv [result] in Hok. simpl in Hok. subst r. reflexivity.
        -- right; right; right; right; left. split; [exact Hfd|].
           rewrite Hthrow in Hrun. unfold bind, get in Hrun.
           simpl in Hrun. rewrite Hfd in Hrun. rewrite Hrun.
           destruct (handleBinaryChunk data s) as [[r s'] t]. reflexivity.
      * right; right; right; left. exact Hrun.
    + unfold bind, get in Hrun. simpl in Hrun.
      destruct (truthy (fileData s)).
      * right; right; right; right; left. split; [reflexivity|].
        rewrite Hrun.
        destruct (handleBinaryChunk data s) as [[r s'] t]. reflexivity.
      * right; right; right; right; right. exact Hrun.
  - unfold bind, get in Hrun. simpl in Hrun.
    destruct (truthy (fileData s)).
    + right; right; right; right; left. split; [reflexivity|].
      rewrite Hrun.
      destruct (handleBinaryChunk data s) as [[r s'] t]. reflexivity.
    + right; right; right; right; right. exact Hrun.
Qed.

(** C10, as amended. The inbound-data handler of the pair manager throws
    nothing but a [TypeError], and that only while the chunk count of the
    recorded metadata is a value that cannot be converted to a string (an
    object with a member [toString], an array that holds one): with no
    metadata recorded, or with a chunk count that converts, it returns
    for any inbound bytes. A frame that is not JSON text, arriving while
    no file metadata is recorded, is answered with one warning and
    nothing else: the manager (metadata, received chunks, next index and
    all) is as before, no progress and no file callback fires. *)
Theorem handleReceivedData_total (data : Data) (s : t) :
  let r := handleReceivedData data s in
  (result r = Ok tt \/
   result r = Throw TypeError /\
   truthy (fileData s) = true /\
   exists total,
     get_prop (fileData s) "chunks" = Some total /\
     stringifiable total = false) /\
  (truthy (fileData s) = false -> result r = Ok tt) /\
  (forall total,
     get_prop (fileData s) "chunks" = Some total ->
     stringifiable total = true -> result r = Ok tt) /\
  (JSON.parse (toString data) = None ->
   truthy (fileData s) = false ->
   state r = s /\ trace r = [no_metadata_warning]).
Proof.
  intros r.
  assert (result r = Ok tt \/
          result r = Throw TypeError /\
          truthy (fileData s) = true /\
          exists total,
            get_prop (fileData s) "chunks" = Some total /\
            stringifiable total = false) as Hresult.
  { subst r.
    destruct (handleReceivedData_cases data s)
      as [[d ->]|[->|[[Hok ->]|[->|[[Hfd ->]| ->]]]]]; auto.
    apply handleBinaryChunk_result. }
  split; [exact Hresult|]. split; [|split].
  - intros Hfd. destruct Hresult as [Hok|(_ & Hfd' & _)]; congruence.
  - intros total Htotal Hs.
    destruct Hresult as [Hok|(_ & _ & total' & Htotal' & Hs')];
      [exact Hok|congruence].
  - intros Hparse Hfd. subst r.
    rewrite (handleReceivedData_binary data s (or_introl Hparse)), Hfd.
    split; reflexivity.
Qed.

(** C6, as amended. Every frame that is not JSON text (or reads as
    [null]), received while file metadata is recorded, is stored under the
    current [expectedChunkIndex] (arrival order), whatever a chunkStart
    frame declared: such a frame changes nothing. The index then goes up
    by one. Next the chunk count of the metadata is converted to a number:
    if that works, one progress notification carries the number of chunks
    held and the percentage [Math.round((held / fileData.chunks) * 100)],
    the quotient taken first, in binary64; if not, the handler throws a
    [TypeError] with the chunk stored and no notification. When the
    receive state is in step the number held is the new index, and the
    state stays in step. *)
Theorem handleBinaryChunk_arrival_order (data : Data) (s : t) :
  binary_like data ->
  truthy (fileData s) = true ->
  let i := expectedChunkIndex s in
  let r := handleReceivedData data s in
  let held := size (receivedChunks (state r)) in
  receivedChunks (state r) = <[i := data]> (receivedChunks s) /\
  receivedChunks (state r) !! i = Some data /\
  expectedChunkIndex (state r) = S i /\
  fileData (state r) = fileData s /\
  (exists total,
     get_prop (fileData s) "chunks" = Some total /\
     match ToNumber total with
     | Some divisor =>
         result r = Ok tt /\
         trace r =
           [onProgress
              {| sent := held; total := total;
                 percentage :=
                   Num.round (Num.mul (Num.div (Num.of_nat held) divisor)
                                      (Num.of_nat 100));
                 speed := 0 |}]
     | None => result r = Throw TypeError /\ trace r = []
     end) /\
  (in_step s -> held = S i /\ in_step (state r)) /\
  (forall meta message,
     JSON.parse (toString meta) = Some message ->
     get_prop message "type" = Some (JStr "chunkStart") ->
     handleReceivedData meta s = (Ok tt, s, [])).
Proof.
  intros Hbin Hfd i r held.
  destruct (handleBinaryChunk_run data s Hfd) as (total & Htotal & Hrun).
  assert (state r
          = set_receive (<[i := data]> (receivedChunks s)) (S i) s) as Hstate.
  { subst r. rewrite (handleReceivedData_binary data s Hbin), Hfd, Hrun.
    destruct (ToNumber total); reflexivity. }
  subst held. rewrite Hstate. cbn [receivedChunks expectedChunkIndex fileData
                                    set_receive].
  split; [reflexivity|]. split; [apply lookup_insert_eq|].
  split; [reflexivity|]. split; [reflexivity|].
  split; [|split].
  - exists total. split; [exact Htotal|].
    subst r. rewrite (handleReceivedData_binary data s Hbin), Hfd, Hrun.
    destruct (ToNumber total); split; reflexivity.
  - intros Hstep. split.
    + apply size_below. apply (in_step_insert data s Hstep).
    + apply (in_step_insert data s Hstep).
  - intros meta message Hparse Htype.
    unfold handleReceivedData, try_catch, bind, lift, ret.
    rewrite Hparse. simpl. rewrite Htype. reflexivity.
Qed.

(** C7, the pair manager. [assembleFile] changes no state. It hands over
    a file only when metadata is recorded, its chunk count is a number
    equal to the number of chunks held, and every index below that number
    is in the map (and exactly when, besides, the name and the type of
    the metadata can be converted to strings, as [new File] and
    [new Blob] do); the file is then the only event, and its bytes are all
    those chunks in index order. In every other case it logs or throws,
    and no file is handed over. *)
Lemma assembleFile_guard (s : t) :
  let r := assembleFile s in
  let held := size (receivedChunks s) in
  state r = s /\
  ((exists f, In (onFileReceived f) (trace r)) <->
   truthy (fileData s) = true /\
   (exists c, get_prop (fileData s) "chunks" = Some (JNum c) /\
              Num.eqb (Num.of_nat held) c = true) /\
   (forall j, j < held -> is_Some (receivedChunks s !! j)) /\
   (exists n ty,
      get_prop (fileData s) "name" = Some n /\
      get_prop (fileData s) "type" = Some ty /\
      stringifiable n = true /\ stringifiable ty = true)) /\
  (forall f, In (onFileReceived f) (trace r) ->
     result r = Ok tt /\
     trace r = [onFileReceived f] /\
     Some (name f) = get_prop (fileData s) "name" /\
     Some (type f) = get_prop (fileData s) "type" /\
     bytes f = concat (chunks_in_order (receivedChunks s) 0 held)) /\
  (result r = Ok tt \/ result r = Throw TypeError /\ trace r = []).
Proof.
  intros r held. subst r held.
  rewrite assembleFile_run.
  destruct (truthy (fileData s)) eqn:Hfd.
  2:{ split; [reflexivity|]. split; [|split; [|auto]].
      - split.
        + intros (f & [Hf|[]]). discriminate.
        + intros (Hf & _). discriminate.
      - intros f [Hf|[]]. discriminate. }
  destruct (truthy_get_prop _ "chunks" Hfd) as [c Hc]. rewrite Hc.
  destruct (truthy_get_prop _ "name" Hfd) as [n Hn].
  destruct (truthy_get_prop _ "type" Hfd) as [ty Hty].
  rewrite Hn, Hty.
  destruct (strict_eq_num _ c) eqn:Heq.
  2:{ assert (forall c', Some c = Some (JNum c') ->
                Num.eqb (Num.of_nat (size (receivedChunks s))) c' = true ->
                False) as Hne.
      { intros c' Hc' Heq'. injection Hc' as ->. simpl in Heq. congruence. }
      destruct (stringifiable c).
      - split; [reflexivity|]. split; [|split; [|auto]].
        + split.
          * intros (f & [Hf|[]]). discriminate.
          * intros (_ & (c' & Hc' & Heq') & _). destruct (Hne c' Hc' Heq').
        + intros f [Hf|[]]. discriminate.
      - split; [reflexivity|]. split; [|split; [|auto]].
        + split.
          * intros (f & []).
          * intros (_ & (c' & Hc' & Heq') & _). destruct (Hne c' Hc' Heq').
        + intros f []. }
  destruct (collect (receivedChunks s) 0 (size (receivedChunks s)))
    as [chunks|] eqn:Hcollect.
  2:{ split; [reflexivity|]. split; [|split; [|auto]].
      - split.
        + intros (f & [Hf|[]]). discriminate.
        + intros (_ & _ & Hall & _).
          apply collect_None in Hcollect as (j & Hj & Hnone).
          destruct (Hall j ltac:(lia)) as [x Hx]. congruence.
      - intros f [Hf|[]]. discriminate. }
  apply collect_inv in Hcollect as [Hall ->].
  destruct (stringifiable ty) eqn:Hsty, (stringifiable n) eqn:Hsn;
    cbn [andb].
  - split; [reflexivity|]. split; [|split; [|auto]].
    + split; [|intros _; eexists; left; reflexivity].
      intros _. split; [reflexivity|]. split; [|split].
      * destruct c; simpl in Heq; try discriminate; eauto.
      * intros j Hj. apply Hall. lia.
      * exists n, ty. auto.
    + intros f [Hf|[]]. injection Hf as <-. simpl. repeat split.
  - split; [reflexivity|]. split; [|split; [|auto]].
    + split.
      * intros (f & [Hf|[]]). discriminate.
      * intros (_ & _ & _ & n' & ty' & Hn' & Hty' & Hsn' & Hsty').
        congruence.
    + intros f [Hf|[]]. discriminate.
  - split; [reflexivity|]. split; [|split; [|auto]].
    + split.
      * intros (f & [Hf|[]]). discriminate.
      * intros (_ & _ & _ & n' & ty' & Hn' & Hty' & Hsn' & Hsty').
        congruence.
    + intros f [Hf|[]]. discriminate.
  - split; [reflexivity|]. split; [|split; [|auto]].
    + split.
      * intros (f & [Hf|[]]). discriminate.
      * intros (_ & _ & _ & n' & ty' & Hn' & Hty' & Hsn' & Hsty').
        congruence.
    + intros f [Hf|[]]. discriminate.
Qed.

End PairReceiveClaims.

Section PairReceiveExamples.

Import WebRTCManager.
Local Open Scope string_scope.

(** C6, the claim as stated fails: the 23rd of 40 chunks is reported as
    57 percent, where round(100 * 23 / 40) = round(57.5) is 58. *)
Lemma percentage_23_of_40 :
  percentage <$> (head (trace (handleReceivedData [x01%byte]
                                 receiver_22_of_40))
                    ≫= progress_of)
    = Some (Num.of_nat 57) /\
  Spec.percentage 23 40 = Num.of_nat 58 /\
  Num.eqb (Num.of_nat 57) (Spec.percentage 23 40) = false.
Proof. vm_compute. repeat split. Qed.

Lemma handleBinaryChunk_arrival_order_witness :
  binary_like [x01%byte] /\
  truthy (fileData receiver_22_of_40) = true /\
  expectedChunkIndex
    (state (handleReceivedData [x01%byte] receiver_22_of_40)) = 23.
Proof.
  split; [left; reflexivity|]. split; [reflexivity|].
  destruct (handleBinaryChunk_arrival_order [x01%byte] receiver_22_of_40
              (or_introl eq_refl) eq_refl) as (_ & _ & Hindex & _).
  exact Hindex.
Defined.

(** C10, the claim as stated fails: once a start frame has announced a
    chunk count that cannot be converted, here the object with the one
    member [toString], the next frame that is no JSON text is stored and
    the handler then throws a [TypeError]. *)
Lemma handleReceivedData_throws :
  JSON.parse fileStart_odd
    = Some (JObj [("type", JStr "fileStart");
                  ("data",
                   JObj [("chunks",
                          JObj [("toString", JNum (Num.of_nat 0))])])]) /\
  result (handleReceivedData (deliver (FText fileStart_odd)) (new false))
    = Ok tt /\
  result (handleReceivedData [x01%byte] odd_receiver) = Throw TypeError /\
  receivedChunks (state (handleReceivedData [x01%byte] odd_receiver)) !! 0
    = Some [x01%byte].
Proof. vm_compute. repeat split. Qed.

End PairReceiveExamples.

(** ** Chunking *)

Lemma CHUNK_SIZE_pos : 0 < CHUNK_SIZE.
Proof. apply Nat.ltb_lt. vm_compute. reflexivity. Qed.

(** [chunk_count] is the ceiling of [size / CHUNK_SIZE]. *)
Lemma chunk_count_ceil (size : nat) : Spec.is_ceil size (chunk_count size).
Proof.
  pose proof CHUNK_SIZE_pos as Hpos.
  unfold Spec.is_ceil, chunk_count.
  pose proof (Nat.div_mod_eq size CHUNK_SIZE) as Hdm.
  pose proof (Nat.mod_upper_bound size CHUNK_SIZE ltac:(lia)) as Hlt.
  destruct (Nat.eqb_spec (size mod CHUNK_SIZE) 0) as [Hz|Hnz].
  - split; [nia|]. intros m Hm. nia.
  - split; [nia|]. intros m Hm.
    destruct (Nat.le_gt_cases (size / CHUNK_SIZE + 1) m); [lia|nia].
Qed.

Lemma chunk_count_0 : chunk_count 0 = 0.
Proof. reflexivity. Qed.

(** The chunk size of the code is that of the specification. *)
Lemma chunkSize_CHUNK_SIZE : Spec.chunkSize = CHUNK_SIZE.
Proof. reflexivity. Qed.

(** [chunk_count] is the specification's [ceil(s/c)]. *)
Lemma chunkCount_chunk_count (size : nat) :
  Spec.chunkCount size = chunk_count size.
Proof.
  pose proof CHUNK_SIZE_pos as Hpos.
  unfold Spec.chunkCount, chunk_count. rewrite chunkSize_CHUNK_SIZE.
  pose proof (Nat.div_mod_eq size CHUNK_SIZE) as Hdm.
  pose proof (Nat.mod_upper_bound size CHUNK_SIZE ltac:(lia)) as Hlt.
  destruct (Nat.eqb_spec (size mod CHUNK_SIZE) 0) as [Hz|Hnz].
  - symmetry. apply (Nat.div_unique _ _ _ (CHUNK_SIZE - 1)); lia.
  - symmetry. apply (Nat.div_unique _ _ _ (size mod CHUNK_SIZE - 1)); lia.
Qed.

Lemma chunk_of_payload_slice (f : File) (i : nat) :
  WebRTCManager.chunk_of f i = Spec.payload_slice (file_bytes f) i.
Proof.
  unfold WebRTCManager.chunk_of, slice, Spec.payload_slice, file_size.
  rewrite chunkSize_CHUNK_SIZE. f_equal. f_equal. lia.
Qed.

Lemma chat_chunk_of_payload_slice (f : File) (i : nat) :
  ChatWebRTCManager.chunk_of f i = Spec.payload_slice (file_bytes f) i.
Proof.
  unfold ChatWebRTCManager.chunk_of, slice, Spec.payload_slice, file_size.
  rewrite chunkSize_CHUNK_SIZE. f_equal. f_equal. lia.
Qed.

Lemma payload_slice_length (payload : list byte) (i : nat) :
  length (Spec.payload_slice payload i) =
  Nat.min ((i + 1) * CHUNK_SIZE) (length payload) - i * CHUNK_SIZE.
Proof.
  unfold Spec.payload_slice. rewrite chunkSize_CHUNK_SIZE.
  rewrite length_take, length_drop. lia.
Qed.

Lemma take_add_app (l : list byte) (a b : nat) :
  take (a + b) l = take a l ++ take b (drop a l).
Proof.
  revert l. induction a as [|a IH]; intros l; [reflexivity|].
  destruct l as [|x l]; [by rewrite !take_nil, drop_nil, take_nil|].
  cbn [Nat.add take drop app]. by rewrite IH.
Qed.

Lemma take_min_length (l : list byte) (k : nat) :
  take (Nat.min k (length l)) l = take k l.
Proof.
  destruct (Nat.le_gt_cases k (length l)) as [Hk|Hk].
  - by rewrite Nat.min_l.
  - rewrite Nat.min_r by lia. by rewrite !take_ge by lia.
Qed.

Lemma payload_slice_take_drop (payload : list byte) (i : nat) :
  Spec.payload_slice payload i = take CHUNK_SIZE (drop (i * CHUNK_SIZE) payload).
Proof.
  unfold Spec.payload_slice. rewrite chunkSize_CHUNK_SIZE.
  rewrite <- (take_min_length (drop _ _) CHUNK_SIZE), length_drop.
  f_equal. lia.
Qed.

(** The slices below [n], one after the other, are the payload up to
    [n * CHUNK_SIZE]. *)
Lemma payload_slices_take (payload : list byte) (n : nat) :
  concat (Spec.payload_slice payload <$> seq 0 n) = take (n * CHUNK_SIZE) payload.
Proof.
  induction n as [|n IH]; [reflexivity|].
  rewrite seq_S, fmap_app, concat_app, IH.
  cbn [Nat.add fmap list_fmap concat]. rewrite app_nil_r.
  rewrite payload_slice_take_drop, <- take_add_app.
  f_equal. lia.
Qed.

(** Splitting then joining is the identity. *)
Lemma payload_slices_join (payload : list byte) :
  concat (Spec.payload_slice payload <$> seq 0 (chunk_count (length payload)))
  = payload.
Proof.
  rewrite payload_slices_take. apply take_ge.
  apply (chunk_count_ceil (length payload)).
Qed.

(** ** The transport *)

Lemma Peer_send_reliable (p : Peer) (f : Frame) :
  reliable p ->
  exists p',
    Peer_send p f = (Ok tt, p') /\
    calls p' = calls p ++ accepted [f] /\
    connected p' = connected p /\ destroyed p' = destroyed p /\ reliable p'.
Proof.
  unfold reliable, Peer_send. intros Hrel.
  destruct (faults p) as [|b later].
  - eexists. split; [reflexivity|]. simpl. auto.
  - inversion Hrel as [|? ? Hb Hlater]; subst.
    eexists. split; [reflexivity|]. simpl. auto.
Qed.

(** Whatever the channel does, a send call adds one entry to [calls] and
    leaves the flags of the peer alone. *)
Lemma Peer_send_any (p : Peer) (f : Frame) :
  exists ok,
    calls (snd (Peer_send p f)) = calls p ++ [(f, ok)] /\
    connected (snd (Peer_send p f)) = connected p /\
    destroyed (snd (Peer_send p f)) = destroyed p.
Proof.
  unfold Peer_send. destruct (faults p) as [|[] later]; simpl; eauto.
Qed.

Lemma outbox_app (p' p : Peer) (fs : list Frame) :
  calls p' = calls p ++ accepted fs -> outbox p' = outbox p ++ fs.
Proof.
  intros Hcalls. unfold outbox. rewrite Hcalls, filter_app, map_app. f_equal.
  clear Hcalls. unfold accepted. induction fs as [|x xs IH]; [reflexivity|].
  cbn [map]. rewrite filter_cons_True; [|reflexivity].
  cbn [map fst]. by rewrite IH.
Qed.

(** ** The pair manager: sending *)

Section PairSend.

Import WebRTCManager.

Lemma send_reliable (f : Frame) (s : t) (p : Peer) :
  peer s = Some p -> reliable p ->
  exists p',
    send f s = (Ok tt, set_peer (Some p') s, []) /\
    calls p' = calls p ++ accepted [f] /\
    connected p' = connected p /\ reliable p'.
Proof.
  intros Hp Hrel.
  destruct (Peer_send_reliable p f Hrel) as (p' & Hsend & Hc & Hcon & _ & Hrel').
  exists p'. split; [|auto].
  unfold send, bind, get, put, ret. rewrite Hp, Hsend. reflexivity.
Qed.

Lemma send_chunks_reliable (f : File) (chunks todo i : nat) (s : t) (p : Peer) :
  peer s = Some p -> reliable p ->
  exists p' t,
    send_chunks f chunks i todo s = (Ok tt, set_peer (Some p') s, t) /\
    calls p' = calls p ++ accepted (Spec.pair_rounds f chunks i todo) /\
    connected p' = connected p /\ reliable p'.
Proof.
  revert i s p. induction todo as [|todo IH]; intros i s p Hp Hrel.
  - exists p, []. split.
    + simpl. unfold ret. destruct s; simpl in *; subst; reflexivity.
    + unfold Spec.pair_rounds, accepted. simpl. rewrite app_nil_r. auto.
  - cbn [send_chunks]. rewrite chunk_of_payload_slice.
    destruct (send_reliable (FText (chunkStart_text i
                (length (Spec.payload_slice (file_bytes f) i)) chunks)) s p Hp Hrel)
      as (p1 & Hs1 & Hc1 & Hcon1 & Hrel1).
    destruct (send_reliable (FBinary (Spec.payload_slice (file_bytes f) i))
                (set_peer (Some p1) s) p1 eq_refl Hrel1)
      as (p2 & Hs2 & Hc2 & Hcon2 & Hrel2).
    destruct (IH (S i) (set_peer (Some p2) (set_peer (Some p1) s)) p2
                eq_refl Hrel2) as (p3 & t3 & Hs3 & Hc3 & Hcon3 & Hrel3).
    exists p3. eexists. split.
    + unfold bind at 1. rewrite Hs1.
      unfold bind at 1. rewrite Hs2.
      unfold bind at 1. unfold emit at 1.
      rewrite Hs3. reflexivity.
    + split; [|split; [congruence|exact Hrel3]].
      rewrite Hc3, Hc2, Hc1. unfold Spec.pair_rounds, accepted.
      cbn [seq flat_map]. rewrite !map_app, <- !app_assoc. reflexivity.
Qed.

(** The pair manager's [sendFile] on a connected peer whose channel
    accepts every message: it returns, and the send calls it made are
    exactly the specified sequence, in order. *)
Lemma sendFile_sequence (f : File) (s : t) (p : Peer) :
  peer s = Some p -> connected p = true -> reliable p ->
  result (sendFile f s) = Ok tt /\
  exists p',
    peer (state (sendFile f s)) = Some p' /\
    calls p' = calls p ++ accepted (Spec.pair_sequence f) /\
    outbox p' = outbox p ++ Spec.pair_sequence f.
Proof.
  intros Hp Hcon Hrel.
  set (chunks := chunk_count (file_size f)).
  set (s0 := set_fileData (fileData_of f chunks) s).
  destruct (send_reliable (FText (fileStart_text f chunks)) s0 p Hp Hrel)
    as (p1 & Hs1 & Hc1 & Hcon1 & Hrel1).
  destruct (send_chunks_reliable f chunks chunks 0 (set_peer (Some p1) s0) p1
              eq_refl Hrel1) as (p2 & t2 & Hs2 & Hc2 & Hcon2 & Hrel2).
  destruct (send_reliable (FText fileComplete_text)
              (set_peer (Some p2) (set_peer (Some p1) s0)) p2 eq_refl Hrel2)
    as (p3 & Hs3 & Hc3 & Hcon3 & Hrel3).
  assert (Hrun : exists t, sendFile f s =
            (Ok tt, set_peer (Some p3)
                      (set_peer (Some p2) (set_peer (Some p1) s0)), t)).
  { eexists. unfold sendFile. unfold bind at 1. unfold get at 1.
    rewrite Hp. cbn [from_option]. rewrite Hcon. cbn [negb].
    unfold bind at 1. unfold modify at 1. fold chunks. fold s0.
    unfold try_catch. unfold bind at 1. rewrite Hs1.
    unfold bind at 1. rewrite Hs2. rewrite Hs3. reflexivity. }
  destruct Hrun as [t Hrun]. rewrite Hrun.
  split; [reflexivity|]. exists p3. split; [reflexivity|].
  assert (Hcalls : calls p3 = calls p ++ accepted (Spec.pair_sequence f)).
  { rewrite Hc3, Hc2, Hc1. unfold Spec.pair_sequence, accepted. fold chunks.
    cbn [map app]. rewrite !map_app, <- !app_assoc. reflexivity. }
  split; [exact Hcalls|].
  rewrite (outbox_app p3 p _ Hcalls). reflexivity.
Qed.

End PairSend.

(** ** [JSON.parse] reads back what [JSON.stringify] wrote *)

Section JSONFacts.

Import JSON.
Local Open Scope string_scope.

Lemma run_app (s1 s2 : string) (st : pstate) :
  run st (s1 ++ s2) = run (run st s1) s2.
Proof.
  revert st. induction s1 as [|c s1 IH]; intros st; [reflexivity|].
  simpl. apply IH.
Qed.

(** One escaped character is read back as one unit that stands for it. *)
Lemma run_escape (c : ascii) (iskey : bool) (acc : list sunit)
    (stack : list frame) :
  exists u,
    run (MStr iskey acc SPlain, stack) (Stringify.escape c)
      = (MStr iskey (u :: acc) SPlain, stack) /\
    forall us, bytes_of_units (u :: us) = c :: bytes_of_units us.
Proof.
  destruct c as [[] [] [] [] [] [] [] []];
    (eexists; split; [reflexivity|];
     intros [|[] us]; reflexivity).
Qed.

Lemma run_escape_all (s : string) (iskey : bool) (acc : list sunit)
    (stack : list frame) :
  exists us,
    run (MStr iskey acc SPlain, stack) (Stringify.escape_all s)
      = (MStr iskey (us ++ acc)%list SPlain, stack) /\
    forall tail,
      bytes_of_units (rev us ++ tail)%list
      = (list_ascii_of_string s ++ bytes_of_units tail)%list.
Proof.
  revert acc. induction s as [|c s IH]; intros acc.
  - exists []. split; reflexivity.
  - destruct (run_escape c iskey acc stack) as (u & Hu & Hbytes).
    destruct (IH (u :: acc)) as (us & Hus & Hall).
    exists (us ++ [u])%list. split.
    + cbn [Stringify.escape_all]. rewrite run_app, Hu, Hus.
      by rewrite <- app_assoc.
    + intros tail. rewrite rev_app_distr. cbn [rev app].
      rewrite Hbytes, Hall. reflexivity.
Qed.

(** A quoted string, where a value is expected, is read back as that
    string. *)
Lemma run_quote_value (s rest : string) (stack : list frame) :
  run (MValue, stack) (Stringify.quote s ++ rest)
  = run (complete (JStr s) stack) rest.
Proof.
  destruct (run_escape_all s false [] stack) as (us & Hus & Hbytes).
  rewrite run_app. f_equal. unfold Stringify.quote.
  change (run (MValue, stack)
            (String Stringify.dq "" ++ Stringify.escape_all s
             ++ String Stringify.dq ""))
    with (run (MStr false [] SPlain, stack)
              (Stringify.escape_all s ++ String Stringify.dq "")).
  rewrite run_app, Hus, app_nil_r.
  change (run (MStr false us SPlain, stack) (String Stringify.dq ""))
    with (complete (JStr (string_of_units us)) stack).
  unfold string_of_units.
  specialize (Hbytes []). rewrite app_nil_r in Hbytes. rewrite Hbytes.
  cbn [bytes_of_units]. rewrite app_nil_r, string_of_list_ascii_of_string.
  reflexivity.
Qed.

Lemma num_value_nat (n : nat) (st : numst) :
  num_value (num_start false (N.of_nat n) st) = Num.of_nat n.
Proof.
  unfold num_value, num_start, Num.of_nat, Num.of_Z, Num.of_decimal.
  cbn [n_neg n_mant n_frac n_eneg n_exp].
  rewrite <- nat_N_Z. destruct (N.of_nat n) as [|p]; [reflexivity|].
  cbn [Z.of_N Z.sub Z.opp Z.add Z.leb Z.compare cond_Zopp].
  change (10 ^ 0)%Z with 1%Z. rewrite Z.mul_1_r. reflexivity.
Qed.

(** The digits after the first. *)
Lemma run_digits (d : Decimal.uint) (neg : bool) (m : nat)
    (stack : list frame) :
  run (MNum (num_start neg (N.of_nat m) NInt), stack)
      (NilEmpty.string_of_uint d)
  = (MNum (num_start neg (N.of_nat (Nat.of_uint_acc d m)) NInt), stack).
Proof.
  assert (Hstep : forall k c, digit c = Some k -> forall m : N,
            step (MNum (num_start neg m NInt), stack) c
            = (MNum (num_start neg (m * 10 + k)%N NInt), stack)).
  { intros k c Hk m'. unfold step, num_step. cbn [n_st num_start].
    rewrite Hk. reflexivity. }
  revert m.
  induction d as [|d IH|d IH|d IH|d IH|d IH|d IH|d IH|d IH|d IH|d IH];
    intros m; [reflexivity|..];
    cbn [NilEmpty.string_of_uint Nat.of_uint_acc run];
    match goal with
    | |- run (step _ ?c) _ = _ =>
        let r := eval vm_compute in (digit c) in
        match r with
        | Some ?k => rewrite (Hstep k c eq_refl)
        end
    end;
    match goal with
    | |- run (MNum (num_start _ ?y _), _) _
         = (MNum (num_start _ (N.of_nat (Nat.of_uint_acc _ ?x)) _), _) =>
        replace y with (N.of_nat x) by (rewrite Nat.tail_mul_spec; lia);
        apply IH
    end.
Qed.

(** A printed integer is read back as that integer; the literal is still
    open when the digits end. *)
Lemma run_dec (n : nat) (stack : list frame) :
  exists st,
    run (MValue, stack) (Stringify.dec n)
      = (MNum (num_start false (N.of_nat n) st), stack) /\
    (st = NZero \/ st = NInt).
Proof.
  unfold Stringify.dec.
  pose proof (DecimalNat.Unsigned.of_to n) as Hof.
  pose proof (DecimalNat.Unsigned.to_of (Nat.to_uint n)) as Hto.
  rewrite Hof in Hto.
  destruct (Nat.to_uint n) as [|d|d|d|d|d|d|d|d|d|d] eqn:Hd.
  - exfalso. symmetry in Hto. revert Hto. apply DecimalFacts.unorm_nonnil.
  - assert (d = Decimal.Nil) as ->.
    { unfold Decimal.unorm in Hto. cbn [Decimal.nzhead] in Hto.
      destruct (Decimal.nzhead d) eqn:Hnz; try congruence.
      all: exfalso; symmetry in Hto; rewrite Hto in Hnz;
        revert Hnz; apply DecimalFacts.nzhead_nonzero. }
    exists NZero. split; [|auto]. cbn in Hof. subst n. reflexivity.
  - exists NInt. split; [|auto]. rewrite <- Hof.
    cbn [NilEmpty.string_of_uint run]. apply (run_digits d false 1).
  - exists NInt. split; [|auto]. rewrite <- Hof.
    cbn [NilEmpty.string_of_uint run]. apply (run_digits d false 2).
  - exists NInt. split; [|auto]. rewrite <- Hof.
    cbn [NilEmpty.string_of_uint run]. apply (run_digits d false 3).
  - exists NInt. split; [|auto]. rewrite <- Hof.
    cbn [NilEmpty.string_of_uint run]. apply (run_digits d false 4).
  - exists NInt. split; [|auto]. rewrite <- Hof.
    cbn [NilEmpty.string_of_uint run]. apply (run_digits d false 5).
  - exists NInt. split; [|auto]. rewrite <- Hof.
    cbn [NilEmpty.string_of_uint run]. apply (run_digits d false 6).
  - exists NInt. split; [|auto]. rewrite <- Hof.
    cbn [NilEmpty.string_of_uint run]. apply (run_digits d false 7).
  - exists NInt. split; [|auto]. rewrite <- Hof.
    cbn [NilEmpty.string_of_uint run]. apply (run_digits d false 8).
  - exists NInt. split; [|auto]. rewrite <- Hof.
    cbn [NilEmpty.string_of_uint run]. apply (run_digits d false 9).
Qed.

(** A printed integer as the value of an object member, followed by the
    comma or brace that ends it. *)
Lemma run_dec_member (n : nat) (c : ascii) (rest : string)
    (done : list (string * jsval)) (k : string) (stack : list frame) :
  c = ","%char \/ c = "}"%char ->
  run (MValue, FObj done (Some k) :: stack) (Stringify.dec n ++ String c rest)
  = run (after_value c (FObj ((k, JNum (Num.of_nat n)) :: done) None :: stack))
        rest.
Proof.
  intros Hc.
  destruct (run_dec n (FObj done (Some k) :: stack)) as (st & Hrun & Hst).
  rewrite run_app, Hrun. cbn [run]. f_equal.
  rewrite <- (num_value_nat n st).
  destruct Hst as [-> | ->], Hc as [-> | ->]; reflexivity.
Qed.

Lemma run_dec_member_app (n : nat) (c : ascii) (lit rest : string)
    (done : list (string * jsval)) (k : string) (stack : list frame) :
  c = ","%char \/ c = "}"%char ->
  run (MValue, FObj done (Some k) :: stack)
      (Stringify.dec n ++ String c lit ++ rest)
  = run (after_value c (FObj ((k, JNum (Num.of_nat n)) :: done) None :: stack))
        (lit ++ rest).
Proof. apply (run_dec_member n c (lit ++ rest)). Qed.

(** Read the literal text that comes next. *)
Ltac literal :=
  rewrite run_app;
  match goal with
  | |- context [run (run ?st ?lit) ?rest] =>
      let r := eval simpl in (run st lit) in
      change (run st lit) with r
  end.

Ltac quoted := rewrite run_quote_value; cbn [complete].

Ltac integer :=
  first [ rewrite run_dec_member_app by auto
        | rewrite run_dec_member by auto ];
  cbn [after_value complete rev app].

Lemma parse_pair_fileStart (f : File) (chunks : nat) :
  parse (WebRTCManager.fileStart_text f chunks)
  = Some (JObj [("type", JStr "fileStart");
                ("data", WebRTCManager.fileData_of f chunks)]).
Proof.
  unfold parse, WebRTCManager.fileStart_text, WebRTCManager.fileData_of.
  literal. quoted. literal. integer. literal. quoted. literal. integer.
  reflexivity.
Qed.

Lemma parse_pair_chunkStart (index size total : nat) :
  parse (WebRTCManager.chunkStart_text index size total)
  = Some (JObj [("type", JStr "chunkStart");
                ("data", JObj [("index", JNum (Num.of_nat index));
                               ("size", JNum (Num.of_nat size));
                               ("total", JNum (Num.of_nat total))])]).
Proof.
  unfold parse, WebRTCManager.chunkStart_text.
  literal. integer. literal. integer. literal. integer.
  reflexivity.
Qed.

Lemma parse_pair_fileComplete :
  parse WebRTCManager.fileComplete_text
  = Some (JObj [("type", JStr "fileComplete")]).
Proof. reflexivity. Qed.

Lemma toString_deliver_text (text : string) :
  toString (deliver (FText text)) = text.
Proof. apply string_of_list_byte_of_string. Qed.

End JSONFacts.

(** ** Numbers *)

Section NumFacts.

Local Open Scope Z_scope.

Lemma shr_1_nonneg (mrs : shr_record) :
  0 <= shr_m mrs -> 0 <= shr_m (shr_1 mrs).
Proof.
  destruct mrs as [m r s]. simpl.
  destruct m as [|[p|p|]|[p|p|]]; simpl; lia.
Qed.

Lemma iter_shr_1_nonneg (p : positive) (mrs : shr_record) :
  0 <= shr_m mrs -> 0 <= shr_m (SpecFloat.iter_pos shr_1 p mrs).
Proof.
  revert mrs. induction p as [p IH|p IH|]; intros mrs Hm; simpl.
  - apply IH, IH, shr_1_nonneg, Hm.
  - apply IH, IH, Hm.
  - apply shr_1_nonneg, Hm.
Qed.

Lemma shr_fexp_nonneg (m e : Z) (l : location) :
  0 <= m -> 0 <= shr_m (fst (shr_fexp Num.prec Num.emax m e l)).
Proof.
  intros Hm. unfold shr_fexp, shr.
  assert (H0 : 0 <= shr_m (shr_record_of_loc m l)).
  { destruct l as [|[]]; exact Hm. }
  destruct (fexp Num.prec Num.emax (Zdigits2 m + e) - e); simpl;
    [exact H0|apply iter_shr_1_nonneg, H0|exact H0].
Qed.

Lemma round_nearest_even_nonneg (m : Z) (l : location) :
  0 <= m -> 0 <= round_nearest_even m l.
Proof.
  intros Hm. destruct l as [|[]]; simpl; try lia.
  destruct (Z.even m); lia.
Qed.

Lemma binary_round_aux_not_nan (sx : bool) (mx ex : Z) (lx : location) :
  0 <= mx -> binary_round_aux Num.prec Num.emax sx mx ex lx <> S754_nan.
Proof.
  intros Hm. unfold binary_round_aux.
  pose proof (shr_fexp_nonneg mx ex lx Hm) as H1.
  destruct (shr_fexp Num.prec Num.emax mx ex lx) as [mrs' e'].
  simpl in H1.
  pose proof (shr_fexp_nonneg _ e' loc_Exact
                (round_nearest_even_nonneg _ (loc_of_shr_record mrs') H1)) as H2.
  destruct (shr_fexp Num.prec Num.emax _ e' loc_Exact) as [mrs'' e''].
  simpl in H2.
  destruct (shr_m mrs'') as [|p|p]; [discriminate| |lia].
  destruct (e'' <=? Num.emax - Num.prec); discriminate.
Qed.

Lemma of_Z_not_nan (z : Z) : Num.of_Z z <> S754_nan.
Proof.
  unfold Num.of_Z, binary_normalize.
  destruct z as [|p|p]; [discriminate|..]; unfold binary_round;
    destruct (shl_align _ _ _) as [mz ez];
    apply binary_round_aux_not_nan; lia.
Qed.

Lemma eqb_refl (x : number) : x <> S754_nan -> Num.eqb x x = true.
Proof.
  intros Hx. unfold Num.eqb, SFeqb, SFcompare.
  destruct x as [[]|[]| |[] m e]; try reflexivity; try congruence;
    rewrite Z.compare_refl, Pos.compare_cont_refl; reflexivity.
Qed.

Lemma of_nat_eqb (n : nat) : Num.eqb (Num.of_nat n) (Num.of_nat n) = true.
Proof. apply eqb_refl, of_Z_not_nan. Qed.

End NumFacts.

(** ** The pair protocol, end to end *)

Section PairRoundTrip.

Import WebRTCManager.
Local Open Scope string_scope.

Lemma receive_app (xs ys : list Data) (s : t) :
  receive (xs ++ ys)%list s =
  match receive xs s with
  | (Ok _, s', t) =>
      let '(r, s'', t') := receive ys s' in (r, s'', (t ++ t')%list)
  | (Throw e, s', t) => (Throw e, s', t)
  end.
Proof.
  revert s. induction xs as [|x xs IH]; intros s.
  - simpl. unfold ret. destruct (receive ys s) as [[r s'] t]. reflexivity.
  - cbn [app receive]. unfold bind at 1 2.
    destruct (handleReceivedData x s) as [[[[]|e] s1] t1]; [|reflexivity].
    rewrite IH. destruct (receive xs s1) as [[[[]|e] s2] t2]; [|reflexivity].
    destruct (receive ys s2) as [[r s3] t3]. by rewrite app_assoc.
Qed.

Lemma receive_fileStart (f : File) (chunks : nat) (s : t) :
  handleReceivedData (deliver (FText (fileStart_text f chunks))) s =
  (Ok tt, set_receive ∅ 0 (set_fileData (fileData_of f chunks) s), []).
Proof.
  unfold handleReceivedData, try_catch, bind, lift, ret, modify.
  rewrite toString_deliver_text, parse_pair_fileStart. reflexivity.
Qed.

Lemma receive_chunkStart (index size total : nat) (s : t) :
  handleReceivedData (deliver (FText (chunkStart_text index size total))) s =
  (Ok tt, s, []).
Proof.
  unfold handleReceivedData, try_catch, bind, lift, ret.
  rewrite toString_deliver_text, parse_pair_chunkStart. reflexivity.
Qed.

Lemma receive_fileComplete (s : t) :
  result (assembleFile s) = Ok tt ->
  handleReceivedData (deliver (FText fileComplete_text)) s = assembleFile s.
Proof.
  intros Hok.
  unfold handleReceivedData, try_catch, bind, lift, ret.
  rewrite toString_deliver_text, parse_pair_fileComplete.
  cbn [get_prop lookup_member is_str String.eqb Ascii.eqb Bool.eqb].
  destruct (assembleFile s) as [[r s'] t]. cbv [result] in Hok. simpl in Hok.
  subst r. simpl. reflexivity.
Qed.

(** The rounds [i], ..., [i + todo - 1] of a transfer, received in
    order by a manager in step at index [i]: each slice lands under its
    own index, and no file is handed over yet. *)
Lemma receive_rounds (f : File) (chunks todo i : nat) (s : t) :
  fileData s = fileData_of f chunks -> in_step s -> expectedChunkIndex s = i ->
  (forall j, i <= j < i + todo ->
     binary_like (Spec.payload_slice (file_bytes f) j)) ->
  exists s' t,
    receive (deliver <$> Spec.pair_rounds f chunks i todo) s = (Ok tt, s', t) /\
    fileData s' = fileData s /\ in_step s' /\
    expectedChunkIndex s' = i + todo /\
    (forall j, j < i -> receivedChunks s' !! j = receivedChunks s !! j) /\
    (forall j, i <= j < i + todo ->
       receivedChunks s' !! j = Some (Spec.payload_slice (file_bytes f) j)) /\
    omap file_of t = [] /\ peer s' = peer s.
Proof.
  revert i s. induction todo as [|todo IH]; intros i s Hmeta Hstep Hi Hbin.
  - exists s, []. simpl. unfold ret.
    split; [reflexivity|]. split; [reflexivity|]. split; [exact Hstep|].
    split; [lia|]. split; [reflexivity|]. split; [lia|]. split; reflexivity.
  - assert (truthy (fileData s) = true) as Hfd by (rewrite Hmeta; reflexivity).
    unfold Spec.pair_rounds.
    cbn [seq flat_map app fmap list_fmap receive].
    unfold bind at 1. rewrite receive_chunkStart. cbv beta iota.
    cbn [deliver]. unfold bind at 1.
    rewrite (handleReceivedData_binary _ s (Hbin i ltac:(lia))), Hfd.
    destruct (handleBinaryChunk_run (Spec.payload_slice (file_bytes f) i) s Hfd)
      as (total & Htotal & ->).
    rewrite Hmeta in Htotal. injection Htotal as <-. cbn [ToNumber].
    rewrite Hi.
    set (s1 := set_receive _ _ s).
    destruct (IH (S i) s1)
      as (s' & t & Hrun & Hfd' & Hstep' & Hi' & Hlow & Hnew & Hfiles & Hpeer).
    + exact Hmeta.
    + subst s1. rewrite <- Hi. apply in_step_insert, Hstep.
    + reflexivity.
    + intros j Hj. apply Hbin. lia.
    + fold (Spec.pair_rounds f chunks (S i) todo). rewrite Hrun.
      eexists s', _. split; [reflexivity|].
      split; [exact Hfd'|]. split; [exact Hstep'|].
      split; [lia|]. split; [|split; [|split]].
      * intros j Hj. rewrite Hlow by lia. subst s1. simpl.
        apply lookup_insert_ne. lia.
      * intros j Hj. destruct (decide (j = i)) as [->|Hne].
        -- rewrite Hlow by lia. subst s1. simpl. apply lookup_insert_eq.
        -- apply Hnew. lia.
      * simpl. exact Hfiles.
      * rewrite Hpeer. reflexivity.
Qed.

(** [assembleFile] once every slice has arrived. *)
Lemma assembleFile_complete (f : File) (chunks : nat) (s : t) :
  fileData s = fileData_of f chunks -> in_step s ->
  expectedChunkIndex s = chunks ->
  (forall j, j < chunks ->
     receivedChunks s !! j = Some (Spec.payload_slice (file_bytes f) j)) ->
  assembleFile s =
    (Ok tt, s,
     [onFileReceived
        {| name := JStr (file_name f); type := JStr (file_type f);
           bytes := concat (Spec.payload_slice (file_bytes f) <$> seq 0 chunks)
        |}]).
Proof.
  intros Hfd Hstep Hi Hall.
  pose proof (size_below _ _ Hstep) as Hsize. rewrite Hi in Hsize.
  rewrite assembleFile_run, Hfd, Hsize.
  change (truthy (fileData_of f chunks)) with true.
  change (get_prop (fileData_of f chunks) "chunks")
    with (Some (JNum (Num.of_nat chunks))).
  change (get_prop (fileData_of f chunks) "name")
    with (Some (JStr (file_name f))).
  change (get_prop (fileData_of f chunks) "type")
    with (Some (JStr (file_type f))).
  cbn [strict_eq_num stringifiable andb]. rewrite of_nat_eqb.
  rewrite (collect_Some (receivedChunks s) chunks 0)
    by (intros j Hj; rewrite Hall by lia; eauto).
  do 5 f_equal. unfold chunks_in_order.
  apply list_fmap_ext. intros k j Hj. apply lookup_seq in Hj as [-> Hlt].
  rewrite Hall by lia. reflexivity.
Qed.

Lemma pair_sequence_received (f : File) (s0 : t) :
  (forall j, j < chunk_count (file_size f) ->
     binary_like (Spec.payload_slice (file_bytes f) j)) ->
  exists s t,
    receive (deliver <$> Spec.pair_sequence f) s0 =
      (Ok tt, s,
       (t ++ [onFileReceived
                {| name := JStr (file_name f); type := JStr (file_type f);
                   bytes := file_bytes f |}])%list) /\
    omap file_of t = [] /\
    peer s = peer s0 /\
    assembleFile s =
      (Ok tt, s,
       [onFileReceived
          {| name := JStr (file_name f); type := JStr (file_type f);
             bytes := file_bytes f |}]).
Proof.
  intros Hbin. rename s0 into s00.
  set (chunks := chunk_count (file_size f)) in *.
  unfold Spec.pair_sequence. fold chunks.
  cbn [fmap list_fmap receive]. unfold bind at 1.
  rewrite receive_fileStart. cbv beta iota.
  set (s0 := set_receive ∅ 0 (set_fileData (fileData_of f chunks) s00)).
  rewrite fmap_app, receive_app.
  destruct (receive_rounds f chunks chunks 0 s0) as
    (s' & t & Hrun & Hfd & Hstep & Hi & _ & Hnew & Hfiles & Hpeer).
  { reflexivity. }
  { intros j. simpl. rewrite lookup_empty. split; [intros []; discriminate|lia]. }
  { reflexivity. }
  { intros j Hj. apply Hbin. lia. }
  rewrite Hrun. cbn [fmap list_fmap receive]. unfold bind at 1.
  pose proof (assembleFile_complete f chunks s' Hfd Hstep Hi) as Hasm.
  assert (concat (Spec.payload_slice (file_bytes f) <$> seq 0 chunks)
          = file_bytes f) as Hjoin.
  { subst chunks. unfold file_size. apply payload_slices_join. }
  rewrite Hjoin in Hasm.
  specialize (Hasm ltac:(intros j Hj; apply Hnew; lia)).
  rewrite receive_fileComplete by (rewrite Hasm; reflexivity).
  rewrite Hasm.
  exists s', t. split; [|split; [exact Hfiles|split; [exact Hpeer|]]].
  - unfold ret. cbn [app]. rewrite ?app_nil_r. reflexivity.
  - exact Hasm.
Qed.

(** The pair protocol round trip: when no slice of the payload is itself
    JSON text (other than [null]), the frames of [sendFile], delivered
    in order to a new manager, make it hand over one file with the name,
    type and bytes of the original. *)
Theorem pair_round_trip (f : File) :
  (forall j, j < chunk_count (file_size f) ->
     binary_like (Spec.payload_slice (file_bytes f) j)) ->
  let r := receive (deliver <$> Spec.pair_sequence f) (new false) in
  result r = Ok tt /\
  omap file_of (trace r) =
    [{| name := JStr (file_name f); type := JStr (file_type f);
        bytes := file_bytes f |}].
Proof.
  intros Hbin.
  destruct (pair_sequence_received f (new false) Hbin)
    as (s & t & -> & Hfiles & _).
  split; [reflexivity|].
  unfold trace. cbn [snd]. rewrite omap_app, Hfiles. reflexivity.
Qed.

End PairRoundTrip.

(** ** [Map] with string keys *)

Section MapFacts.

Context {V : Type}.
Implicit Types (m : list (string * V)) (k : string).

Lemma Map_get_set_eq m k (v : V) :
  Map_get String.eqb k (Map_set String.eqb k v m) = Some v.
Proof.
  induction m as [|[k' v'] m IH]; simpl.
  - by rewrite String.eqb_refl.
  - destruct (String.eqb k k') eqn:Hk; simpl; rewrite Hk; [reflexivity|exact IH].
Qed.

Lemma Map_get_set_ne m k k' (v : V) :
  k <> k' ->
  Map_get String.eqb k' (Map_set String.eqb k v m) = Map_get String.eqb k' m.
Proof.
  intros Hne. induction m as [|[k0 v0] m IH]; simpl.
  - destruct (String.eqb_spec k' k); [congruence|reflexivity].
  - destruct (String.eqb_spec k k0) as [->|Hk]; simpl.
    + destruct (String.eqb_spec k' k0); [congruence|reflexivity].
    + destruct (String.eqb k' k0); [reflexivity|exact IH].
Qed.

Lemma Map_keys_set m k (v v' : V) :
  Map_get String.eqb k m = Some v ->
  Map_keys (Map_set String.eqb k v' m) = Map_keys m.
Proof.
  induction m as [|[k0 v0] m IH]; simpl; [discriminate|].
  destruct (String.eqb k k0); [reflexivity|].
  intros Hm. unfold Map_keys in *. cbn [map fst]. f_equal. by apply IH.
Qed.

Lemma Map_length_set m k (v v' : V) :
  Map_get String.eqb k m = Some v ->
  length (Map_set String.eqb k v' m) = length m.
Proof.
  induction m as [|[k0 v0] m IH]; simpl; [discriminate|].
  destruct (String.eqb k k0); simpl; [reflexivity|].
  intros Hm. by rewrite IH.
Qed.

Lemma Map_get_delete_eq m k :
  NoDup (Map_keys m) -> Map_get String.eqb k (Map_delete String.eqb k m) = None.
Proof.
  induction m as [|[k0 v0] m IH]; simpl; [reflexivity|].
  rewrite NoDup_cons. intros [Hk0 Hnd].
  destruct (String.eqb_spec k k0) as [->|Hk]; simpl.
  - clear IH. induction m as [|[k1 v1] m IH]; simpl; [reflexivity|].
    destruct (String.eqb_spec k0 k1) as [->|Hk1].
    + exfalso. apply Hk0. simpl. left.
    + apply IH.
      * intros Hin. apply Hk0. simpl. by right.
      * simpl in Hnd. by apply NoDup_cons in Hnd as [_ Hnd].
  - destruct (String.eqb_spec k k0); [congruence|]. by apply IH.
Qed.

End MapFacts.

Lemma Map_set_same {V : Type} (m : list (string * V)) (k : string) (v : V) :
  Map_get String.eqb k m = Some v -> Map_set String.eqb k v m = m.
Proof.
  induction m as [|[k0 v0] m IH]; simpl; [discriminate|].
  destruct (String.eqb k k0); [congruence|]. intros Hm. by rewrite IH.
Qed.

Lemma Map_set_set {V : Type} (m : list (string * V)) (k : string) (v v' : V) :
  Map_set String.eqb k v' (Map_set String.eqb k v m) = Map_set String.eqb k v' m.
Proof.
  induction m as [|[k0 v0] m IH]; simpl.
  - by rewrite String.eqb_refl.
  - destruct (String.eqb k k0) eqn:Hk; simpl; rewrite Hk; [reflexivity|].
    by rewrite IH.
Qed.

(** ** The broadcast manager: sending *)

Section ChatSend.

Import ChatWebRTCManager.
Local Open Scope string_scope.

Lemma set_peers_set_peers (ps ps' : list (string * Peer)) (s : t) :
  set_peers ps' (set_peers ps s) = set_peers ps' s.
Proof. reflexivity. Qed.

Lemma set_peers_same (s : t) : set_peers (peers s) s = s.
Proof. by destruct s. Qed.

(** A run of sends on one transport: the calls it adds are a run of the
    frames, all of them when the channel is reliable, one when there is
    one frame; nothing else changes. *)
Lemma send_all_on_spec (id : string) (fs : list Frame) (s : t) (p : Peer) :
  Map_get String.eqb id (peers s) = Some p ->
  exists r p' extra,
    send_all_on id fs s = (r, set_peers (Map_set String.eqb id p' (peers s)) s, []) /\
    calls p' = (calls p ++ extra)%list /\
    connected p' = connected p /\ destroyed p' = destroyed p /\
    (reliable p -> r = Ok tt /\ extra = accepted fs /\ reliable p') /\
    (forall f, fs = [f] -> exists ok, extra = [(f, ok)]).
Proof.
  revert s p. induction fs as [|f fs IH]; intros s p Hp.
  - exists (Ok tt), p, []. simpl. unfold ret.
    split; [|rewrite app_nil_r; repeat split; auto; discriminate].
    by rewrite (Map_set_same _ _ _ Hp), set_peers_same.
  - cbn [send_all_on]. unfold bind at 1. unfold send_on at 1.
    unfold bind at 1. unfold get at 1. rewrite Hp.
    destruct (Peer_send_any p f) as (ok & Hcalls & Hcon & Hdes).
    destruct (Peer_send p f) as [r1 p1] eqn:Hsend. cbn [snd] in *.
    unfold bind at 1. unfold put at 1.
    set (s1 := set_peers (Map_set String.eqb id p1 (peers s)) s).
    destruct r1 as [[]|e].
    + unfold ret at 1. cbv beta iota.
      destruct (IH s1 p1) as (r & p' & extra & Hrun & Hc & Hcon' & Hdes' & Hrel & Hone).
      { subst s1. simpl. apply Map_get_set_eq. }
      rewrite Hrun. exists r, p', ((f, ok) :: extra).
      split; [|split; [|split; [|split; [|split]]]].
      * subst s1. cbn [peers set_peers]. rewrite Map_set_set. reflexivity.
      * rewrite Hc, Hcalls, <- app_assoc. reflexivity.
      * congruence.
      * congruence.
      * intros Hr. destruct (Peer_send_reliable p f Hr) as (q & Hq & Hqc & _ & _ & Hqr).
        rewrite Hsend in Hq. injection Hq as <-.
        destruct (Hrel Hqr) as (-> & -> & Hr').
        split; [reflexivity|]. split; [|exact Hr'].
        unfold accepted in *. cbn [map]. f_equal. f_equal.
        rewrite Hqc in Hcalls. apply app_inv_head in Hcalls.
        unfold accepted in Hcalls. simpl in Hcalls. congruence.
      * intros f' Hf'. injection Hf' as -> ->.
        simpl in Hrun. unfold ret in Hrun.
        assert (extra = []) as ->.
        { injection Hrun as _ Hs. clear -Hc Hs.
          assert (Hp' : p' = p1).
          { apply (f_equal (Map_get String.eqb id)) in Hs.
            rewrite !Map_get_set_eq in Hs. congruence. }
          subst p'. rewrite <- (app_nil_r (calls p1)) in Hc at 1.
          by apply app_inv_head in Hc. }
        eauto.
    + unfold throw at 1. cbv beta iota.
      exists (Throw e), p1, [(f, ok)].
      split; [reflexivity|]. split; [exact Hcalls|].
      split; [exact Hcon|]. split; [exact Hdes|]. split.
      * intros Hr. destruct (Peer_send_reliable p f Hr) as (q & Hq & _).
        rewrite Hsend in Hq. discriminate.
      * intros f' Hf'. injection Hf' as -> ->. eauto.
Qed.

(** One [if (peer && peer.connected) try {...} catch {...}]: either
    nothing is sent, or the transport under [id] gets a run of the frames;
    it never throws and touches no other transport. *)
Lemma try_send_spec (fs : list Frame) (failure id : string) (s : t) :
  (live s id = false /\ try_send fs failure id s = (Ok tt, s, [])) \/
  (exists p p' extra t,
     Map_get String.eqb id (peers s) = Some p /\ connected p = true /\
     try_send fs failure id s =
       (Ok tt, set_peers (Map_set String.eqb id p' (peers s)) s, t) /\
     calls p' = (calls p ++ extra)%list /\
     connected p' = true /\ destroyed p' = destroyed p /\
     (reliable p -> extra = accepted fs /\ reliable p' /\ t = []) /\
     (forall f, fs = [f] -> exists ok, extra = [(f, ok)]) /\
     forallb is_console t = true).
Proof.
  unfold try_send, live, bind, get.
  destruct (Map_get String.eqb id (peers s)) as [p|] eqn:Hp; [|left; auto].
  cbn [from_option]. destruct (connected p) eqn:Hcon; [|left; auto].
  right.
  destruct (send_all_on_spec id fs s p Hp)
    as (r & p' & extra & Hrun & Hc & Hcon' & Hdes' & Hrel & Hone).
  unfold try_catch. rewrite Hrun.
  destruct r as [[]|e].
  - exists p, p', extra, [].
    split; [reflexivity|]. split; [exact Hcon|]. split; [reflexivity|].
    split; [exact Hc|]. split; [congruence|]. split; [exact Hdes'|].
    split; [|split; [exact Hone|reflexivity]].
    intros Hr. destruct (Hrel Hr) as (_ & Hr2 & Hr3). auto.
  - exists p, p', extra, [console Err failure]. unfold emit.
    split; [reflexivity|]. split; [exact Hcon|]. split; [reflexivity|].
    split; [exact Hc|]. split; [congruence|]. split; [exact Hdes'|].
    split; [|split; [exact Hone|reflexivity]].
    intros Hr. destruct (Hrel Hr) as (Hr1 & _ & _). discriminate.
Qed.

Lemma live_set (s : t) (id k : string) (p p' : Peer) :
  Map_get String.eqb id (peers s) = Some p -> connected p' = connected p ->
  live (set_peers (Map_set String.eqb id p' (peers s)) s) k = live s k.
Proof.
  intros Hp Hcon. unfold live. cbn [peers set_peers].
  destruct (String.eqb_spec id k) as [<-|Hne].
  - by rewrite Map_get_set_eq, Hp.
  - by rewrite Map_get_set_ne.
Qed.

Lemma total_calls_set (s : t) (id : string) (p p' : Peer)
    (extra : list (Frame * bool)) :
  Map_get String.eqb id (peers s) = Some p ->
  calls p' = (calls p ++ extra)%list ->
  total_calls (set_peers (Map_set String.eqb id p' (peers s)) s)
  = total_calls s + length extra.
Proof.
  unfold total_calls. cbn [peers set_peers].
  induction (peers s) as [|[k v] m IH]; simpl; [discriminate|].
  destruct (String.eqb id k); intros Hp Hc; simpl.
  - injection Hp as ->. rewrite Hc, length_app. lia.
  - rewrite IH by assumption. lia.
Qed.

(** The fan-out of one frame over a list of targets. *)
Lemma forEach_send_one (f : Frame) (failure : string) (targets : list string)
    (s : t) :
  exists s' t,
    forEach targets (try_send [f] failure) s = (Ok tt, s', t) /\
    s' = set_peers (peers s') s /\
    (forall k, live s' k = live s k) /\
    total_calls s' = total_calls s + length (List.filter (live s) targets) /\
    forallb is_console t = true.
Proof.
  revert s. induction targets as [|id targets IH]; intros s.
  - exists s, []. simpl. unfold ret.
    repeat split; auto. by rewrite set_peers_same.
  - cbn [forEach List.filter]. unfold bind at 1.
    destruct (try_send_spec [f] failure id s)
      as [[Hdead ->] | (p & p' & extra & t & Hp & Hcon & -> & Hc & Hcon' & _ & _ & Hone & Ht)].
    + destruct (IH s) as (s' & t' & -> & Hsame & Hlive & Htotal & Ht').
      exists s', t'. rewrite Hdead. repeat split; auto.
    + set (s1 := set_peers _ s).
      destruct (IH s1) as (s' & t' & -> & Hsame & Hlive & Htotal & Ht').
      destruct (Hone f eq_refl) as [ok ->].
      assert (Hl : forall k, live s1 k = live s k).
      { intros k. apply (live_set s id k p p' Hp). congruence. }
      exists s', (t ++ t')%list. split; [reflexivity|].
      split; [rewrite Hsame at 1; reflexivity|].
      split; [intros k; rewrite Hlive; apply Hl|].
      split.
      * rewrite Htotal. subst s1.
        rewrite (total_calls_set s id p p' _ Hp Hc).
        rewrite (filter_ext (live (set_peers _ s)) (live s)) by (intros k; apply Hl).
        assert (live s id = true) as -> by (unfold live; rewrite Hp; exact Hcon).
        simpl. lia.
      * rewrite forallb_app, Ht, Ht'. reflexivity.
Qed.

(** The fan-out of a run of frames, seen from one reliable, connected
    transport: it gets the whole run when it is a target (once: the
    targets are distinct), and nothing otherwise, whatever happens on the
    other transports. *)
Lemma forEach_try_send_target (fs : list Frame) (failure : string)
    (targets : list string) (s : t) (id : string) (p : Peer) :
  Map_get String.eqb id (peers s) = Some p ->
  connected p = true -> reliable p -> NoDup targets ->
  exists s' t p',
    forEach targets (try_send fs failure) s = (Ok tt, s', t) /\
    s' = set_peers (peers s') s /\
    Map_get String.eqb id (peers s') = Some p' /\
    connected p' = true /\ reliable p' /\
    (id ∈ targets -> calls p' = (calls p ++ accepted fs)%list) /\
    (id ∉ targets -> calls p' = calls p).
Proof.
  revert s p. induction targets as [|k targets IH]; intros s p Hp Hcon Hrel Hnd.
  - exists s, [], p. simpl. unfold ret.
    split; [reflexivity|]. split; [by rewrite set_peers_same|].
    split; [exact Hp|]. split; [exact Hcon|]. split; [exact Hrel|].
    split; [intros Hin; by apply elem_of_nil in Hin|reflexivity].
  - apply NoDup_cons in Hnd as [Hk Hnd]. cbn [forEach]. unfold bind at 1.
    destruct (try_send_spec fs failure k s)
      as [[Hdead ->] | (q & q' & extra & t & Hq & Hqcon & -> & Hc & Hcon' & _ & Hqrel & _ & _)].
    + assert (Hne : k <> id).
      { intros ->. unfold live in Hdead. rewrite Hp in Hdead. simpl in Hdead.
        congruence. }
      destruct (IH s p Hp Hcon Hrel Hnd)
        as (s' & t' & p' & -> & Hsame & Hp' & Hcon'' & Hrel' & Hin & Hout).
      exists s', t', p'. split; [reflexivity|]. split; [exact Hsame|].
      split; [exact Hp'|]. split; [exact Hcon''|]. split; [exact Hrel'|].
      split.
      * intros Hmem. apply elem_of_cons in Hmem as [->|Hmem]; [congruence|auto].
      * intros Hmem. apply Hout. intros Hx. apply Hmem. by right.
    + set (s1 := set_peers _ s).
      destruct (String.eqb_spec k id) as [->|Hne].
      * assert (q = p) as -> by congruence.
        destruct (Hqrel Hrel) as (-> & Hrel' & ->).
        destruct (IH s1 q') as
          (s' & t' & p' & -> & Hsame & Hp' & Hcon'' & Hrel'' & _ & Hout).
        { subst s1. simpl. apply Map_get_set_eq. }
        { exact Hcon'. }
        { exact Hrel'. }
        { exact Hnd. }
        exists s', t', p'. split; [reflexivity|].
        split; [rewrite Hsame at 1; reflexivity|].
        split; [exact Hp'|]. split; [exact Hcon''|]. split; [exact Hrel''|].
        split.
        -- intros _. rewrite (Hout Hk). exact Hc.
        -- intros Hmem. exfalso. apply Hmem. by left.
      * destruct (IH s1 p) as
          (s' & t' & p' & -> & Hsame & Hp' & Hcon'' & Hrel'' & Hin & Hout).
        { subst s1. simpl. rewrite Map_get_set_ne by exact Hne. exact Hp. }
        { exact Hcon. }
        { exact Hrel. }
        { exact Hnd. }
        exists s', (t ++ t')%list, p'. split; [reflexivity|].
        split; [rewrite Hsame at 1; reflexivity|].
        split; [exact Hp'|]. split; [exact Hcon''|]. split; [exact Hrel''|].
        split.
        -- intros Hmem. apply elem_of_cons in Hmem as [->|Hmem]; [congruence|auto].
        -- intros Hmem. apply Hout. intros Hx. apply Hmem. by right.
Qed.

Lemma send_chunks_target (fileId : string) (f : File)
    (targets : list string) (total todo i : nat) (s : t) (id : string)
    (p : Peer) :
  Map_get String.eqb id (peers s) = Some p ->
  connected p = true -> reliable p -> NoDup targets -> id ∈ targets ->
  exists s' t p',
    send_chunks fileId f targets total i todo s = (Ok tt, s', t) /\
    s' = set_peers (peers s') s /\
    Map_get String.eqb id (peers s') = Some p' /\
    connected p' = true /\ reliable p' /\
    calls p' =
      (calls p ++ accepted (Spec.broadcast_rounds fileId f total i todo))%list.
Proof.
  revert i s p. induction todo as [|todo IH]; intros i s p Hp Hcon Hrel Hnd Hin.
  - exists s, [], p. simpl. unfold ret.
    split; [reflexivity|]. split; [by rewrite set_peers_same|].
    split; [exact Hp|]. split; [exact Hcon|]. split; [exact Hrel|].
    unfold Spec.broadcast_rounds, accepted. simpl. by rewrite app_nil_r.
  - cbn [send_chunks]. rewrite chat_chunk_of_payload_slice.
    unfold bind at 1.
    destruct (forEach_try_send_target
                [FText (fileChunk_text fileId i total);
                 FBinary (Spec.payload_slice (file_bytes f) i)]
                "Chat: Failed to send file chunk to subscriber"
                targets s id p Hp Hcon Hrel Hnd)
      as (s1 & t1 & p1 & -> & Hsame1 & Hp1 & Hcon1 & Hrel1 & Hin1 & _).
    unfold bind at 1. unfold emit at 1.
    destruct (IH (S i) s1 p1 Hp1 Hcon1 Hrel1 Hnd Hin)
      as (s' & t' & p' & -> & Hsame & Hp' & Hcon' & Hrel' & Hc').
    exists s'. eexists. exists p'. split; [reflexivity|].
    split; [rewrite Hsame at 1; rewrite Hsame1; reflexivity|].
    split; [exact Hp'|]. split; [exact Hcon'|]. split; [exact Hrel'|].
    rewrite Hc', (Hin1 Hin). unfold Spec.broadcast_rounds, accepted.
    cbn [seq flat_map Spec.broadcast_round]. rewrite !map_app, <- !app_assoc.
    reflexivity.
Qed.

(** The broadcast manager's [sendFile], seen from one target whose
    transport is connected and accepts every message. *)
Lemma chat_sendFile_sequence (fileId : string) (now : nat) (f : File)
    (targets : option (list string)) (s : t) (id : string) (p : Peer) :
  isHost s = true ->
  NoDup (targets_of targets s) -> id ∈ targets_of targets s ->
  Map_get String.eqb id (peers s) = Some p ->
  connected p = true -> reliable p ->
  result (sendFile fileId now f targets s) = Ok tt /\
  exists p',
    Map_get String.eqb id (peers (state (sendFile fileId now f targets s)))
      = Some p' /\
    calls p' = (calls p ++ accepted (Spec.broadcast_sequence fileId f))%list /\
    outbox p' = (outbox p ++ Spec.broadcast_sequence fileId f)%list.
Proof.
  intros Hhost Hnd Hin Hp Hcon Hrel.
  set (total := chunk_count (file_size f)).
  destruct (forEach_try_send_target
              [FText (fileStart_text fileId f total)]
              "Chat: Failed to send file metadata to subscriber"
              (targets_of targets s) s id p Hp Hcon Hrel Hnd)
    as (s1 & t1 & p1 & Hrun1 & Hsame1 & Hp1 & Hcon1 & Hrel1 & Hin1 & _).
  destruct (send_chunks_target fileId f (targets_of targets s) total total 0
              s1 id p1 Hp1 Hcon1 Hrel1 Hnd Hin)
    as (s2 & t2 & p2 & Hrun2 & Hsame2 & Hp2 & Hcon2 & Hrel2 & Hc2).
  destruct (forEach_try_send_target
              [FText (fileComplete_text fileId)]
              "Chat: Failed to send file completion to subscriber"
              (targets_of targets s) s2 id p2 Hp2 Hcon2 Hrel2 Hnd)
    as (s3 & t3 & p3 & Hrun3 & Hsame3 & Hp3 & Hcon3 & Hrel3 & Hin3 & _).
  assert (Hrun : exists t, sendFile fileId now f targets s = (Ok tt, s3, t)).
  { unfold sendFile. rewrite bind_get, Hhost. cbn [negb]. fold total.
    unfold bind at 1. unfold emit at 1. unfold bind at 1. rewrite Hrun1.
    unfold bind at 1. rewrite Hrun2. rewrite Hrun3. eauto. }
  destruct Hrun as [t ->]. cbn [result state fst snd].
  split; [reflexivity|]. exists p3. split; [exact Hp3|].
  assert (Hcalls : calls p3 =
            (calls p ++ accepted (Spec.broadcast_sequence fileId f))%list).
  { rewrite (Hin3 Hin), Hc2, (Hin1 Hin).
    unfold Spec.broadcast_sequence, accepted. fold total.
    cbn [map app]. rewrite !map_app, <- !app_assoc. reflexivity. }
  split; [exact Hcalls|]. by apply outbox_app.
Qed.

Lemma omap_message_console (t : list Event) :
  forallb is_console t = true -> omap message_of t = [].
Proof.
  induction t as [|[] t IH]; simpl; try discriminate; auto.
Qed.

Lemma sendMessage_host_run (id : string) (now : nat) (body : string)
    (targets : option (list string)) (s : t) :
  isHost s = true ->
  exists s' errors,
    sendMessage id now body targets s =
      (Ok tt, s',
       (errors ++
        [onMessage
           {| msg_id := JStr id; content := Plain body; timestamp := now;
              sender := host; msg_subscriberId := None; msg_type := text;
              msg_fileData := None |}])%list) /\
    s' = set_peers (peers s') s /\
    (forall k, live s' k = live s k) /\
    total_calls s' =
      total_calls s + length (List.filter (live s) (targets_of targets s)) /\
    forallb is_console errors = true.
Proof.
  intros Hhost.
  unfold sendMessage. unfold bind at 1. unfold get at 1. rewrite Hhost.
  unfold bind at 1.
  destruct (forEach_send_one
              (FText (message_text id body now host None))
              "Chat: Failed to send message to subscriber"
              (targets_of targets s) s)
    as (s' & t & -> & Hsame & Hlive & Htotal & Ht).
  unfold emit. exists s', t. auto.
Qed.

(** The fan-out of one frame, transport by transport: every target whose
    transport is connected gets one call, with that frame, and every
    other transport is as before. *)
Lemma forEach_send_each (f : Frame) (failure : string)
    (targets : list string) (s : t) :
  NoDup targets ->
  forall k p,
    Map_get String.eqb k (peers s) = Some p ->
    exists p',
      Map_get String.eqb k
        (peers (state (forEach targets (try_send [f] failure) s))) = Some p' /\
      (k ∈ targets -> connected p = true ->
       exists ok, calls p' = (calls p ++ [(f, ok)])%list) /\
      (k ∉ targets \/ connected p = false -> p' = p).
Proof.
  revert s. induction targets as [|id targets IH]; intros s Hnd k p Hk.
  - exists p. split; [exact Hk|]. split; [|reflexivity].
    intros Hin. by apply elem_of_nil in Hin.
  - apply NoDup_cons in Hnd as [Hid Hnd]. cbn [forEach]. unfold bind at 1.
    destruct (try_send_spec [f] failure id s)
      as [[Hdead ->]
         | (q & q' & extra & t & Hq & Hqcon & -> & Hc & Hcon' & _ & _ & Hone & _)].
    + specialize (IH s Hnd k p Hk).
      destruct (forEach targets (try_send [f] failure) s) as [[r s'] t'].
      cbn [state fst snd] in *.
      destruct IH as (p' & Hp' & Hin & Hout).
      exists p'. split; [exact Hp'|]. split.
      * intros Hmem Hcon. apply elem_of_cons in Hmem as [->|Hmem]; [|auto].
        unfold live in Hdead. rewrite Hk in Hdead. simpl in Hdead. congruence.
      * intros [Hmem|Hcon]; [|auto]. apply Hout. left.
        intros Hx. apply Hmem. by right.
    + set (s1 := set_peers _ s). destruct (Hone f eq_refl) as [ok ->].
      destruct (String.eqb_spec id k) as [->|Hne].
      * assert (q = p) as -> by congruence.
        assert (Map_get String.eqb k (peers s1) = Some q') as Hk1.
        { subst s1. simpl. apply Map_get_set_eq. }
        specialize (IH s1 Hnd k q' Hk1).
        destruct (forEach targets (try_send [f] failure) s1) as [[r s'] t'].
        cbn [state fst snd] in *.
        destruct IH as (p' & Hp' & _ & Hout).
        exists p'. split; [exact Hp'|].
        rewrite (Hout (or_introl Hid)). split; [eauto|].
        intros [Hmem|Hcon]; [|congruence].
        exfalso. apply Hmem. by left.
      * assert (Map_get String.eqb k (peers s1) = Some p) as Hk1.
        { subst s1. simpl. rewrite Map_get_set_ne by exact Hne. exact Hk. }
        specialize (IH s1 Hnd k p Hk1).
        destruct (forEach targets (try_send [f] failure) s1) as [[r s'] t'].
        cbn [state fst snd] in *.
        destruct IH as (p' & Hp' & Hin & Hout).
        exists p'. split; [exact Hp'|]. split.
        -- intros Hmem Hcon.
           apply elem_of_cons in Hmem as [->|Hmem]; [congruence|auto].
        -- intros [Hmem|Hcon]; [|auto]. apply Hout. left.
           intros Hx. apply Hmem. by right.
Qed.

(** C4. A host with [k] connected subscribers (the keys of [subscribers]
    whose transport reports [connected]) that calls [sendMessage] with no
    target list never throws, whatever the channels do with the sends. It
    makes exactly [k] [peer.send] calls, one per connected subscriber: the
    transport of each connected subscriber gets one more call, with the
    frame of this message, whether the channel takes it or throws, and
    every other transport is left as it was. And it echoes the message
    locally exactly once, as the last event; a send that throws only adds
    a [console.error] before it. (The keys of a [Map] are distinct.) *)
Theorem sendMessage_fan_out (id : string) (now : nat) (body : string)
    (s : t) :
  isHost s = true ->
  NoDup (Map_keys (subscribers s)) ->
  let r := sendMessage id now body None s in
  let k := length (connected_subscribers s) in
  let frame := FText (message_text id body now host None) in
  result r = Ok tt /\
  total_calls (state r) = total_calls s + k /\
  (forall sub p,
     Map_get String.eqb sub (peers s) = Some p ->
     exists p',
       Map_get String.eqb sub (peers (state r)) = Some p' /\
       (sub ∈ connected_subscribers s ->
        exists ok, calls p' = (calls p ++ [(frame, ok)])%list) /\
       (sub ∉ connected_subscribers s -> p' = p)) /\
  omap message_of (trace r) =
    [{| msg_id := JStr id; content := Plain body; timestamp := now;
        sender := host; msg_subscriberId := None; msg_type := text;
        msg_fileData := None |}] /\
  (exists errors,
     forallb is_console errors = true /\
     trace r =
       (errors ++
        [onMessage
           {| msg_id := JStr id; content := Plain body; timestamp := now;
              sender := host; msg_subscriberId := None; msg_type := text;
              msg_fileData := None |}])%list).
Proof.
  intros Hhost Hnd r k frame.
  destruct (forEach_send_one frame
              "Chat: Failed to send message to subscriber"
              (targets_of None s) s)
    as (s' & t & Hrun & _ & _ & Htotal & Ht).
  pose proof (forEach_send_each frame
                "Chat: Failed to send message to subscriber"
                (targets_of None s) s Hnd) as Heach.
  rewrite Hrun in Heach. cbn [state fst snd] in Heach.
  assert (r = (Ok tt, s',
               (t ++ [onMessage
                        {| msg_id := JStr id; content := Plain body;
                           timestamp := now; sender := host;
                           msg_subscriberId := None; msg_type := text;
                           msg_fileData := None |}])%list)) as ->.
  { subst r frame. unfold sendMessage. unfold bind at 1. unfold get at 1.
    rewrite Hhost. unfold bind at 1. rewrite Hrun. reflexivity. }
  cbn [result state trace fst snd].
  split; [reflexivity|]. split; [exact Htotal|]. split; [|split].
  - intros sub p Hp. destruct (Heach sub p Hp) as (p' & Hp' & Hin & Hout).
    exists p'. split; [exact Hp'|]. split.
    + intros Hmem. unfold connected_subscribers in Hmem.
      apply list_elem_of_In, filter_In in Hmem as [Hkey Hlive].
      apply Hin; [apply list_elem_of_In, Hkey|].
      unfold live in Hlive. rewrite Hp in Hlive. exact Hlive.
    + intros Hmem. apply Hout.
      destruct (connected p) eqn:Hcon; [left|right; reflexivity].
      intros Hkey. apply Hmem. unfold connected_subscribers.
      apply list_elem_of_In, filter_In. split; [apply list_elem_of_In, Hkey|].
      unfold live. rewrite Hp. exact Hcon.
  - rewrite omap_app, (omap_message_console _ Ht). reflexivity.
  - exists t. split; [exact Ht|reflexivity].
Qed.

End ChatSend.

(** ** The broadcast manager: membership *)

Section ChatMembership.

Import ChatWebRTCManager.
Local Open Scope string_scope.

Lemma missing_Some (x : string) : x <> "" -> missing (Some x) = false.
Proof. destruct x; [congruence|reflexivity]. Qed.

Lemma omap_joined_console (t : list Event) :
  forallb is_console t = true -> omap joined_of t = [].
Proof.
  induction t as [|[] t IH]; simpl; try discriminate; auto.
Qed.

(** The welcome message touches the transport under [id] only. *)
Lemma sendMessage_one_target (msgId : string) (now : nat) (body id : string)
    (s : t) :
  isHost s = true ->
  forall other, other <> id ->
    Map_get String.eqb other
      (peers (state (sendMessage msgId now body (Some [id]) s)))
    = Map_get String.eqb other (peers s).
Proof.
  intros Hhost other Hother.
  unfold sendMessage. unfold bind at 1. unfold get at 1. rewrite Hhost.
  unfold bind at 1. cbn [targets_of forEach]. unfold bind at 1.
  destruct (try_send_spec
              [FText (message_text msgId body now host None)]
              "Chat: Failed to send message to subscriber" id s)
    as [[_ ->] | (q & q' & extra & t & Hq & _ & -> & _)].
  - reflexivity.
  - unfold ret, emit. cbn [state fst snd peers set_peers].
    apply Map_get_set_ne. congruence.
Qed.

Lemma processAnswer_run (answerData : ChatSignalData)
    (now : nat) (welcomeId : string) (refusal : option Error)
    (id name : string) (s : t) :
  isHost s = true ->
  sig_subscriberId answerData = Some id -> id <> "" ->
  sig_subscriberName answerData = Some name -> name <> "" ->
  let joined := {| sub_id := id; sub_name := name; sub_connected := true;
                   joinedAt := now |} in
  match Map_get String.eqb id (peers s) with
  | None =>
      processAnswer answerData now welcomeId refusal s =
        (Throw (ErrorMsg "Peer not found for subscriber"), s, [])
  | Some p =>
      match Peer_signal p refusal with
      | Throw e =>
          processAnswer answerData now welcomeId refusal s = (Throw e, s, [])
      | Ok _ =>
          exists s' errors,
            processAnswer answerData now welcomeId refusal s =
              (Ok tt, s',
               onSubscriberJoined joined
               :: (errors ++
                   [onMessage
                      {| msg_id := JStr welcomeId;
                         content := Plain "Welcome to the chat!";
                         timestamp := now; sender := host;
                         msg_subscriberId := None; msg_type := text;
                         msg_fileData := None |}])%list) /\
            forallb is_console errors = true /\
            subscribers s' = Map_set String.eqb id joined (subscribers s) /\
            (forall other, other <> id ->
               Map_get String.eqb other (peers s')
               = Map_get String.eqb other (peers s)) /\
            exists p',
              Map_get String.eqb id (peers s') = Some p' /\
              if connected p then
                exists ok,
                  calls p' =
                    (calls p ++
                     [(FText (message_text welcomeId "Welcome to the chat!"
                                now host None), ok)])%list
              else p' = p /\ peers s' = peers s /\ errors = []
      end
  end.
Proof.
  intros Hhost Hid Hid' Hname Hname' joined.
  assert (Hstart :
    processAnswer answerData now welcomeId refusal s =
    match Map_get String.eqb id (peers s) with
    | None => throw (ErrorMsg "Peer not found for subscriber")
    | Some p =>
        match Peer_signal p refusal with
        | Throw e => throw e
        | Ok _ =>
            bind (modify (fun s =>
                    set_subscribers
                      (Map_set String.eqb id joined (subscribers s)) s))
              (fun _ => bind (emit (onSubscriberJoined joined))
                 (fun _ => sendMessage welcomeId now "Welcome to the chat!"
                             (Some [id])))
        end
    end s).
  { unfold processAnswer. rewrite bind_get.
    rewrite Hhost, Hid, Hname. cbn [negb].
    rewrite (missing_Some id Hid'), (missing_Some name Hname').
    reflexivity. }
  rewrite Hstart. clear Hstart.
  destruct (Map_get String.eqb id (peers s)) as [p|] eqn:Hp; [|reflexivity].
  destruct (Peer_signal p refusal) as [[]|e]; [|reflexivity].
  unfold bind at 1. unfold modify at 1.
  unfold bind at 1. unfold emit at 1.
  set (s1 := set_subscribers _ s).
  assert (Map_get String.eqb id (peers s1) = Some p) as Hp1 by exact Hp.
  unfold sendMessage. rewrite bind_get. change (isHost s1) with (isHost s).
  rewrite Hhost. cbn [targets_of forEach].
  unfold bind at 1. unfold bind at 1.
  destruct (try_send_spec
              [FText (message_text welcomeId "Welcome to the chat!" now host
                        None)]
              "Chat: Failed to send message to subscriber" id s1)
    as [[Hdead ->]
       | (q & q' & extra & t & Hq & Hqcon & -> & Hc & _ & _ & _ & Hone & Ht)].
  - unfold ret, emit. exists s1, []. cbn [app].
    split; [reflexivity|]. split; [reflexivity|]. split; [reflexivity|].
    split; [reflexivity|]. exists p. split; [exact Hp1|].
    unfold live in Hdead. rewrite Hp1 in Hdead. cbn [from_option] in Hdead.
    rewrite Hdead. auto.
  - unfold ret, emit. rewrite Hp1 in Hq. injection Hq as <-.
    eexists _, t. rewrite app_nil_r.
    split; [reflexivity|]. split; [exact Ht|]. split; [reflexivity|].
    split.
    { intros other Hother. cbn [peers set_peers].
      apply Map_get_set_ne. congruence. }
    exists q'. split; [cbn [peers set_peers]; apply Map_get_set_eq|].
    rewrite Hqcon. destruct (Hone _ eq_refl) as [ok ->]. eauto.
Qed.

(** C3. What [processAnswer] does on a host, for every answer envelope.
    An envelope without a [subscriberId] or a [subscriberName] (or with an
    empty one) is refused with "Invalid answer data". For any other
    envelope it fails with "Peer not found for subscriber" if no transport
    is stored under the id. If one is stored (and alive) and [peer.signal]
    takes the descriptor, it returns, records [Subscriber {connected:
    true, joinedAt: now}] under the id, emits exactly one "subscriber
    joined" event, for that subscriber, and calls [sendMessage] for the
    welcome message with that subscriber as the only target, which
    echoes the message locally once and leaves the other transports and
    records alone. But [sendMessage] sends only on a transport that
    reports [connected]: while the transport under the id does not, as is
    the case from [createOffer] until the handshake this very answer
    completes is over, no [peer.send] call is made on any transport and
    the welcome message never leaves the host. Had the transport been
    connected, it would have got exactly one call, with the welcome
    frame. *)
Theorem processAnswer_welcome_unsent (answerData : ChatSignalData)
    (now : nat) (welcomeId : string) (s : t) :
  isHost s = true ->
  let r := processAnswer answerData now welcomeId None s in
  (missing (sig_subscriberId answerData)
   || missing (sig_subscriberName answerData) = true ->
   r = (Throw (ErrorMsg "Invalid answer data"), s, [])) /\
  (forall id name,
     sig_subscriberId answerData = Some id -> id <> "" ->
     sig_subscriberName answerData = Some name -> name <> "" ->
     let joined := {| sub_id := id; sub_name := name; sub_connected := true;
                      joinedAt := now |} in
     let welcome := {| msg_id := JStr welcomeId;
                       content := Plain "Welcome to the chat!";
                       timestamp := now; sender := host;
                       msg_subscriberId := None; msg_type := text;
                       msg_fileData := None |} in
     (Map_get String.eqb id (peers s) = None ->
      r = (Throw (ErrorMsg "Peer not found for subscriber"), s, [])) /\
     (forall p,
        Map_get String.eqb id (peers s) = Some p -> destroyed p = false ->
        result r = Ok tt /\
        Map_get String.eqb id (subscribers (state r)) = Some joined /\
        omap joined_of (trace r) = [joined] /\
        omap message_of (trace r) = [welcome] /\
        (forall other, other <> id ->
           Map_get String.eqb other (peers (state r))
             = Map_get String.eqb other (peers s) /\
           Map_get String.eqb other (subscribers (state r))
             = Map_get String.eqb other (subscribers s)) /\
        (connected p = false ->
         peers (state r) = peers s /\
         trace r = [onSubscriberJoined joined; onMessage welcome]) /\
        (connected p = true ->
         exists p' ok,
           Map_get String.eqb id (peers (state r)) = Some p' /\
           calls p' =
             (calls p ++
              [(FText (message_text welcomeId "Welcome to the chat!" now
                         host None), ok)])%list))).
Proof.
  intros Hhost r. split.
  - intros Hmiss. subst r. unfold processAnswer. rewrite bind_get, Hhost.
    cbn [negb].
    destruct (sig_subscriberId answerData) as [id|]; [|reflexivity].
    destruct (sig_subscriberName answerData) as [name|]; [|reflexivity].
    rewrite Hmiss. reflexivity.
  - intros id name Hid Hid' Hname Hname' joined welcome.
    pose proof (processAnswer_run answerData now welcomeId None id name s
                  Hhost Hid Hid' Hname Hname') as Hrun.
    cbv zeta in Hrun. fold joined welcome r in Hrun. split.
    + intros Hnone. rewrite Hnone in Hrun. exact Hrun.
    + intros p Hp Hdes. rewrite Hp in Hrun. unfold Peer_signal in Hrun.
      rewrite Hdes in Hrun.
      destruct Hrun
        as (s' & errors & Hrun & Hconsole & Hsubs & Hothers & p' & Hp' & Hsent).
      rewrite Hrun. cbn [result state trace fst snd].
      split; [reflexivity|].
      split; [rewrite Hsubs; apply Map_get_set_eq|].
      split.
      { match goal with |- omap _ (?e :: ?l) = _ =>
          change (omap joined_of (e :: l)) with (joined :: omap joined_of l)
        end.
        rewrite omap_app, (omap_joined_console _ Hconsole). reflexivity. }
      split.
      { match goal with |- omap _ (?e :: ?l) = _ =>
          change (omap message_of (e :: l)) with (omap message_of l) end.
        rewrite omap_app, (omap_message_console _ Hconsole). reflexivity. }
      split.
      { intros other Hother. split; [by apply Hothers|].
        rewrite Hsubs. apply Map_get_set_ne. congruence. }
      split.
      * intros Hcon. rewrite Hcon in Hsent.
        destruct Hsent as (_ & Hpeers & ->). split; [exact Hpeers|reflexivity].
      * intros Hcon. rewrite Hcon in Hsent. destruct Hsent as [ok Hcalls].
        exists p', ok. split; [exact Hp'|exact Hcalls].
Qed.

(** What [peer.signal] decides: if it throws, so does [processAnswer]
    (the promise is rejected), and nothing is recorded. *)
Lemma processAnswer_refused (answerData : ChatSignalData)
    (now : nat) (welcomeId : string) (e : Error) (id name : string) (s : t)
    (p : Peer) :
  isHost s = true ->
  sig_subscriberId answerData = Some id -> id <> "" ->
  sig_subscriberName answerData = Some name -> name <> "" ->
  Map_get String.eqb id (peers s) = Some p -> destroyed p = false ->
  processAnswer answerData now welcomeId (Some e) s = (Throw e, s, []).
Proof.
  intros Hhost Hid Hid' Hname Hname' Hp Hdes.
  pose proof (processAnswer_run answerData now welcomeId (Some e) id name s
                Hhost Hid Hid' Hname Hname') as Hrun.
  cbv zeta in Hrun. rewrite Hp in Hrun. unfold Peer_signal in Hrun.
  rewrite Hdes in Hrun. exact Hrun.
Qed.

Lemma createOffer_run (id : string) (faults : list bool) (s : t) :
  isHost s = true ->
  createOffer id faults s =
    (Ok tt, set_peers (Map_set String.eqb id (Peer_new faults) (peers s)) s, []).
Proof.
  intros Hhost. unfold createOffer. rewrite bind_get, Hhost. reflexivity.
Qed.

(** C9. On a host, [isConnected] is true exactly when the transport map
    has an entry; so it is true as soon as [createOffer] has stored its
    pending transport, which is not connected and has no subscriber
    record yet; and it does not look at the transports: any other
    transports under the same keys give the same answer. *)
Theorem isConnected_host (s : t) :
  isHost s = true ->
  (isConnected s = true <-> peers s <> []) /\
  (forall id faults,
     let r := createOffer id faults s in
     result r = Ok tt /\ isConnected (state r) = true /\
     Map_get String.eqb id (peers (state r)) = Some (Peer_new faults) /\
     connected (Peer_new faults) = false /\
     subscribers (state r) = subscribers s) /\
  (forall others,
     Map_keys others = Map_keys (peers s) ->
     isConnected (set_peers others s) = isConnected s).
Proof.
  intros Hhost. unfold isConnected. rewrite Hhost. split; [|split].
  - destruct (peers s) as [|e m]; simpl; split; intros Hx;
      try discriminate; try reflexivity; by destruct Hx.
  - intros id faults. rewrite (createOffer_run id faults s Hhost).
    cbn [negb result state fst snd isHost set_peers peers subscribers].
    rewrite Hhost, Map_get_set_eq.
    split; [reflexivity|]. split; [|auto].
    destruct (peers s) as [|[k v] m]; simpl; [reflexivity|].
    destruct (String.eqb id k); reflexivity.
  - intros others Hkeys. cbn [isHost set_peers peers]. rewrite Hhost.
    apply (f_equal (@length string)) in Hkeys.
    unfold Map_keys in Hkeys. rewrite !length_map in Hkeys.
    by rewrite Hkeys.
Qed.

End ChatMembership.

(** ** The broadcast manager: receiving *)

Section ChatReceive.

Import ChatWebRTCManager.
Local Open Scope string_scope.

(** What [handleFileComplete] does, case by case. *)
Lemma handleFileComplete_run (fileData : jsval) (now : nat) (s : t) :
  handleFileComplete fileData now s =
    match get_prop fileData "fileId" with
    | None => (Throw TypeError, s, [])
    | Some fileId =>
        match Map_get same_value_zero fileId (fileTransfers s) with
        | None =>
            if stringifiable fileId then
              (Ok tt, s, [console Err "Chat: File transfer not found"])
            else (Throw TypeError, s, [])
        | Some tr =>
            if negb (strict_eq_num (Num.of_nat (receivedChunks tr))
                                   (totalChunks tr)) then
              if stringifiable (totalChunks tr) then
                (Ok tt, s, [console Err "Chat: Incomplete file transfer"])
              else (Throw TypeError, s, [])
            else
              match collect (chunks tr) 0 (receivedChunks tr) with
              | None =>
                  if stringifiable (fileName tr) then
                    (Ok tt, s, [console Err "Chat: Missing chunk"])
                  else (Throw TypeError, s, [])
              | Some parts =>
                  if stringifiable (fileName tr) then
                    if stringifiable (fileType tr) then
                      (Ok tt,
                       set_fileTransfers
                         (Map_delete same_value_zero fileId (fileTransfers s))
                         s,
                       [onMessage
                          {| msg_id := fileId;
                             content := FileLabel (fileName tr);
                             timestamp := now; sender := host;
                             msg_subscriberId := None; msg_type := file;
                             msg_fileData :=
                               Some {| att_name := fileName tr;
                                       att_size := fileSize tr;
                                       att_type := fileType tr;
                                       url :=
                                         Some {| blob_type := fileType tr;
                                                 blob_bytes := concat parts |}
                                    |} |}])
                    else
                      (Ok tt, s, [console Err "Chat: Failed to assemble file"])
                  else (Throw TypeError, s, [])
              end
        end
    end.
Proof.
  unfold handleFileComplete.
  destruct (get_prop fileData "fileId") as [fileId|]; [|reflexivity].
  cbn [lift]. rewrite bind_ret, bind_get.
  destruct (Map_get same_value_zero fileId (fileTransfers s)) as [tr|].
  2:{ unfold bind. rewrite interpolate_one.
      destruct (stringifiable fileId); reflexivity. }
  destruct (negb _).
  { unfold bind. rewrite interpolate_one.
    destruct (stringifiable (totalChunks tr)); reflexivity. }
  destruct (collect _ _ _).
  2:{ unfold bind. rewrite interpolate_one.
      destruct (stringifiable (fileName tr)); reflexivity. }
  unfold try_catch. unfold bind at 1. rewrite interpolate_one.
  destruct (stringifiable (fileType tr)).
  - unfold bind at 1. rewrite interpolate_one.
    destruct (stringifiable (fileName tr)) eqn:Hname.
    + reflexivity.
    + unfold bind. rewrite interpolate_one, Hname. reflexivity.
  - unfold bind. rewrite interpolate_one.
    destruct (stringifiable (fileName tr)); reflexivity.
Qed.

(** C7, the broadcast manager. [handleFileComplete] hands over a
    download (a file message with a URL) only when the transfer named by
    the frame exists, its count of received chunks is the number
    [totalChunks], and every index below that count is in its chunk map
    (and exactly when, besides, the name and the type of the transfer can
    be converted to strings); the download is then the only event and its
    bytes are all those chunks in index order. Otherwise the manager is
    as before, and it has logged an error or thrown a [TypeError]. *)
Lemma handleFileComplete_guard (fileData : jsval) (now : nat) (s : t) :
  let r := handleFileComplete fileData now s in
  ((exists d, d ∈ omap download_of (trace r)) <->
   exists fileId tr,
     get_prop fileData "fileId" = Some fileId /\
     Map_get same_value_zero fileId (fileTransfers s) = Some tr /\
     strict_eq_num (Num.of_nat (receivedChunks tr)) (totalChunks tr) = true /\
     (forall j, j < receivedChunks tr -> is_Some (chunks tr !! j)) /\
     stringifiable (fileName tr) = true /\
     stringifiable (fileType tr) = true) /\
  (forall m blob,
     (m, blob) ∈ omap download_of (trace r) ->
     result r = Ok tt /\
     trace r = [onMessage m] /\
     exists fileId tr,
       get_prop fileData "fileId" = Some fileId /\
       Map_get same_value_zero fileId (fileTransfers s) = Some tr /\
       blob_type blob = fileType tr /\
       blob_bytes blob
         = concat (chunks_in_order (chunks tr) 0 (receivedChunks tr))) /\
  (omap download_of (trace r) = [] -> state r = s) /\
  (result r = Ok tt \/ result r = Throw TypeError /\ trace r = []).
Proof.
  intros r. subst r. rewrite handleFileComplete_run.
  assert (forall (res : Res unit) (t : list Event),
            omap download_of t = [] ->
            (res = Ok tt \/ res = Throw TypeError /\ t = []) ->
            (forall fileId tr,
               get_prop fileData "fileId" = Some fileId ->
               Map_get same_value_zero fileId (fileTransfers s) = Some tr ->
               strict_eq_num (Num.of_nat (receivedChunks tr)) (totalChunks tr)
                 = true ->
               (forall j, j < receivedChunks tr -> is_Some (chunks tr !! j)) ->
               stringifiable (fileName tr) = true ->
               stringifiable (fileType tr) = true -> False) ->
            let r := (res, s, t) in
            ((exists d, d ∈ omap download_of (trace r)) <->
             exists fileId tr,
               get_prop fileData "fileId" = Some fileId /\
               Map_get same_value_zero fileId (fileTransfers s) = Some tr /\
               strict_eq_num (Num.of_nat (receivedChunks tr)) (totalChunks tr)
                 = true /\
               (forall j, j < receivedChunks tr -> is_Some (chunks tr !! j)) /\
               stringifiable (fileName tr) = true /\
               stringifiable (fileType tr) = true) /\
            (forall m blob,
               (m, blob) ∈ omap download_of (trace r) ->
               result r = Ok tt /\
               trace r = [onMessage m] /\
               exists fileId tr,
                 get_prop fileData "fileId" = Some fileId /\
                 Map_get same_value_zero fileId (fileTransfers s) = Some tr /\
                 blob_type blob = fileType tr /\
                 blob_bytes blob
                   = concat (chunks_in_order (chunks tr) 0
                               (receivedChunks tr))) /\
            (omap download_of (trace r) = [] -> state r = s) /\
            (result r = Ok tt \/ result r = Throw TypeError /\ trace r = []))
    as Hnothing.
  { intros res t Hnone Hres Hno r0. subst r0.
    cbn [trace state result fst snd]. rewrite Hnone.
    split; [|split; [|split; [reflexivity|exact Hres]]].
    - split; [intros [d Hd]; by apply elem_of_nil in Hd|].
      intros (fileId & tr & H1 & H2 & H3 & H4 & H5 & H6).
      destruct (Hno fileId tr H1 H2 H3 H4 H5 H6).
    - intros m blob Hd. by apply elem_of_nil in Hd. }
  destruct (get_prop fileData "fileId") as [fileId|].
  2:{ apply Hnothing; [reflexivity|auto|]. intros; discriminate. }
  destruct (Map_get same_value_zero fileId (fileTransfers s)) as [tr|] eqn:Hget.
  2:{ destruct (stringifiable fileId);
        (apply Hnothing; [reflexivity|auto|]);
        intros ? ? [= <-] Hget'; congruence. }
  destruct (strict_eq_num _ (totalChunks tr)) eqn:Heq; cbn [negb].
  2:{ destruct (stringifiable (totalChunks tr));
        (apply Hnothing; [reflexivity|auto|]);
        intros ? ? [= <-] Hget' Heq'; rewrite Hget in Hget';
        injection Hget' as <-; congruence. }
  destruct (collect (chunks tr) 0 (receivedChunks tr)) as [parts|] eqn:Hcollect.
  2:{ destruct (stringifiable (fileName tr));
        (apply Hnothing; [reflexivity|auto|]);
        intros ? ? [= <-] Hget' _ Hall; rewrite Hget in Hget';
        injection Hget' as <-;
        apply collect_None in Hcollect as (j & Hj & Hnone);
        destruct (Hall j ltac:(lia)) as [x Hx]; congruence. }
  destruct (stringifiable (fileName tr)) eqn:Hname.
  2:{ apply Hnothing; [reflexivity|auto|].
      intros ? ? [= <-] Hget' _ _ Hname'. rewrite Hget in Hget'.
      injection Hget' as <-. congruence. }
  destruct (stringifiable (fileType tr)) eqn:Htype.
  2:{ apply Hnothing; [reflexivity|auto|].
      intros ? ? [= <-] Hget' _ _ _ Htype'. rewrite Hget in Hget'.
      injection Hget' as <-. congruence. }
  clear Hnothing.
  apply collect_inv in Hcollect as [Hall ->].
  cbn [trace state result snd fst]. split; [|split; [|split]].
  - split.
    + intros _. exists fileId, tr. repeat split; auto.
      intros j Hj. apply Hall. lia.
    + intros _. eexists. cbn. apply list_elem_of_here.
  - intros m blob Hd. cbn in Hd. apply list_elem_of_singleton in Hd.
    injection Hd as -> ->. split; [reflexivity|]. split; [reflexivity|].
    exists fileId, tr. repeat split; auto.
  - cbn. discriminate.
  - auto.
Qed.

End ChatReceive.

(** C7. The completeness guard of both managers. A file is handed over
    (the pair manager's [onFileReceived]; the broadcast manager's file
    message with a download URL) only when the count of chunks received
    is the expected chunk count and every index below it is in the chunk
    map; the bytes handed over are then all the chunks in index order, so
    never a part of the file. It is handed over exactly when, besides,
    the name and the type recorded for the file can be converted to
    strings, as the [File] and [Blob] constructors do. If the counts
    differ or an index is missing, the manager logs an error, or throws a
    [TypeError] where the count to be printed cannot be converted;
    nothing is handed over, and the manager keeps its state. *)
Theorem assembly_guard :
  (forall s : WebRTCManager.t,
     let r := WebRTCManager.assembleFile s in
     let held := size (WebRTCManager.receivedChunks s) in
     state r = s /\
     ((exists f, In (WebRTCManager.onFileReceived f) (trace r)) <->
      truthy (WebRTCManager.fileData s) = true /\
      (exists c, get_prop (WebRTCManager.fileData s) "chunks" = Some (JNum c) /\
                 Num.eqb (Num.of_nat held) c = true) /\
      (forall j, j < held -> is_Some (WebRTCManager.receivedChunks s !! j)) /\
      (exists n ty,
         get_prop (WebRTCManager.fileData s) "name" = Some n /\
         get_prop (WebRTCManager.fileData s) "type" = Some ty /\
         stringifiable n = true /\ stringifiable ty = true)) /\
     (forall f, In (WebRTCManager.onFileReceived f) (trace r) ->
        result r = Ok tt /\
        trace r = [WebRTCManager.onFileReceived f] /\
        Some (WebRTCManager.name f) = get_prop (WebRTCManager.fileData s) "name" /\
        Some (WebRTCManager.type f) = get_prop (WebRTCManager.fileData s) "type" /\
        WebRTCManager.bytes f
          = concat (chunks_in_order (WebRTCManager.receivedChunks s) 0 held)) /\
     (result r = Ok tt \/ result r = Throw TypeError /\ trace r = [])) /\
  (forall (fileData : jsval) (now : nat) (s : ChatWebRTCManager.t),
     let r := ChatWebRTCManager.handleFileComplete fileData now s in
     ((exists d, d ∈ omap ChatWebRTCManager.download_of (trace r)) <->
      exists fileId tr,
        get_prop fileData "fileId" = Some fileId /\
        Map_get same_value_zero fileId (ChatWebRTCManager.fileTransfers s)
          = Some tr /\
        strict_eq_num (Num.of_nat (ChatWebRTCManager.receivedChunks tr))
                      (ChatWebRTCManager.totalChunks tr) = true /\
        (forall j, j < ChatWebRTCManager.receivedChunks tr ->
           is_Some (ChatWebRTCManager.chunks tr !! j)) /\
        stringifiable (ChatWebRTCManager.fileName tr) = true /\
        stringifiable (ChatWebRTCManager.fileType tr) = true) /\
     (forall m blob,
        (m, blob) ∈ omap ChatWebRTCManager.download_of (trace r) ->
        result r = Ok tt /\
        trace r = [ChatWebRTCManager.onMessage m] /\
        exists fileId tr,
          get_prop fileData "fileId" = Some fileId /\
          Map_get same_value_zero fileId (ChatWebRTCManager.fileTransfers s)
            = Some tr /\
          ChatWebRTCManager.blob_type blob = ChatWebRTCManager.fileType tr /\
          ChatWebRTCManager.blob_bytes blob
            = concat (chunks_in_order (ChatWebRTCManager.chunks tr) 0
                        (ChatWebRTCManager.receivedChunks tr))) /\
     (omap ChatWebRTCManager.download_of (trace r) = [] -> state r = s) /\
     (result r = Ok tt \/ result r = Throw TypeError /\ trace r = [])).
Proof.
  split.
  - apply assembleFile_guard.
  - apply handleFileComplete_guard.
Qed.

(** ** [destroy()] *)

Section Destroy.

Local Open Scope string_scope.

(** The pair manager: the state a [destroy()] leaves, and its events. *)
Lemma pair_destroy_run (s : WebRTCManager.t) :
  WebRTCManager.destroy s =
    (Ok tt,
     {| WebRTCManager.peer := None;
        WebRTCManager.isInitiator := WebRTCManager.isInitiator s;
        WebRTCManager.fileData := JNull;
        WebRTCManager.receivedChunks := ∅;
        WebRTCManager.expectedChunkIndex := 0;
        WebRTCManager.connectionTimeout := false |},
     match WebRTCManager.peer s with
     | Some p =>
         if destroyed p then [] else [WebRTCManager.onDisconnected]
     | None => []
     end).
Proof.
  destruct s as [[p|] i d c e tm]; [destruct p as [co [] ca fa]|];
    reflexivity.
Qed.

(** The ['close'] handlers of the host find nothing to remove once the
    maps are cleared. *)
Lemma forEach_removeSubscriber_cleared (ids : list string)
    (s : ChatWebRTCManager.t) :
  ChatWebRTCManager.peers s = [] ->
  ChatWebRTCManager.subscribers s = [] ->
  ChatWebRTCManager.forEach ids ChatWebRTCManager.removeSubscriber s
    = (Ok tt, s, []).
Proof.
  intros Hpeers Hsubs. induction ids as [|id ids IH]; [reflexivity|].
  cbn [ChatWebRTCManager.forEach]. unfold bind at 1.
  assert (ChatWebRTCManager.removeSubscriber id s = (Ok tt, s, [])) as ->.
  { unfold ChatWebRTCManager.removeSubscriber.
    rewrite bind_get, Hsubs. cbn [Map_has Map_get].
    rewrite bind_ret, bind_get, Hpeers. reflexivity. }
  rewrite IH. reflexivity.
Qed.

(** The broadcast manager: the state a [destroy()] leaves, and its
    events. The transfer map is not touched. *)
Lemma chat_destroy_run (s : ChatWebRTCManager.t) :
  ChatWebRTCManager.destroy s =
    (Ok tt,
     {| ChatWebRTCManager.isHost := ChatWebRTCManager.isHost s;
        ChatWebRTCManager.peers := [];
        ChatWebRTCManager.subscribers := [];
        ChatWebRTCManager.hostPeer := None;
        ChatWebRTCManager.subscriberId := ChatWebRTCManager.subscriberId s;
        ChatWebRTCManager.subscriberName := ChatWebRTCManager.subscriberName s;
        ChatWebRTCManager.fileTransfers := ChatWebRTCManager.fileTransfers s |},
     match ChatWebRTCManager.hostPeer s with
     | Some p =>
         if destroyed p then [] else [ChatWebRTCManager.onDisconnected]
     | None => []
     end).
Proof.
  unfold ChatWebRTCManager.destroy. rewrite bind_get.
  unfold bind at 1. unfold modify at 1.
  destruct s as [h ps subs [p|] i n ft];
    cbn [ChatWebRTCManager.hostPeer ChatWebRTCManager.set_peers
         ChatWebRTCManager.peers].
  - unfold bind at 1. unfold bind at 1. unfold modify at 1. unfold ret at 1.
    unfold bind at 1. unfold modify at 1. unfold bind at 1.
    rewrite forEach_removeSubscriber_cleared by reflexivity.
    destruct p as [co [] ca fa]; reflexivity.
  - unfold bind at 1. unfold ret at 1.
    unfold bind at 1. unfold modify at 1. unfold bind at 1.
    rewrite forEach_removeSubscriber_cleared by reflexivity.
    reflexivity.
Qed.

End Destroy.

(** What two [destroy()] calls in a row do, for every state of either
    manager: both return, and at most one "disconnected" event is
    emitted, by the first. After the first call no transport is left, and
    the second call changes nothing and emits nothing. The first call of
    the pair manager has also dropped its transfer state (metadata, chunk
    map, next index, timeout). That of the broadcast manager has emptied
    the transport and subscriber maps, and that is all [destroy()] does
    there: the transfer map is as it was before the call. *)
Theorem destroy_idempotent :
  (forall s : WebRTCManager.t,
     let r1 := WebRTCManager.destroy s in
     let r2 := WebRTCManager.destroy (state r1) in
     result r1 = Ok tt /\ result r2 = Ok tt /\
     (trace r1 = [] \/ trace r1 = [WebRTCManager.onDisconnected]) /\
     trace r2 = [] /\
     WebRTCManager.peer (state r1) = None /\
     WebRTCManager.fileData (state r1) = JNull /\
     WebRTCManager.receivedChunks (state r1) = ∅ /\
     WebRTCManager.expectedChunkIndex (state r1) = 0 /\
     WebRTCManager.connectionTimeout (state r1) = false /\
     state r2 = state r1) /\
  (forall s : ChatWebRTCManager.t,
     let r1 := ChatWebRTCManager.destroy s in
     let r2 := ChatWebRTCManager.destroy (state r1) in
     result r1 = Ok tt /\ result r2 = Ok tt /\
     (trace r1 = [] \/ trace r1 = [ChatWebRTCManager.onDisconnected]) /\
     trace r2 = [] /\
     ChatWebRTCManager.peers (state r1) = [] /\
     ChatWebRTCManager.subscribers (state r1) = [] /\
     ChatWebRTCManager.hostPeer (state r1) = None /\
     ChatWebRTCManager.fileTransfers (state r1)
       = ChatWebRTCManager.fileTransfers s /\
     state r2 = state r1).
Proof.
  split.
  - intros s r1 r2. subst r1 r2.
    rewrite (pair_destroy_run s). cbn [state result trace fst snd].
    rewrite pair_destroy_run. cbn [state result trace fst snd].
    repeat (split; [reflexivity|]).
    split; [|repeat split].
    destruct (WebRTCManager.peer s) as [p|]; [destruct (destroyed p)|]; auto.
  - intros s r1 r2. subst r1 r2.
    rewrite (chat_destroy_run s). cbn [state result trace fst snd].
    rewrite chat_destroy_run. cbn [state result trace fst snd].
    repeat (split; [reflexivity|]).
    split; [|repeat split].
    destruct (ChatWebRTCManager.hostPeer s) as [p|]; [destruct (destroyed p)|];
      auto.
Qed.

(** C8, where the code leaves the claim. [destroy()] is to clear all
    transfer state, and that of the pair manager does. That of the
    broadcast manager never touches [fileTransfers]: a subscriber that is
    in the middle of two transfers still holds both of them, with the
    chunk received so far, after [destroy()]. *)
Theorem destroy_keeps_fileTransfers :
  Map_keys (ChatWebRTCManager.fileTransfers receiving_subscriber)
    = [JStr "A"; JStr "B"] /\
  result (ChatWebRTCManager.destroy receiving_subscriber) = Ok tt /\
  ChatWebRTCManager.fileTransfers
    (state (ChatWebRTCManager.destroy receiving_subscriber))
    = ChatWebRTCManager.fileTransfers receiving_subscriber /\
  (ChatWebRTCManager.chunks
     <$> Map_get same_value_zero (JStr "A")
           (ChatWebRTCManager.fileTransfers
              (state (ChatWebRTCManager.destroy receiving_subscriber))))
    = Some {[ 0 := chunk_A0 ]}.
Proof. vm_compute. repeat split. Qed.

(** ** The pair protocol, end to end *)

Section PairEndToEnd.

Import WebRTCManager.
Local Open Scope string_scope.

(** X1. The chunk count is the ceiling of [size / CHUNK_SIZE]; it is 0 for an
    empty payload; a payload of 50000 bytes has 4 chunks, the first three
    of [CHUNK_SIZE] bytes and the last of 848 bytes. *)
Lemma chunk_count_law :
  (forall size, Spec.is_ceil size (chunk_count size)) /\
  chunk_count 0 = 0 /\
  (forall f : File,
     N.of_nat (file_size f) = 50000%N ->
     chunk_count (file_size f) = 4 /\
     length (chunk_of f 0) = CHUNK_SIZE /\
     length (chunk_of f 1) = CHUNK_SIZE /\
     length (chunk_of f 2) = CHUNK_SIZE /\
     length (chunk_of f 3) = 848).
Proof.
  split; [exact chunk_count_ceil|]. split; [reflexivity|].
  intros f Hsize.
  assert (file_size f = 3 * CHUNK_SIZE + 848) as Hsplit.
  { apply Nat2N.inj. rewrite Hsize. vm_compute. reflexivity. }
  assert (848 < CHUNK_SIZE) as Hlt
    by (apply Nat.ltb_lt; vm_compute; reflexivity).
  rewrite !chunk_of_payload_slice, !payload_slice_length.
  split.
  - rewrite Hsplit. unfold chunk_count.
    rewrite (Nat.div_unique (3 * CHUNK_SIZE + 848) CHUNK_SIZE 3 848)
      by lia.
    rewrite (Nat.mod_unique (3 * CHUNK_SIZE + 848) CHUNK_SIZE 3 848)
      by lia.
    reflexivity.
  - unfold file_size in Hsplit. rewrite Hsplit. lia.
Qed.

(** X4. An empty file: [sendFile] sends the start and the complete frame, and
    the receiver hands over the empty file on the complete frame. *)
Lemma pair_round_trip_empty (n ty : string) :
  let f := {| file_name := n; file_type := ty; file_bytes := [] |} in
  let r := receive (deliver <$> Spec.pair_sequence f) (new false) in
  Spec.pair_sequence f
    = [FText (fileStart_text f 0); FText fileComplete_text] /\
  result r = Ok tt /\
  omap file_of (trace r)
    = [{| name := JStr n; type := JStr ty; bytes := [] |}].
Proof.
  intros f r. split; [reflexivity|].
  destruct (pair_sequence_received f (new false)) as (s & t & Hrun & Hfiles & _).
  { intros j Hj. exfalso. change (chunk_count (file_size f)) with 0 in Hj. lia. }
  subst r. rewrite Hrun. split; [reflexivity|].
  unfold trace. cbn [snd]. rewrite omap_app, Hfiles. reflexivity.
Qed.

Lemma pair_round_trip_plain_file :
  (forall j, j < chunk_count (file_size plain_file) ->
     binary_like (Spec.payload_slice (file_bytes plain_file) j)) /\
  omap file_of
    (trace (receive (deliver <$> Spec.pair_sequence plain_file) (new false)))
    = [{| name := JStr "abc.txt"; type := JStr "text/plain";
          bytes := file_bytes plain_file |}].
Proof.
  assert (forall j, j < chunk_count (file_size plain_file) ->
            binary_like (Spec.payload_slice (file_bytes plain_file) j))
    as Hbin.
  { intros j Hj. change (chunk_count (file_size plain_file)) with 1 in Hj.
    assert (j = 0) as -> by lia. left. vm_compute. reflexivity. }
  split; [exact Hbin|].
  exact (proj2 (pair_round_trip plain_file Hbin)).
Defined.

(** C1, where the code leaves the law. A file whose only byte is the
    digit 7: [sendFile] sends the four frames of the protocol, one chunk;
    the receiver reads the binary frame as the JSON number 7, a message
    of unknown type, and drops it; on the complete frame it holds 0 of 1
    chunks and hands over no file. *)
Theorem pair_round_trip_digit_file :
  let sent := sendFile digit_file connected_sender in
  let got := receive (deliver <$> Spec.pair_sequence digit_file) (new false) in
  result sent = Ok tt /\
  (outbox <$> peer (state sent)) = Some (Spec.pair_sequence digit_file) /\
  Spec.pair_sequence digit_file
    = [FText (fileStart_text digit_file 1); FText (chunkStart_text 0 1 1);
       FBinary ["7"%byte]; FText fileComplete_text] /\
  JSON.parse (toString (deliver (FBinary ["7"%byte])))
    = Some (JNum (Num.of_nat 7)) /\
  result got = Ok tt /\
  trace got
    = [console Warn "WebRTC: Unknown message type:";
       console Err "WebRTC: Cannot assemble file: expected chunks"] /\
  omap file_of (trace got) = [] /\
  receivedChunks (state got) = ∅.
Proof. vm_compute. repeat split. Qed.

End PairEndToEnd.

(** ** The broadcast protocol: two transfers in flight *)

Section Overlap.

Import ChatWebRTCManager.
Local Open Scope string_scope.

(** C2, where the code leaves the claim. The frames of two transfers [A]
    and [B] of two chunks each reach a subscriber in alternation. Every
    binary frame goes to the first transfer, in the order the transfers
    were opened, that is still short of chunks: [A] is given the first
    chunk of [A] and the first chunk of [B], and [B] the two second ones.
    Both transfers then pass the completeness check, and two files are
    handed over, neither with the bytes that were sent. *)
Theorem overlapping_transfers_mix :
  let got := receive (deliver <$> overlapping_frames) 0 joined_subscriber in
  let mid := receive (deliver <$> take 6 overlapping_frames) 0
               joined_subscriber in
  ((fun tr => (chunks tr, receivedChunks tr))
     <$> Map_get same_value_zero (JStr "A") (fileTransfers (state mid)))
    = Some (<[0 := chunk_A0]> (<[1 := chunk_B0]> ∅), 2) /\
  ((fun tr => (chunks tr, receivedChunks tr))
     <$> Map_get same_value_zero (JStr "B") (fileTransfers (state mid)))
    = Some (∅, 0) /\
  result got = Ok tt /\
  map (fun d => (msg_id (fst d), blob_bytes (snd d)))
      (omap download_of (trace got))
    = [(JStr "A", (chunk_A0 ++ chunk_B0)%list);
       (JStr "B", (chunk_A1 ++ chunk_B1)%list)] /\
  (chunk_A0 ++ chunk_B0)%list <> file_bytes file_A /\
  (chunk_A1 ++ chunk_B1)%list <> file_bytes file_B.
Proof. vm_compute. repeat split; discriminate. Qed.

End Overlap.

(** ** Worked runs *)

Section Runs.

Import ChatWebRTCManager.
Local Open Scope string_scope.

(** C3, on the host as [createOffer] leaves it: the answer of the pending
    subscriber is processed, the subscriber is recorded and announced,
    and the welcome message is echoed locally; the transport is not
    connected yet, so no [peer.send] call is made. *)
Lemma processAnswer_welcome_unsent_witness :
  isHost pending_host = true /\
  Map_get String.eqb "s1" (peers pending_host) = Some (Peer_new []) /\
  result (processAnswer answer_s1 5 "w" None pending_host) = Ok tt /\
  peers (state (processAnswer answer_s1 5 "w" None pending_host))
    = [("s1", Peer_new [])] /\
  trace (processAnswer answer_s1 5 "w" None pending_host)
    = [onSubscriberJoined
         {| sub_id := "s1"; sub_name := "bob"; sub_connected := true;
            joinedAt := 5 |};
       onMessage
         {| msg_id := JStr "w"; content := Plain "Welcome to the chat!";
            timestamp := 5; sender := host; msg_subscriberId := None;
            msg_type := text; msg_fileData := None |}].
Proof.
  split; [reflexivity|]. split; [reflexivity|].
  assert ("s1" <> "") as Hid by discriminate.
  assert ("bob" <> "") as Hname by discriminate.
  destruct (processAnswer_welcome_unsent answer_s1 5 "w" pending_host eq_refl)
    as [_ Hvalid].
  destruct (Hvalid "s1" "bob" eq_refl Hid eq_refl Hname) as [_ Hfound].
  destruct (Hfound (Peer_new []) eq_refl eq_refl)
    as (Hok & _ & _ & _ & _ & Hunsent & _).
  destruct (Hunsent eq_refl) as [Hpeers Htrace].
  split; [exact Hok|]. split; [exact Hpeers|exact Htrace].
Defined.

(** An envelope with an id the host has no transport for and no name is
    refused as "Invalid answer data", before the transport is looked
    up. *)
Lemma processAnswer_nameless :
  Map_get String.eqb "s9" (peers fresh_host) = None /\
  result (processAnswer nameless_answer 5 "w" None fresh_host)
    = Throw (ErrorMsg "Invalid answer data").
Proof. vm_compute. repeat split. Qed.

Lemma sendMessage_fan_out_witness :
  isHost host_of_three = true /\
  NoDup (Map_keys (subscribers host_of_three)) /\
  connected_subscribers host_of_three = ["s1"; "s2"] /\
  total_calls (state (sendMessage "m1" 5 "hi" None host_of_three))
    = total_calls host_of_three + 2.
Proof.
  assert (NoDup (Map_keys (subscribers host_of_three))) as Hnodup.
  { change (Map_keys (subscribers host_of_three)) with ["s1"; "s2"; "s3"].
    repeat (apply NoDup_cons; split;
            [rewrite ?elem_of_cons, ?elem_of_nil; intuition discriminate|]).
    apply NoDup_nil_2. }
  split; [reflexivity|]. split; [exact Hnodup|]. split; [reflexivity|].
  destruct (sendMessage_fan_out "m1" 5 "hi" host_of_three eq_refl Hnodup)
    as (_ & Hcalls & _).
  exact Hcalls.
Defined.

Lemma isConnected_host_witness :
  isHost fresh_host = true /\
  isConnected fresh_host = false /\
  isConnected (state (createOffer "s1" [] fresh_host)) = true.
Proof.
  split; [reflexivity|]. split; [reflexivity|].
  destruct (isConnected_host fresh_host eq_refl) as (_ & Hoffer & _).
  destruct (Hoffer "s1" []) as (_ & Hconn & _).
  exact Hconn.
Defined.

End Runs.

Section PairRuns.

Import WebRTCManager.

Lemma handleReceivedData_total_witness :
  JSON.parse (toString [x01%byte]) = None /\
  truthy (fileData (new false)) = false /\
  state (handleReceivedData [x01%byte] (new false)) = new false /\
  trace (handleReceivedData [x01%byte] (new false)) = [no_metadata_warning].
Proof.
  split; [reflexivity|]. split; [reflexivity|].
  destruct (handleReceivedData_total [x01%byte] (new false))
    as (_ & _ & _ & Hdrop).
  exact (Hdrop eq_refl eq_refl).
Defined.

End PairRuns.

(** * Further properties *)

(** ** Chunking *)

(** X2. The chunks [sendFile] cuts, in either manager: joined in index order
    they are the payload; none is empty and none is longer than
    [CHUNK_SIZE]; every chunk but the last has exactly [CHUNK_SIZE]
    bytes. *)
Theorem chunks_partition (f : File) :
  let n := chunk_count (file_size f) in
  concat (WebRTCManager.chunk_of f <$> seq 0 n) = file_bytes f /\
  (forall i, i < n ->
     0 < length (WebRTCManager.chunk_of f i) <= CHUNK_SIZE) /\
  (forall i, S i < n -> length (WebRTCManager.chunk_of f i) = CHUNK_SIZE) /\
  (forall i, ChatWebRTCManager.chunk_of f i = WebRTCManager.chunk_of f i).
Proof.
  intros n. pose proof CHUNK_SIZE_pos as Hpos.
  destruct (chunk_count_ceil (file_size f)) as [Hup Hleast]. fold n in Hup, Hleast.
  unfold file_size in *.
  split; [|split; [|split]].
  - etransitivity; [|apply payload_slices_join].
    f_equal. apply list_fmap_ext. intros k i _.
    apply chunk_of_payload_slice.
  - intros i Hi. rewrite chunk_of_payload_slice, payload_slice_length.
    assert (i * CHUNK_SIZE < length (file_bytes f)) as Hlt.
    { destruct (Nat.le_gt_cases (length (file_bytes f)) (i * CHUNK_SIZE))
        as [Hle|Hgt]; [|exact Hgt].
      specialize (Hleast i Hle). lia. }
    lia.
  - intros i Hi. rewrite chunk_of_payload_slice, payload_slice_length.
    assert (S i * CHUNK_SIZE < length (file_bytes f)) as Hlt.
    { destruct (Nat.le_gt_cases (length (file_bytes f)) (S i * CHUNK_SIZE))
        as [Hle|Hgt]; [|exact Hgt].
      specialize (Hleast (S i) Hle). lia. }
    lia.
  - intros i. rewrite chunk_of_payload_slice, chat_chunk_of_payload_slice.
    reflexivity.
Qed.

(** ** The pair manager: receiving, from any state *)

Section PairReceiveMore.

Import WebRTCManager.
Local Open Scope string_scope.

(** [assembleFile] on a state in step never finds a chunk missing. *)
Lemma assembleFile_in_step (s : t) :
  in_step s ->
  ~ In (console Err "WebRTC: Missing chunk") (trace (assembleFile s)).
Proof.
  intros Hstep. rewrite assembleFile_run.
  destruct (truthy (fileData s)); [|intros [|[]]; discriminate].
  destruct (get_prop (fileData s) "chunks") as [expected|]; [|intros []].
  destruct (get_prop (fileData s) "name") as [n|]; [|intros []].
  destruct (get_prop (fileData s) "type") as [ty|]; [|intros []].
  destruct (strict_eq_num _ expected).
  - rewrite (collect_Some (receivedChunks s) (size (receivedChunks s)) 0).
    + destruct (stringifiable ty && stringifiable n);
        intros [|[]]; discriminate.
    + intros j Hj. apply Hstep. rewrite <- (size_below _ _ Hstep). lia.
  - destruct (stringifiable expected); [intros [|[]]; discriminate|intros []].
Qed.

Lemma handleReceivedData_in_step (data : Data) (s : t) :
  in_step s ->
  let r := handleReceivedData data s in
  (result r = Ok tt \/
   result r = Throw TypeError /\
   exists total,
     get_prop (fileData (state r)) "chunks" = Some total /\
     stringifiable total = false) /\
  in_step (state r) /\
  peer (state r) = peer s /\
  ~ In (console Err "WebRTC: Missing chunk") (trace r).
Proof.
  intros Hstep r. subst r.
  destruct (handleReceivedData_cases data s)
    as [[d ->]|[->|[[Hok ->]|[->|[[Hfd ->]| ->]]]]].
  - split; [left; reflexivity|]. split; [|split; [reflexivity|intros []]].
    intros j. simpl. rewrite lookup_empty.
    split; [intros []; discriminate|lia].
  - split; [left; reflexivity|]. split; [exact Hstep|].
    split; [reflexivity|intros []].
  - destruct (assembleFile_result s) as [Hstate _].
    pose proof (assembleFile_in_step s Hstep) as Hmiss.
    rewrite Hstate. auto.
  - split; [left; reflexivity|]. split; [exact Hstep|].
    split; [reflexivity|]. intros [|[]]; discriminate.
  - destruct (handleBinaryChunk_run data s Hfd) as (total & Htotal & ->).
    destruct (ToNumber total) as [x|] eqn:Hx; cbn [result state trace fst snd].
    + split; [left; reflexivity|]. split; [apply in_step_insert, Hstep|].
      split; [reflexivity|]. intros [|[]]; discriminate.
    + split.
      { right. split; [reflexivity|]. exists total.
        split; [exact Htotal|]. apply ToNumber_None, Hx. }
      split; [apply in_step_insert, Hstep|]. split; [reflexivity|intros []].
  - split; [left; reflexivity|]. split; [exact Hstep|].
    split; [reflexivity|]. intros [|[]]; discriminate.
Qed.

(** X6. Whatever frames arrive, in whatever order, the pair receiver keeps
    its chunk map in step with its index: the map holds exactly the
    indices below [expectedChunkIndex], so it has that many entries; the
    transport is left alone; and [assembleFile] never finds a chunk
    missing. The frames are handled one after the other until one makes
    the handler throw, which is a [TypeError] and happens only under
    metadata whose chunk count cannot be converted to a string. *)
Theorem receive_keeps_in_step (frames : list Data) (s : t) :
  in_step s ->
  let r := receive frames s in
  (result r = Ok tt \/
   result r = Throw TypeError /\
   exists total,
     get_prop (fileData (state r)) "chunks" = Some total /\
     stringifiable total = false) /\
  in_step (state r) /\
  size (receivedChunks (state r)) = expectedChunkIndex (state r) /\
  peer (state r) = peer s /\
  ~ In (console Err "WebRTC: Missing chunk") (trace r).
Proof.
  revert s. induction frames as [|data frames IH]; intros s Hstep r; subst r.
  - simpl. split; [left; reflexivity|]. split; [exact Hstep|].
    split; [apply size_below, Hstep|]. split; [reflexivity|intros []].
  - destruct (handleReceivedData_in_step data s Hstep)
      as (Hres & Hstep1 & Hpeer1 & Hmiss1).
    cbn [receive]. unfold bind.
    destruct (handleReceivedData data s) as [[r1 s1] t1].
    cbv [result state trace] in Hres, Hstep1, Hpeer1, Hmiss1.
    simpl in Hres, Hstep1, Hpeer1, Hmiss1.
    destruct r1 as [[]|e].
    + destruct (IH s1 Hstep1) as (Hres2 & Hstep2 & Hsize2 & Hpeer2 & Hmiss2).
      destruct (receive frames s1) as [[r2 s2] t2].
      cbv [result state trace] in *. simpl in *.
      split; [exact Hres2|]. split; [exact Hstep2|]. split; [exact Hsize2|].
      split; [congruence|].
      intros Hin. apply in_app_or in Hin as [Hin|Hin]; auto.
    + cbv [result state trace]. simpl.
      split; [destruct Hres as [Hres|Hres]; [discriminate|right; exact Hres]|].
      split; [exact Hstep1|]. split; [apply size_below, Hstep1|].
      split; [exact Hpeer1|exact Hmiss1].
Qed.

(** X3. The pair protocol round trip holds from any receiver state: when no
    slice of the payload is itself JSON text (other than [null]), the
    frames of [sendFile], delivered in order to a manager in whatever
    state, make it hand over exactly one file, with the name, type and
    bytes of the original; what the manager held before is gone with the
    start frame. *)
Theorem pair_round_trip_any_state (f : File) (s : t) :
  (forall j, j < chunk_count (file_size f) ->
     binary_like (Spec.payload_slice (file_bytes f) j)) ->
  let r := receive (deliver <$> Spec.pair_sequence f) s in
  result r = Ok tt /\
  omap file_of (trace r) =
    [{| name := JStr (file_name f); type := JStr (file_type f);
        bytes := file_bytes f |}] /\
  peer (state r) = peer s.
Proof.
  intros Hbin r. subst r.
  destruct (pair_sequence_received f s Hbin) as (s' & t & -> & Hfiles & Hpeer & _).
  split; [reflexivity|]. split; [|exact Hpeer].
  unfold trace. cbn [snd]. rewrite omap_app, Hfiles. reflexivity.
Qed.

(** X5. A complete frame that arrives again hands the same file over again:
    the pair receiver keeps the chunks and the metadata after assembly. *)
Theorem fileComplete_again (f : File) (s : t) :
  (forall j, j < chunk_count (file_size f) ->
     binary_like (Spec.payload_slice (file_bytes f) j)) ->
  let file := {| name := JStr (file_name f); type := JStr (file_type f);
                 bytes := file_bytes f |} in
  let r := receive (deliver <$> (Spec.pair_sequence f
                                 ++ [FText fileComplete_text])%list) s in
  result r = Ok tt /\ omap file_of (trace r) = [file; file].
Proof.
  intros Hbin file r. subst r.
  destruct (pair_sequence_received f s Hbin)
    as (s' & t & Hrun & Hfiles & _ & Hasm).
  assert (receive (deliver <$> (Spec.pair_sequence f
                                ++ [FText fileComplete_text])%list) s
          = (Ok tt, s',
             ((t ++ [onFileReceived file]) ++ [onFileReceived file])%list))
    as ->.
  { rewrite fmap_app, receive_app, Hrun.
    cbn [fmap list_fmap receive]. unfold bind at 1.
    rewrite receive_fileComplete by (rewrite Hasm; reflexivity).
    rewrite Hasm. unfold ret.
    cbn [app]. rewrite ?app_nil_r. reflexivity. }
  split; [reflexivity|].
  unfold trace. cbn [snd]. rewrite !omap_app, Hfiles. reflexivity.
Qed.

End PairReceiveMore.

(** ** The pair manager: sending on a channel that may fail *)

Section PairSendMore.

Import WebRTCManager.

Lemma set_peer_set_peer (a b : option Peer) (s : t) :
  set_peer a (set_peer b s) = set_peer a s.
Proof. destruct s; reflexivity. Qed.

Lemma outbox_snoc (p' p : Peer) (f : Frame) (ok : bool) :
  calls p' = calls p ++ [(f, ok)] ->
  outbox p' = outbox p ++ (if ok then [f] else []).
Proof.
  intros Hcalls. unfold outbox. rewrite Hcalls, filter_app, map_app.
  f_equal. destruct ok; reflexivity.
Qed.

(** One [peer.send]: the frame is accepted and the call returns, or the
    call throws and the frame is not sent. *)
Lemma send_any (f : Frame) (s : t) (p : Peer) :
  peer s = Some p ->
  exists p' r,
    send f s = (r, set_peer (Some p') s, []) /\
    connected p' = connected p /\
    ((r = Ok tt /\ outbox p' = outbox p ++ [f]) \/
     (r = Throw SendError /\ outbox p' = outbox p)).
Proof.
  intros Hp. unfold send, bind, get, put, ret, throw. rewrite Hp.
  unfold Peer_send. destruct (faults p) as [|[] later]; simpl.
  - eexists _, _. split; [reflexivity|]. split; [reflexivity|]. left.
    split; [reflexivity|]. apply (outbox_snoc _ p f true). reflexivity.
  - eexists _, _. split; [reflexivity|]. split; [reflexivity|]. right.
    split; [reflexivity|].
    etransitivity; [apply (outbox_snoc _ p f false); reflexivity|].
    apply app_nil_r.
  - eexists _, _. split; [reflexivity|]. split; [reflexivity|]. left.
    split; [reflexivity|]. apply (outbox_snoc _ p f true). reflexivity.
Qed.

Lemma send_chunks_any (f : File) (chunks todo i : nat) (s : t) (p : Peer) :
  peer s = Some p ->
  exists p' r t l,
    send_chunks f chunks i todo s = (r, set_peer (Some p') s, t) /\
    connected p' = connected p /\
    outbox p' = outbox p ++ l /\
    ((r = Ok tt /\ l = Spec.pair_rounds f chunks i todo) \/
     (r = Throw SendError /\
      exists rest, rest <> [] /\
                   (l ++ rest)%list = Spec.pair_rounds f chunks i todo)).
Proof.
  revert i s p. induction todo as [|todo IH]; intros i s p Hp.
  - exists p, (Ok tt), [], []. split.
    + simpl. unfold ret. destruct s; simpl in *; subst; reflexivity.
    + split; [reflexivity|]. split; [by rewrite app_nil_r|]. left. auto.
  - cbn [send_chunks]. rewrite chunk_of_payload_slice.
    set (meta := FText (chunkStart_text i
                   (length (Spec.payload_slice (file_bytes f) i)) chunks)).
    set (bin := FBinary (Spec.payload_slice (file_bytes f) i)).
    assert (Spec.pair_rounds f chunks i (S todo)
            = meta :: bin :: Spec.pair_rounds f chunks (S i) todo) as Hrounds
      by reflexivity.
    rewrite Hrounds.
    destruct (send_any meta s p Hp) as (p1 & r1 & Hs1 & Hcon1 & Hout1).
    unfold bind at 1. rewrite Hs1.
    destruct Hout1 as [[-> Hout1]|[-> Hout1]].
    2:{ exists p1, (Throw SendError), [], []. split; [reflexivity|].
        split; [exact Hcon1|]. split; [by rewrite app_nil_r|]. right.
        split; [reflexivity|]. eexists. split; [|reflexivity]. discriminate. }
    destruct (send_any bin (set_peer (Some p1) s) p1 eq_refl)
      as (p2 & r2 & Hs2 & Hcon2 & Hout2).
    rewrite set_peer_set_peer in Hs2.
    unfold bind at 1. rewrite Hs2.
    destruct Hout2 as [[-> Hout2]|[-> Hout2]].
    2:{ exists p2, (Throw SendError), [], [meta]. split; [reflexivity|].
        split; [congruence|]. split; [congruence|]. right.
        split; [reflexivity|]. eexists. split; [|reflexivity]. discriminate. }
    destruct (IH (S i) (set_peer (Some p2) s) p2 eq_refl)
      as (p3 & r3 & t3 & l3 & Hs3 & Hcon3 & Hout3 & Hcase).
    rewrite set_peer_set_peer in Hs3.
    unfold bind at 1. unfold emit at 1. rewrite Hs3.
    exists p3, r3. eexists. exists (meta :: bin :: l3).
    split; [reflexivity|]. split; [congruence|]. split.
    { rewrite Hout3, Hout2, Hout1, <- !app_assoc. reflexivity. }
    destruct Hcase as [[-> ->]|[-> (rest & Hrest & Hl)]].
    + left. auto.
    + right. split; [reflexivity|]. exists rest. split; [exact Hrest|].
      cbn [app]. rewrite Hl. reflexivity.
Qed.

(** X7. [sendFile] on a connected peer, whatever the channel does. The
    metadata is recorded, and the frames the channel accepted are the
    beginning of the protocol sequence, in order. Either every send call
    returned, [sendFile] returns and the whole sequence was sent; or
    [sendFile] stops at the first send that throws: what was sent is a
    proper prefix, the failure is logged last, and the error is thrown
    on. *)
Theorem sendFile_stops_at_failure (f : File) (s : t) (p : Peer) :
  peer s = Some p -> connected p = true ->
  let r := sendFile f s in
  exists p' l,
    peer (state r) = Some p' /\
    fileData (state r) = fileData_of f (chunk_count (file_size f)) /\
    outbox p' = outbox p ++ l /\
    ((result r = Ok tt /\ l = Spec.pair_sequence f) \/
     (result r = Throw SendError /\
      (exists rest, rest <> [] /\ (l ++ rest)%list = Spec.pair_sequence f) /\
      last (trace r) = Some (console Err "WebRTC: File transfer failed:"))).
Proof.
  intros Hp Hcon r. subst r.
  set (chunks := chunk_count (file_size f)).
  set (s0 := set_fileData (fileData_of f chunks) s).
  assert (sendFile f s =
          try_catch
            (send (FText (fileStart_text f chunks));;
             send_chunks f chunks 0 chunks;;
             send (FText fileComplete_text))%js
            (fun e => emit (console Err "WebRTC: File transfer failed:");;
                      throw e)%js s0) as ->.
  { unfold sendFile. unfold bind at 1. unfold get at 1.
    rewrite Hp. cbn [from_option]. rewrite Hcon. cbn [negb].
    unfold bind at 1. unfold modify at 1. fold chunks. fold s0.
    destruct (try_catch _ _ s0) as [[r s'] t]. reflexivity. }
  assert (Spec.pair_sequence f
          = FText (fileStart_text f chunks)
            :: (Spec.pair_rounds f chunks 0 chunks
                ++ [FText fileComplete_text])%list) as Hseq by reflexivity.
  rewrite Hseq.
  match goal with |- context [try_catch ?b ?h s0] =>
    set (body := b); set (handler := h) end.
  assert (exists p' l r t,
            try_catch body handler s0 = (r, set_peer (Some p') s0, t) /\
            outbox p' = outbox p ++ l /\
            ((r = Ok tt /\
              l = FText (fileStart_text f chunks)
                  :: (Spec.pair_rounds f chunks 0 chunks
                      ++ [FText fileComplete_text])%list) \/
             (r = Throw SendError /\
              (exists rest,
                 rest <> [] /\
                 (l ++ rest)%list
                 = FText (fileStart_text f chunks)
                   :: (Spec.pair_rounds f chunks 0 chunks
                       ++ [FText fileComplete_text])%list) /\
              last t = Some (console Err "WebRTC: File transfer failed:"))))
    as (p' & l & r & t & -> & Hout & Hcase).
  2:{ exists p', l. cbn [state result trace fst snd].
      split; [reflexivity|]. split; [reflexivity|]. split; [exact Hout|].
      exact Hcase. }
  subst body handler. unfold try_catch.
  destruct (send_any (FText (fileStart_text f chunks)) s0 p Hp)
    as (p1 & r1 & Hs1 & Hcon1 & Hout1).
  unfold bind at 1. rewrite Hs1.
  destruct Hout1 as [[-> Hout1]|[-> Hout1]].
  2:{ exists p1, [], (Throw SendError). eexists.
      split; [reflexivity|]. split; [by rewrite app_nil_r|].
      right. split; [reflexivity|].
      split; [|reflexivity]. eexists. split; [|reflexivity]. discriminate. }
  destruct (send_chunks_any f chunks chunks 0 (set_peer (Some p1) s0) p1 eq_refl)
    as (p2 & r2 & t2 & l2 & Hs2 & Hcon2 & Hout2 & Hcase).
  rewrite set_peer_set_peer in Hs2.
  unfold bind at 1. rewrite Hs2.
  destruct Hcase as [[-> ->]|[-> (rest & Hrest & Hl)]].
  2:{ exists p2, (FText (fileStart_text f chunks) :: l2), (Throw SendError).
      eexists. split; [reflexivity|].
      split; [rewrite Hout2, Hout1, <- app_assoc; reflexivity|].
      right. split; [reflexivity|]. split.
      - exists (rest ++ [FText fileComplete_text])%list. split.
        + destruct rest; [congruence|discriminate].
        + cbn [app]. rewrite app_assoc, Hl. reflexivity.
      - cbn [app]. apply last_snoc. }
  destruct (send_any (FText fileComplete_text) (set_peer (Some p2) s0) p2 eq_refl)
    as (p3 & r3 & Hs3 & Hcon3 & Hout3).
  rewrite set_peer_set_peer in Hs3. rewrite Hs3.
  destruct Hout3 as [[-> Hout3]|[-> Hout3]].
  - exists p3, (FText (fileStart_text f chunks)
                :: Spec.pair_rounds f chunks 0 chunks
                ++ [FText fileComplete_text])%list, (Ok tt).
    eexists. split; [reflexivity|].
    split; [|left; auto].
    rewrite Hout3, Hout2, Hout1, <- !app_assoc. reflexivity.
  - exists p3, (FText (fileStart_text f chunks)
                :: Spec.pair_rounds f chunks 0 chunks)%list, (Throw SendError).
    eexists. split; [reflexivity|].
    split; [rewrite Hout3, Hout2, Hout1, <- !app_assoc; reflexivity|].
    right. split; [reflexivity|]. split.
    + exists [FText fileComplete_text]. split; [discriminate|reflexivity].
    + cbn [app]. apply last_snoc.
Qed.

End PairSendMore.

(** ** The pair manager: signalling and teardown *)

Section PairLifecycle.

Import WebRTCManager.

(** X8. [connectToPeer]: without a transport it throws and changes nothing.
    With a live transport, metadata that came with the envelope replaces
    the recorded one, before the descriptor is signalled, and the chunk
    map and index stay as they were; it returns if [peer.signal] does,
    and otherwise logs, disarms the timeout and throws what [peer.signal]
    threw. A frame that is not JSON text, arriving after metadata came
    this way, is stored under the current index and not dropped, with no
    start frame needed; the handler then returns if the chunk count of
    that metadata can be converted to a string, and throws a [TypeError]
    if not. *)
Theorem connectToPeer_metadata (metadata : jsval) (refusal : option Error)
    (s : t) :
  (peer s = None ->
   connectToPeer metadata refusal s
     = (Throw (ErrorMsg "Peer not initialized"), s, [])) /\
  (forall p,
     peer s = Some p -> destroyed p = false ->
     connectToPeer metadata refusal s
       = match refusal with
         | None =>
             (Ok tt, if truthy metadata then set_fileData metadata s else s,
              [])
         | Some e =>
             (Throw e,
              set_connectionTimeout false
                (if truthy metadata then set_fileData metadata s else s),
              [console Err "WebRTC: Failed to signal peer:"])
         end) /\
  (forall p data,
     peer s = Some p -> destroyed p = false ->
     truthy metadata = true -> binary_like data ->
     let r := handleReceivedData data
                (state (connectToPeer metadata refusal s)) in
     receivedChunks (state r)
       = <[expectedChunkIndex s := data]> (receivedChunks s) /\
     expectedChunkIndex (state r) = S (expectedChunkIndex s) /\
     fileData (state r) = metadata /\
     ~ In no_metadata_warning (trace r) /\
     exists total,
       get_prop metadata "chunks" = Some total /\
       result r = if stringifiable total then Ok tt else Throw TypeError).
Proof.
  assert (forall p, peer s = Some p -> destroyed p = false ->
            connectToPeer metadata refusal s
            = match refusal with
              | None =>
                  (Ok tt,
                   if truthy metadata then set_fileData metadata s else s,
                   [])
              | Some e =>
                  (Throw e,
                   set_connectionTimeout false
                     (if truthy metadata then set_fileData metadata s
                      else s),
                   [console Err "WebRTC: Failed to signal peer:"])
              end) as Hlive.
  { intros p Hp Hdes. unfold connectToPeer, Peer_signal.
    rewrite bind_get, Hp, Hdes.
    destruct refusal as [e|], (truthy metadata); reflexivity. }
  split; [|split; [exact Hlive|]].
  - intros Hp. unfold connectToPeer. rewrite bind_get, Hp. reflexivity.
  - intros p data Hp Hdes Htruthy Hbin r. subst r.
    remember (state (connectToPeer metadata refusal s)) as s1 eqn:Hs1.
    rewrite (Hlive p Hp Hdes), Htruthy in Hs1.
    assert (truthy (fileData s1) = true) as Hfd
      by (subst s1; destruct refusal; exact Htruthy).
    assert (fileData s1 = metadata) as Hmeta
      by (subst s1; destruct refusal; reflexivity).
    assert (receivedChunks s1 = receivedChunks s) as Hchunks
      by (subst s1; destruct refusal; reflexivity).
    assert (expectedChunkIndex s1 = expectedChunkIndex s) as Hindex
      by (subst s1; destruct refusal; reflexivity).
    rewrite (handleReceivedData_binary data _ Hbin), Hfd.
    destruct (handleBinaryChunk_run data s1 Hfd) as (total & Htotal & ->).
    rewrite Hmeta in Htotal. rewrite Hchunks, Hindex.
    destruct (ToNumber total) as [x|] eqn:Hx;
      cbn [result state trace fst snd receivedChunks expectedChunkIndex
           fileData set_receive].
    + split; [reflexivity|]. split; [reflexivity|]. split; [exact Hmeta|].
      split; [intros [|[]]; discriminate|].
      exists total. split; [exact Htotal|].
      destruct (stringifiable total) eqn:Hs; [reflexivity|].
      apply ToNumber_None in Hs. congruence.
    + split; [reflexivity|]. split; [reflexivity|]. split; [exact Hmeta|].
      split; [intros []|].
      exists total. split; [exact Htotal|].
      rewrite (proj1 (ToNumber_None total) Hx). reflexivity.
Qed.

(** X9. A destroyed pair manager: [isConnected] is false, [sendFile] and
    [connectToPeer] throw and change nothing, and a stray chunk is dropped
    with the warning, whatever the manager held before [destroy()]. *)
Theorem destroyed_manager_refuses (s : t) (f : File) (metadata : jsval)
    (refusal : option Error) (data : Data) :
  let s' := state (destroy s) in
  isConnected s' = false /\
  sendFile f s' = (Throw (ErrorMsg "Peer not connected"), s', []) /\
  connectToPeer metadata refusal s'
    = (Throw (ErrorMsg "Peer not initialized"), s', []) /\
  (binary_like data ->
   handleReceivedData data s' = (Ok tt, s', [no_metadata_warning])).
Proof.
  intros s'. subst s'. rewrite pair_destroy_run. cbn [state fst snd].
  split; [reflexivity|]. split; [reflexivity|]. split; [reflexivity|].
  intros Hbin. rewrite (handleReceivedData_binary data _ Hbin). reflexivity.
Qed.

End PairLifecycle.

(** ** The broadcast manager: teardown *)

Section ChatLifecycle.

Import ChatWebRTCManager.

Lemma forEach_try_send_no_peers (fs : list Frame) (failure : string)
    (targets : list string) (s : t) :
  peers s = [] ->
  forEach targets (try_send fs failure) s = (Ok tt, s, []).
Proof.
  intros Hpeers. induction targets as [|id targets IH]; [reflexivity|].
  cbn [forEach]. unfold bind at 1.
  assert (try_send fs failure id s = (Ok tt, s, [])) as ->.
  { unfold try_send. rewrite bind_get, Hpeers. reflexivity. }
  rewrite IH. reflexivity.
Qed.

(** X10. A destroyed broadcast manager, host or subscriber: [isConnected] is
    false and no subscriber is counted; [sendMessage] makes no send call,
    because no transport is left, yet still echoes the message locally;
    and on a host an answer that arrives now is refused, its transport
    being gone. *)
Theorem destroyed_chat_sends_nothing (s : t) (id : string) (now : nat)
    (body : string) (targets : option (list string))
    (answerData : ChatSignalData) (refusal : option Error)
    (sid name : string) :
  let s' := state (destroy s) in
  isConnected s' = false /\
  getSubscriberCount s' = 0 /\
  sendMessage id now body targets s' =
    (Ok tt, s',
     [onMessage
        {| msg_id := JStr id; content := Plain body; timestamp := now;
           sender := if isHost s then host else subscriber;
           msg_subscriberId :=
             if isHost s then None else Some (subscriberId s);
           msg_type := text; msg_fileData := None |}]) /\
  (isHost s = true ->
   sig_subscriberId answerData = Some sid -> sid <> ""%string ->
   sig_subscriberName answerData = Some name -> name <> ""%string ->
   processAnswer answerData now id refusal s'
     = (Throw (ErrorMsg "Peer not found for subscriber"), s', [])).
Proof.
  intros s'. subst s'. rewrite chat_destroy_run. cbn [state fst snd].
  set (s' := {| isHost := isHost s; peers := [] |}).
  split; [unfold isConnected; cbn; destruct (isHost s); reflexivity|].
  split; [reflexivity|]. split.
  - unfold sendMessage. rewrite bind_get.
    change (isHost s') with (isHost s).
    change (subscriberId s') with (subscriberId s).
    destruct (isHost s).
    + unfold bind at 1.
      rewrite (forEach_try_send_no_peers _ _ _ s' eq_refl). reflexivity.
    + reflexivity.
  - intros Hhost Hsid Hsid' Hname Hname'.
    unfold processAnswer. rewrite bind_get.
    change (isHost s') with (isHost s). rewrite Hhost, Hsid, Hname.
    cbn [negb]. rewrite (missing_Some sid Hsid'), (missing_Some name Hname').
    reflexivity.
Qed.

End ChatLifecycle.

(** ** The broadcast manager: sending, more *)

Section ChatSendMore.

Import ChatWebRTCManager.

(** A [targets.forEach] of the host, whatever the frames and the
    channels: it returns, only transports change, those outside the
    targets do not, and every event is a logged send failure. *)
Lemma forEach_try_send_any (fs : list Frame) (failure : string)
    (targets : list string) (s : t) :
  exists s' t,
    forEach targets (try_send fs failure) s = (Ok tt, s', t) /\
    s' = set_peers (peers s') s /\
    (forall other, other ∉ targets ->
       Map_get String.eqb other (peers s')
       = Map_get String.eqb other (peers s)) /\
    (forall k, live s' k = live s k) /\
    forallb is_console t = true.
Proof.
  revert s. induction targets as [|id targets IH]; intros s.
  - exists s, []. simpl. unfold ret.
    split; [reflexivity|]. split; [by rewrite set_peers_same|]. auto.
  - cbn [forEach]. unfold bind at 1.
    destruct (try_send_spec fs failure id s)
      as [[Hdead ->] | (p & p' & extra & t & Hp & Hcon & -> & Hc & Hcon' & _ & _ & _ & Ht)].
    + destruct (IH s) as (s' & t' & -> & Hsame & Hother & Hlive & Ht').
      exists s', t'. split; [reflexivity|]. split; [exact Hsame|].
      split; [|auto].
      intros other Hni. apply Hother. intros Hin. apply Hni.
      by apply list_elem_of_further.
    + set (s1 := set_peers _ s).
      destruct (IH s1) as (s' & t' & -> & Hsame & Hother & Hlive & Ht').
      exists s', (t ++ t')%list. split; [reflexivity|].
      split; [rewrite Hsame at 1; reflexivity|]. split; [|split].
      * intros other Hni.
        rewrite Hother
          by (intros Hin; apply Hni; by apply list_elem_of_further).
        subst s1. cbn [peers set_peers]. apply Map_get_set_ne.
        intros ->. apply Hni. apply list_elem_of_here.
      * intros k. rewrite Hlive. subst s1. apply (live_set s id k p p' Hp).
        congruence.
      * rewrite forallb_app, Ht, Ht'. reflexivity.
Qed.

Lemma omap_progress_console (t : list Event) :
  forallb is_console t = true -> omap progress_of t = [].
Proof.
  induction t as [|e t IH]; [reflexivity|].
  cbn [forallb]. intros Ht. apply andb_prop in Ht as [He Ht].
  destruct e; try discriminate. cbn. apply IH, Ht.
Qed.

Lemma chat_send_chunks_any (fileId : string) (f : File)
    (targets : list string) (total todo i : nat) (s : t) :
  exists s' t,
    send_chunks fileId f targets total i todo s = (Ok tt, s', t) /\
    s' = set_peers (peers s') s /\
    (forall other, other ∉ targets ->
       Map_get String.eqb other (peers s')
       = Map_get String.eqb other (peers s)) /\
    (forall k, live s' k = live s k) /\
    omap progress_of t = replicate todo (JStr (file_name f)) /\
    omap message_of t = [].
Proof.
  revert i s. induction todo as [|todo IH]; intros i s.
  - exists s, []. simpl. unfold ret.
    split; [reflexivity|]. split; [by rewrite set_peers_same|]. auto.
  - cbn [send_chunks]. unfold bind at 1.
    destruct (forEach_try_send_any
                [FText (fileChunk_text fileId i total); FBinary (chunk_of f i)]
                "Chat: Failed to send file chunk to subscriber" targets s)
      as (s1 & t1 & -> & Hsame1 & Hother1 & Hlive1 & Ht1).
    unfold bind at 1. unfold emit at 1.
    destruct (IH (S i) s1) as (s2 & t2 & -> & Hsame2 & Hother2 & Hlive2 & Hp2 & Hm2).
    eexists s2, _. split; [reflexivity|].
    split; [rewrite Hsame2 at 1; rewrite Hsame1; reflexivity|].
    split; [intros other Hni; rewrite Hother2, Hother1 by exact Hni; reflexivity|].
    split; [intros k; rewrite Hlive2, Hlive1; reflexivity|].
    split.
    + rewrite omap_app, (omap_progress_console _ Ht1). cbn. rewrite Hp2.
      reflexivity.
    + rewrite omap_app, (omap_message_console _ Ht1). cbn. exact Hm2.
Qed.

(** X11. [sendFile] of the broadcast manager. A subscriber is refused, with
    nothing done. On a host it never throws, whatever the channels do and
    whoever the targets are: the file message is shown locally first and
    once, one progress notification per chunk follows, only transports
    change, and the transports of subscribers that are no target are not
    touched. *)
Theorem sendFile_host_never_throws (fileId : string) (now : nat) (f : File)
    (targets : option (list string)) (s : t) :
  let r := sendFile fileId now f targets s in
  let shown :=
    {| msg_id := JStr fileId; content := FileLabel (JStr (file_name f));
       timestamp := now; sender := host; msg_subscriberId := None;
       msg_type := file;
       msg_fileData :=
         Some {| att_name := JStr (file_name f);
                 att_size := JNum (Num.of_nat (file_size f));
                 att_type := JStr (file_type f); url := None |} |} in
  (isHost s = false ->
   r = (Throw (ErrorMsg "Only host can send files"), s, [])) /\
  (isHost s = true ->
   result r = Ok tt /\
   head (trace r) = Some (onMessage shown) /\
   omap message_of (trace r) = [shown] /\
   omap progress_of (trace r)
     = replicate (chunk_count (file_size f)) (JStr (file_name f)) /\
   state r = set_peers (peers (state r)) s /\
   (forall other, other ∉ targets_of targets s ->
      Map_get String.eqb other (peers (state r))
      = Map_get String.eqb other (peers s)) /\
   (forall k, live (state r) k = live s k)).
Proof.
  intros r shown. subst r. split.
  - intros Hhost. unfold sendFile. rewrite bind_get, Hhost. reflexivity.
  - intros Hhost.
    set (total := chunk_count (file_size f)).
    set (ts := targets_of targets s).
    destruct (forEach_try_send_any
                [FText (fileStart_text fileId f total)]
                "Chat: Failed to send file metadata to subscriber" ts s)
      as (s1 & t1 & Hrun1 & Hsame1 & Hother1 & Hlive1 & Ht1).
    destruct (chat_send_chunks_any fileId f ts total total 0 s1)
      as (s2 & t2 & Hrun2 & Hsame2 & Hother2 & Hlive2 & Hp2 & Hm2).
    destruct (forEach_try_send_any
                [FText (fileComplete_text fileId)]
                "Chat: Failed to send file completion to subscriber" ts s2)
      as (s3 & t3 & Hrun3 & Hsame3 & Hother3 & Hlive3 & Ht3).
    assert (sendFile fileId now f targets s
            = (Ok tt, s3, onMessage shown :: (t1 ++ t2 ++ t3)%list)) as ->.
    { unfold sendFile. rewrite bind_get, Hhost. cbn [negb].
      fold total. fold ts. unfold bind at 1. unfold emit at 1.
      unfold bind at 1. rewrite Hrun1.
      unfold bind at 1. rewrite Hrun2. rewrite Hrun3. reflexivity. }
    cbn [result state trace fst snd].
    split; [reflexivity|]. split; [reflexivity|].
    split.
    { cbn. rewrite !omap_app, (omap_message_console _ Ht1), Hm2,
        (omap_message_console _ Ht3). reflexivity. }
    split.
    { cbn. rewrite !omap_app, (omap_progress_console _ Ht1), Hp2,
        (omap_progress_console _ Ht3). cbn. apply app_nil_r. }
    split; [rewrite Hsame3 at 1; rewrite Hsame2, Hsame1; reflexivity|].
    split.
    + intros other Hni. rewrite Hother3, Hother2, Hother1 by exact Hni.
      reflexivity.
    + intros k. rewrite Hlive3, Hlive2, Hlive1. reflexivity.
Qed.

(** X12. A message of the host touches only the transports it is addressed
    to: for every other subscriber the transport, with all the calls made
    on it, is as before. Ids that name no transport are skipped, and the
    call returns in any case. *)
Theorem sendMessage_targets_only (id : string) (now : nat) (body : string)
    (targets : option (list string)) (s : t) :
  isHost s = true ->
  let r := sendMessage id now body targets s in
  result r = Ok tt /\
  state r = set_peers (peers (state r)) s /\
  (forall other, other ∉ targets_of targets s ->
     Map_get String.eqb other (peers (state r))
     = Map_get String.eqb other (peers s)).
Proof.
  intros Hhost r. subst r.
  destruct (forEach_try_send_any
              [FText (message_text id body now host None)]
              "Chat: Failed to send message to subscriber"
              (targets_of targets s) s)
    as (s1 & t1 & Hrun1 & Hsame1 & Hother1 & _ & _).
  assert (exists t, sendMessage id now body targets s = (Ok tt, s1, t))
    as [t ->].
  { eexists. unfold sendMessage. rewrite bind_get, Hhost.
    unfold bind at 1. rewrite Hrun1. reflexivity. }
  cbn [result state fst snd]. split; [reflexivity|].
  split; [exact Hsame1|exact Hother1].
Qed.

Lemma send_host_any (f : Frame) (s : t) (p : Peer) :
  hostPeer s = Some p ->
  exists p' ok,
    send_host f s
      = (if ok : bool then Ok tt else Throw SendError,
         set_hostPeer (Some p') s, []) /\
    calls p' = (calls p ++ [(f, ok)])%list.
Proof.
  intros Hp. unfold send_host, bind, get, put, ret, throw. rewrite Hp.
  unfold Peer_send. destruct (faults p) as [|[] later]; simpl.
  - eexists _, true. split; reflexivity.
  - eexists _, false. split; reflexivity.
  - eexists _, true. split; reflexivity.
Qed.

(** X13. [sendMessage] of a subscriber. It never throws and ignores any target
    list. With an open transport to the host it makes exactly one send
    call, of the message with the subscriber's id; a send that throws is
    logged. Without one it sends nothing. Either way the message is
    echoed locally once, last. *)
Theorem sendMessage_subscriber (id : string) (now : nat) (body : string)
    (targets : option (list string)) (s : t) :
  isHost s = false ->
  let r := sendMessage id now body targets s in
  let frame :=
    FText (message_text id body now subscriber (Some (subscriberId s))) in
  let echo :=
    onMessage
      {| msg_id := JStr id; content := Plain body; timestamp := now;
         sender := subscriber; msg_subscriberId := Some (subscriberId s);
         msg_type := text; msg_fileData := None |} in
  result r = Ok tt /\
  last (trace r) = Some echo /\
  state r = set_hostPeer (hostPeer (state r)) s /\
  match hostPeer s with
  | Some p =>
      if connected p then
        exists p' ok,
          hostPeer (state r) = Some p' /\
          calls p' = (calls p ++ [(frame, ok)])%list /\
          trace r =
            if ok then [echo]
            else [console Err "Chat: Failed to send message to host:"; echo]
      else state r = s /\ trace r = [echo]
  | None => state r = s /\ trace r = [echo]
  end.
Proof.
  intros Hhost r frame echo. subst r.
  assert (s = set_hostPeer (hostPeer s) s) as Hs by (by destruct s).
  assert (from_option connected false (hostPeer s) = false ->
          sendMessage id now body targets s = (Ok tt, s, [echo])) as Hidle.
  { intros Hoff. unfold sendMessage. rewrite bind_get, Hhost, Hoff.
    reflexivity. }
  destruct (hostPeer s) as [p|] eqn:Hp; cbn [from_option] in Hidle.
  2:{ rewrite (Hidle eq_refl). cbn. rewrite Hp. auto. }
  destruct (connected p) eqn:Hcon.
  2:{ rewrite (Hidle eq_refl). cbn. rewrite Hp. auto. }
  destruct (send_host_any frame s p Hp) as (p' & ok & Hsend & Hcalls).
  assert (sendMessage id now body targets s
          = (Ok tt, set_hostPeer (Some p') s,
             if ok then [echo]
             else [console Err "Chat: Failed to send message to host:"; echo]))
    as ->.
  { unfold sendMessage. rewrite bind_get, Hhost, Hp. cbn [from_option].
    rewrite Hcon. fold frame. fold echo.
    unfold bind at 1. unfold try_catch. rewrite Hsend.
    destruct ok; reflexivity. }
  cbn [result state trace fst snd hostPeer set_hostPeer].
  split; [reflexivity|]. split; [destruct ok; reflexivity|].
  split; [reflexivity|]. exists p', ok. auto.
Qed.

End ChatSendMore.

(** ** The broadcast manager: membership *)

Section MapDelete.

Context {V : Type}.
Implicit Type m : list (string * V).

Lemma Map_get_delete_ne m k k' :
  k <> k' ->
  Map_get String.eqb k' (Map_delete String.eqb k m) = Map_get String.eqb k' m.
Proof.
  intros Hne. induction m as [|[k0 v0] m IH]; simpl; [reflexivity|].
  destruct (String.eqb_spec k k0) as [->|Hk]; simpl.
  - destruct (String.eqb_spec k' k0); [congruence|reflexivity].
  - destruct (String.eqb k' k0); [reflexivity|exact IH].
Qed.

Lemma Map_delete_absent m k :
  Map_get String.eqb k m = None -> Map_delete String.eqb k m = m.
Proof.
  induction m as [|[k0 v0] m IH]; simpl; [reflexivity|].
  destruct (String.eqb k k0); [discriminate|]. intros Hm. by rewrite IH.
Qed.

Lemma Map_delete_length m k :
  length (Map_delete String.eqb k m)
  = length m - (if Map_has String.eqb k m then 1 else 0).
Proof.
  unfold Map_has. induction m as [|[k0 v0] m IH]; simpl; [reflexivity|].
  destruct (String.eqb k k0); simpl; [lia|].
  rewrite IH. destruct (Map_get String.eqb k m) eqn:Hm; [|lia].
  destruct m; [discriminate|simpl; lia].
Qed.

End MapDelete.

Section ChatMembershipMore.

Import ChatWebRTCManager.

Lemma removeSubscriber_run (id : string) (s : t) :
  removeSubscriber id s =
    (Ok tt,
     set_peers (Map_delete String.eqb id (peers s))
       (set_subscribers (Map_delete String.eqb id (subscribers s)) s),
     if Map_has String.eqb id (subscribers s) then [onSubscriberLeft id]
     else []).
Proof.
  unfold removeSubscriber. rewrite bind_get. unfold Map_has.
  destruct (Map_get String.eqb id (subscribers s)) as [sub|] eqn:Hsub.
  - unfold bind at 1. unfold bind at 1. unfold modify at 1. unfold emit at 1.
    rewrite bind_get. cbn [peers set_subscribers].
    destruct (Map_get String.eqb id (peers s)) as [p|] eqn:Hp.
    + reflexivity.
    + unfold ret. rewrite (Map_delete_absent _ _ Hp).
      destruct s; reflexivity.
  - unfold bind at 1. unfold ret at 1. rewrite bind_get.
    rewrite (Map_delete_absent _ _ Hsub).
    destruct (Map_get String.eqb id (peers s)) as [p|] eqn:Hp.
    + unfold modify. destruct s; reflexivity.
    + unfold ret. rewrite (Map_delete_absent _ _ Hp). destruct s; reflexivity.
Qed.

(** X14. [removeSubscriber], which the ['error'] and ['close'] handlers of a
    host transport call. It never throws; afterwards the id names neither
    a subscriber nor a transport, and every other entry of both maps is as
    before; "subscriber left" is emitted exactly when the id was a
    subscriber, and the count goes down by one then. A second call, as
    made when ['close'] follows ['error'], changes nothing and emits
    nothing. *)
Theorem removeSubscriber_spec (id : string) (s : t) :
  NoDup (Map_keys (subscribers s)) -> NoDup (Map_keys (peers s)) ->
  let r := removeSubscriber id s in
  let was := Map_has String.eqb id (subscribers s) in
  result r = Ok tt /\
  trace r = (if was then [onSubscriberLeft id] else []) /\
  Map_get String.eqb id (subscribers (state r)) = None /\
  Map_get String.eqb id (peers (state r)) = None /\
  (forall other, other <> id ->
     Map_get String.eqb other (subscribers (state r))
       = Map_get String.eqb other (subscribers s) /\
     Map_get String.eqb other (peers (state r))
       = Map_get String.eqb other (peers s)) /\
  getSubscriberCount (state r)
    = getSubscriberCount s - (if was then 1 else 0) /\
  removeSubscriber id (state r) = (Ok tt, state r, []).
Proof.
  intros Hsubs Hpeers r was. subst r was.
  rewrite removeSubscriber_run.
  cbn [result state trace fst snd peers subscribers set_peers set_subscribers].
  pose proof (Map_get_delete_eq (subscribers s) id Hsubs) as Hgone.
  pose proof (Map_get_delete_eq (peers s) id Hpeers) as Hgone'.
  split; [reflexivity|]. split; [reflexivity|].
  split; [exact Hgone|]. split; [exact Hgone'|].
  split; [|split].
  - intros other Hother. split; apply Map_get_delete_ne; congruence.
  - unfold getSubscriberCount. cbn [subscribers set_peers set_subscribers].
    apply Map_delete_length.
  - rewrite removeSubscriber_run.
    cbn [peers subscribers set_peers set_subscribers].
    unfold Map_has. rewrite Hgone.
    rewrite (Map_delete_absent _ _ Hgone), (Map_delete_absent _ _ Hgone').
    reflexivity.
Qed.

(** X15. The handshake, end to end. A host draws an id and stores the pending
    transport; the subscriber takes the id from the offer; the host
    processes the answer the subscriber resolves with. With a non-empty
    subscriber name the host records the subscriber under the id, with
    that name, and announces it once. With an empty name the answer is
    refused as invalid, and the pending transport stays in the host's map,
    so the host goes on reporting [isConnected]. All this with each
    transport taking the descriptor it is signalled; where [peer.signal]
    throws instead, the call throws the same: the subscriber has then
    taken the id and kept no transport, and the host has recorded no
    subscriber. *)
Theorem handshake (h : t) (id name d1 d2 welcomeId : string)
    (faults faults' : list bool) (now : nat) :
  isHost h = true -> id <> ""%string ->
  let h1 := state (createOffer id faults h) in
  let sub := state (createAnswer (offer_of id d1) faults' None
                      (new false (Some name))) in
  let r := processAnswer (answer_of sub d2) now welcomeId None h1 in
  let joined := {| sub_id := id; sub_name := name; sub_connected := true;
                   joinedAt := now |} in
  subscriberId sub = id /\
  hostPeer sub = Some (Peer_new faults') /\
  (name <> ""%string ->
   result r = Ok tt /\
   Map_get String.eqb id (subscribers (state r)) = Some joined /\
   omap joined_of (trace r) = [joined]) /\
  (name = ""%string ->
   r = (Throw (ErrorMsg "Invalid answer data"), h1, []) /\
   isConnected h1 = true /\
   Map_get String.eqb id (subscribers h1)
     = Map_get String.eqb id (subscribers h)) /\
  (forall e,
     createAnswer (offer_of id d1) faults' (Some e) (new false (Some name))
     = (Throw e, set_subscriberId id (new false (Some name)), [])) /\
  (forall e,
     name <> ""%string ->
     processAnswer (answer_of sub d2) now welcomeId (Some e) h1
     = (Throw e, h1, [])).
Proof.
  intros Hhost Hid h1 sub r joined.
  assert (Hsub : sub = set_hostPeer (Some (Peer_new faults'))
                         (set_subscriberId id (new false (Some name)))).
  { subst sub. unfold createAnswer. rewrite bind_get.
    cbn [isHost new offer_of sig_subscriberId].
    rewrite (missing_Some id Hid). reflexivity. }
  assert (Hh1 : h1 = set_peers
                       (Map_set String.eqb id (Peer_new faults) (peers h)) h).
  { subst h1. rewrite (createOffer_run id faults h Hhost). reflexivity. }
  split; [rewrite Hsub; reflexivity|]. split; [rewrite Hsub; reflexivity|].
  assert (Hhost1 : isHost h1 = true) by (rewrite Hh1; exact Hhost).
  assert (Hpeer : Map_get String.eqb id (peers h1) = Some (Peer_new faults)).
  { rewrite Hh1. cbn [peers set_peers]. apply Map_get_set_eq. }
  split.
  - intros Hname.
    pose proof (processAnswer_run (answer_of sub d2) now welcomeId None id
                  name h1 Hhost1) as Hrun.
    rewrite Hsub in Hrun at 1 2.
    specialize (Hrun eq_refl Hid eq_refl Hname). cbv zeta in Hrun.
    rewrite Hpeer in Hrun. cbn [Peer_signal destroyed Peer_new] in Hrun.
    destruct Hrun as (s' & errors & Hrun & Hconsole & Hsubs & _).
    subst r. rewrite Hsub in Hrun. rewrite Hsub. rewrite Hrun.
    cbn [result state trace fst snd].
    split; [reflexivity|]. split; [rewrite Hsubs; apply Map_get_set_eq|].
    match goal with |- omap _ (?e :: ?l) = _ =>
      change (omap joined_of (e :: l)) with (joined :: omap joined_of l) end.
    rewrite omap_app, (omap_joined_console _ Hconsole). reflexivity.
  - split; [|split]; [intros ->; split; [|split]| |].
    + subst r. rewrite Hsub. unfold processAnswer. rewrite bind_get, Hhost1.
      cbn [negb answer_of sig_subscriberId sig_subscriberName subscriberId
           subscriberName set_hostPeer set_subscriberId new default].
      rewrite (missing_Some id Hid). reflexivity.
    + unfold isConnected. rewrite Hhost1, Hh1. cbn [peers set_peers].
      destruct (peers h) as [|[k v] m]; simpl; [reflexivity|].
      destruct (String.eqb id k); reflexivity.
    + rewrite Hh1. reflexivity.
    + intros e. unfold createAnswer. rewrite bind_get.
      cbn [isHost new offer_of sig_subscriberId].
      rewrite (missing_Some id Hid). reflexivity.
    + intros e Hname.
      apply (processAnswer_refused (answer_of sub d2) now welcomeId e id name
               h1 (Peer_new faults) Hhost1); auto;
        rewrite Hsub; reflexivity.
Qed.

End ChatMembershipMore.

(** ** The broadcast manager: receiving, more *)

Section ChatReceiveMore.

Import ChatWebRTCManager.

Lemma set_fileTransfers_same (s : t) : set_fileTransfers (fileTransfers s) s = s.
Proof. by destruct s. Qed.

(** The loop of [handleBinaryChunk]: a hit is an entry that was short of
    chunks, with the data stored; the loop throws only at an entry whose
    [totalChunks] cannot be converted. *)
Lemma first_active_cases (data : Data) (entries : list (jsval * Transfer)) :
  match first_active data entries with
  | Ok (Some (entries', hit)) =>
      exists fileId tr,
        In (fileId, tr) entries /\ active tr = Some true /\
        hit = store data tr /\ In (fileId, hit) entries' /\
        (forall e, In e entries' -> In e entries \/ e = (fileId, hit))
  | Ok None => True
  | Throw e =>
      e = TypeError /\
      Exists (fun e => convertible (snd e) = false) entries
  end.
Proof.
  induction entries as [|[fileId tr] rest IH]; [exact I|].
  cbn [first_active]. destruct (active tr) as [[]|] eqn:Hactive.
  - exists fileId, tr. split; [left; reflexivity|]. split; [exact Hactive|].
    split; [reflexivity|]. split; [left; reflexivity|].
    intros e [<-|He]; [right; reflexivity|left; right; exact He].
  - destruct (first_active data rest) as [[[rest' hit]|]|e]; [|exact I|].
    + destruct IH as (id' & tr' & Hin & Hact & Hhit & Hin' & Hsub).
      exists id', tr'. split; [right; exact Hin|]. split; [exact Hact|].
      split; [exact Hhit|]. split; [right; exact Hin'|].
      intros e [<-|He]; [left; left; reflexivity|].
      destruct (Hsub e He) as [H1|H1]; [left; right; exact H1|right; exact H1].
    + destruct IH as [-> Hex]. split; [reflexivity|].
      apply Exists_cons_tl, Hex.
  - split; [reflexivity|]. apply Exists_cons_hd. cbn [snd].
    unfold active in Hactive.
    destruct (ToNumber (totalChunks tr)) eqn:Hn; [discriminate|].
    apply ToNumber_None in Hn. unfold convertible. rewrite Hn. reflexivity.
Qed.

(** [handleBinaryChunk] changes nothing but the transfer map; it throws
    nothing but a [TypeError], and then the map holds a transfer whose
    [totalChunks] or [fileName] cannot be converted. *)
Lemma chat_handleBinaryChunk_run (data : Data) (s : t) :
  exists ft t,
    handleBinaryChunk data s = (Ok tt, set_fileTransfers ft s, t) \/
    (handleBinaryChunk data s = (Throw TypeError, set_fileTransfers ft s, t) /\
     Exists (fun e => convertible (snd e) = false) ft).
Proof.
  unfold handleBinaryChunk. rewrite bind_get.
  pose proof (first_active_cases data (fileTransfers s)) as Hcases.
  destruct (first_active data (fileTransfers s)) as [[[entries hit]|]|e].
  - destruct Hcases as (fileId & tr & _ & Hactive & -> & Hin & _).
    rewrite bind_put, bind_interpolate.
    cbn [forallb]. rewrite andb_true_r.
    change (stringifiable (totalChunks (store data tr))
            && stringifiable (fileName (store data tr)))
      with (convertible (store data tr)).
    destruct (convertible (store data tr)) eqn:Hconv.
    + unfold convertible in Hconv. apply andb_prop in Hconv as [Htotal _].
      destruct (ToNumber_Some _ Htotal) as [x ->].
      eexists _, _. left. reflexivity.
    + exists entries, []. right. split; [reflexivity|].
      apply List.Exists_exists. exists (fileId, store data tr).
      split; [exact Hin|exact Hconv].
  - exists (fileTransfers s), []. left. by rewrite set_fileTransfers_same.
  - destruct Hcases as [-> Hex].
    exists (fileTransfers s), []. right.
    split; [by rewrite set_fileTransfers_same|exact Hex].
Qed.

Lemma set_fileTransfers_twice (a b : list (jsval * Transfer)) (s : t) :
  set_fileTransfers a (set_fileTransfers b s) = set_fileTransfers a s.
Proof. reflexivity. Qed.

(** [handleFileStart] changes nothing but the transfer map, also where it
    throws. *)
Lemma handleFileStart_run (fileData : jsval) (now : nat) (s : t) :
  exists r ft t,
    handleFileStart fileData now s = (r, set_fileTransfers ft s, t) /\
    (forall e, r = Throw e -> t = []).
Proof.
  unfold handleFileStart.
  destruct (get_prop fileData "fileId") as [fileId|];
    [|exists (Throw TypeError), (fileTransfers s), [];
      rewrite set_fileTransfers_same; auto].
  destruct (get_prop fileData "fileName") as [fileName|];
    [|exists (Throw TypeError), (fileTransfers s), [];
      rewrite set_fileTransfers_same; auto].
  destruct (get_prop fileData "fileSize") as [fileSize|];
    [|exists (Throw TypeError), (fileTransfers s), [];
      rewrite set_fileTransfers_same; auto].
  destruct (get_prop fileData "fileType") as [fileType|];
    [|exists (Throw TypeError), (fileTransfers s), [];
      rewrite set_fileTransfers_same; auto].
  destruct (get_prop fileData "totalChunks") as [totalChunks|];
    [|exists (Throw TypeError), (fileTransfers s), [];
      rewrite set_fileTransfers_same; auto].
  cbn [lift]. rewrite !bind_ret, bind_modify.
  unfold bind. rewrite interpolate_one.
  destruct (stringifiable fileName).
  - eexists _, _, _. split; [reflexivity|]. discriminate.
  - eexists _, _, _. split; [reflexivity|]. reflexivity.
Qed.

Lemma handleFileComplete_cases (fileData : jsval) (now : nat) (s : t) :
  (exists ft t,
     handleFileComplete fileData now s = (Ok tt, set_fileTransfers ft s, t)) \/
  handleFileComplete fileData now s = (Throw TypeError, s, []).
Proof.
  rewrite handleFileComplete_run.
  assert (forall t, exists ft t',
            (Ok tt, s, t) = (Ok tt, set_fileTransfers ft s, t' : list Event))
    as Hsame.
  { intros t. exists (fileTransfers s), t. by rewrite set_fileTransfers_same. }
  destruct (get_prop fileData "fileId") as [fileId|]; [|right; reflexivity].
  destruct (Map_get same_value_zero fileId (fileTransfers s)) as [tr|].
  2:{ destruct (stringifiable fileId); [left; apply Hsame|right; reflexivity]. }
  destruct (negb _).
  { destruct (stringifiable (totalChunks tr));
      [left; apply Hsame|right; reflexivity]. }
  destruct (collect _ _ _).
  - destruct (stringifiable (fileName tr)); [|right; reflexivity].
    destruct (stringifiable (fileType tr)); [|left; apply Hsame].
    left. eexists _, _. reflexivity.
  - destruct (stringifiable (fileName tr));
      [left; apply Hsame|right; reflexivity].
Qed.

(** A frame that is no JSON text goes to [handleBinaryChunk]. *)
Lemma chat_handleReceivedData_binary (data : Data) (now : nat) (s : t) :
  WebRTCManager.binary_like data ->
  handleReceivedData data now s = handleBinaryChunk data s.
Proof.
  intros Hbin. unfold handleReceivedData, try_catch.
  unfold bind at 1. unfold lift at 1.
  destruct Hbin as [-> | ->].
  - unfold throw. cbv beta iota.
    destruct (handleBinaryChunk data s) as [[r s'] t]. reflexivity.
  - unfold ret at 1. cbv beta iota. unfold bind at 1. cbn [get_prop lift].
    unfold throw. cbv beta iota.
    destruct (handleBinaryChunk data s) as [[r s'] t]. reflexivity.
Qed.

(** Storing a chunk changes neither the name nor the total of a
    transfer. *)
Lemma convertible_store (data : Data) (tr : Transfer) :
  convertible (store data tr) = convertible tr.
Proof. reflexivity. Qed.

(** X16. The inbound-data handler of the broadcast manager changes nothing
    but the transfer map: role, transports, subscribers and ids are as
    before, whatever the inbound bytes. It throws nothing but a
    [TypeError], and only when the transfer map it leaves holds a transfer
    whose [totalChunks] or [fileName] cannot be converted to a string (an
    object with a member [toString], an array that holds one). So while
    every transfer of the map has a total and a name that convert, a
    frame that is no JSON text never makes it throw. *)
Theorem chat_handleReceivedData_total (data : Data) (now : nat) (s : t) :
  let r := handleReceivedData data now s in
  state r = set_fileTransfers (fileTransfers (state r)) s /\
  (result r = Ok tt \/
   result r = Throw TypeError /\
   Exists (fun e => convertible (snd e) = false) (fileTransfers (state r))) /\
  (WebRTCManager.binary_like data ->
   Forall (fun e => convertible (snd e) = true) (fileTransfers s) ->
   result r = Ok tt).
Proof.
  intros r.
  set (shape := fun x : Res unit * t * list Event =>
         exists ft t,
           x = (Ok tt, set_fileTransfers ft s, t) \/
           (x = (Throw TypeError, set_fileTransfers ft s, t) /\
            Exists (fun e => convertible (snd e) = false) ft)).
  assert (shape r) as Hshape.
  { subst r.
    assert (forall (ft0 : list (jsval * Transfer)) (t0 : list Event),
              shape (let '(r, s'', t') :=
                       handleBinaryChunk data (set_fileTransfers ft0 s) in
                     (r, s'', (t0 ++ t')%list)))
      as Hcatch.
    { intros ft0 t0.
      destruct (chat_handleBinaryChunk_run data (set_fileTransfers ft0 s))
        as (ft & t & [-> | [-> Hex]]); rewrite set_fileTransfers_twice.
      - eexists _, _. left. reflexivity.
      - eexists _, _. right. split; [reflexivity|exact Hex]. }
    assert (forall t0 : list Event,
              shape (let '(r, s'', t') := handleBinaryChunk data s in
                     (r, s'', (t0 ++ t')%list)))
      as Hcatch0.
    { intros t0. pose proof (Hcatch (fileTransfers s) t0) as Hc.
      rewrite set_fileTransfers_same in Hc. exact Hc. }
    assert (forall t : list Event, shape (Ok tt, s, t)) as Hsame.
    { intros t. exists (fileTransfers s), t. left.
      by rewrite set_fileTransfers_same. }
    assert (forall ft (t : list Event),
              shape (Ok tt, set_fileTransfers ft s, t)) as Hok.
    { intros ft t. exists ft, t. left. reflexivity. }
    unfold handleReceivedData, try_catch.
    unfold bind at 1. unfold lift at 1.
    destruct (JSON.parse (toString data)) as [parsed|];
      [|exact (Hcatch0 [])].
    unfold ret at 1. unfold bind at 1. unfold lift at 1.
    destruct (get_prop parsed "type") as [type|] eqn:Htype;
      [|exact (Hcatch0 [])].
    destruct (get_prop_not_null _ _ "data" _ Htype) as [payload Hpayload].
    unfold ret at 1. unfold bind at 1. rewrite Hpayload. cbn [lift].
    unfold ret at 1.
    destruct (is_str type "message"); [apply Hsame|].
    destruct (is_str type "fileStart").
    { destruct (handleFileStart_run payload now s)
        as (r0 & ft & t & -> & Ht).
      destruct r0 as [[]|e].
      - apply Hok.
      - rewrite (Ht e eq_refl). exact (Hcatch ft []). }
    destruct (is_str type "fileChunk"); [apply Hsame|].
    destruct (is_str type "fileComplete").
    { destruct (handleFileComplete_cases payload now s) as [(ft & t & ->)| ->].
      - apply Hok.
      - exact (Hcatch0 []). }
    apply Hsame. }
  subst shape. cbv beta in Hshape.
  split; [|split].
  - destruct Hshape as (ft & t & [-> | [-> _]]); reflexivity.
  - destruct Hshape as (ft & t & [-> | [-> Hex]]); [left; reflexivity|].
    right. split; [reflexivity|exact Hex].
  - intros Hbin Hall. subst r.
    rewrite (chat_handleReceivedData_binary data now s Hbin).
    unfold handleBinaryChunk. rewrite bind_get.
    pose proof (first_active_cases data (fileTransfers s)) as Hcases.
    destruct (first_active data (fileTransfers s)) as [[[entries hit]|]|e].
    + destruct Hcases as (fileId & tr & Hin & _ & -> & _).
      rewrite bind_put, bind_interpolate.
      cbn [forallb]. rewrite andb_true_r.
      change (stringifiable (totalChunks (store data tr))
              && stringifiable (fileName (store data tr)))
        with (convertible (snd (fileId, tr))).
      rewrite List.Forall_forall in Hall. rewrite (Hall _ Hin).
      pose proof (Hall _ Hin) as Hconv. cbn [snd] in Hconv.
      unfold convertible in Hconv. apply andb_prop in Hconv as [Htotal _].
      change (totalChunks (store data tr)) with (totalChunks tr).
      destruct (ToNumber_Some _ Htotal) as [x ->]. reflexivity.
    + reflexivity.
    + destruct Hcases as [_ Hex]. exfalso.
      apply List.Exists_exists in Hex as (e' & Hin & Hbad).
      rewrite List.Forall_forall in Hall. rewrite (Hall _ Hin) in Hbad.
      discriminate.
Qed.

End ChatReceiveMore.

(** ** Numbers: integers below 2^53 keep their order *)

Section NumOrder.

Local Open Scope Z_scope.

Lemma digits2_pos_size (p : positive) : digits2_pos p = Pos.size p.
Proof. induction p as [p IH|p IH|]; simpl; congruence. Qed.

Lemma iter_xO_mul (p k : positive) :
  Pos.iter xO p k = (p * 2 ^ k)%positive.
Proof.
  revert p. induction k as [|k IH] using Pos.peano_ind; intros p.
  - simpl. lia.
  - rewrite Pos.iter_succ, IH, Pos.pow_succ_r. lia.
Qed.

Lemma size_iter_xO (p k : positive) :
  Pos.size (Pos.iter xO p k) = (Pos.size p + k)%positive.
Proof.
  induction k as [|k IH] using Pos.peano_ind.
  - simpl. lia.
  - rewrite Pos.iter_succ. simpl. rewrite IH. lia.
Qed.

Lemma size_gt_Z (p : positive) : Z.pos p < 2 ^ Z.pos (Pos.size p).
Proof.
  pose proof (Pos.size_gt p) as Hgt.
  rewrite <- Pos2Z.inj_pow. apply Pos2Z.pos_lt_pos, Hgt.
Qed.

Lemma size_le_Z (p : positive) : 2 ^ Z.pos (Pos.size p) <= 2 * Z.pos p.
Proof.
  pose proof (Pos.size_le p) as Hle.
  rewrite <- Pos2Z.inj_pow. change (2 * Z.pos p) with (Z.pos p~0).
  apply Pos2Z.pos_le_pos, Hle.
Qed.

Lemma size_bound (p : positive) :
  Z.pos p < 2 ^ 53 -> Z.pos (Pos.size p) <= 53.
Proof.
  intros Hp. pose proof (size_le_Z p) as Hle.
  destruct (Z.le_gt_cases (Z.pos (Pos.size p)) 53) as [H|H]; [exact H|].
  exfalso.
  assert (2 ^ 54 <= 2 ^ Z.pos (Pos.size p)) by (apply Z.pow_le_mono_r; lia).
  change (2 ^ 54) with (2 * 2 ^ 53) in *. lia.
Qed.

Lemma size_mono (p q : positive) :
  (p < q)%positive -> Z.pos (Pos.size p) <= Z.pos (Pos.size q).
Proof.
  intros Hlt.
  destruct (Z.le_gt_cases (Z.pos (Pos.size p)) (Z.pos (Pos.size q)))
    as [H|H]; [exact H|].
  exfalso.
  pose proof (size_gt_Z q) as Hq. pose proof (size_le_Z p) as Hp.
  assert (2 ^ (Z.pos (Pos.size q) + 1) <= 2 ^ Z.pos (Pos.size p)) as Hpow
    by (apply Z.pow_le_mono_r; lia).
  rewrite Z.pow_add_r in Hpow by lia. change (2 ^ 1) with 2 in Hpow. lia.
Qed.

(** An integer below 2^53 is a number with a 53-bit mantissa. *)
Lemma of_Z_pos (p : positive) :
  Z.pos p < 2 ^ 53 ->
  Num.of_Z (Z.pos p) =
    match 53 - Z.pos (Pos.size p) with
    | Z.pos k => S754_finite false (Pos.iter xO p k) (Z.neg k)
    | _ => S754_finite false p 0
    end.
Proof.
  intros Hp. pose proof (size_bound p Hp) as Hsize.
  unfold Num.of_Z, binary_normalize, binary_round.
  rewrite digits2_pos_size.
  unfold fexp, emin, Num.prec, Num.emax.
  replace (Z.max (Z.pos (Pos.size p) + 0 - 53) (3 - 1024 - 53))
    with (Z.pos (Pos.size p) - 53) by lia.
  unfold shl_align.
  destruct (53 - Z.pos (Pos.size p)) as [|k|k] eqn:Hk; [| |lia].
  - replace (Z.pos (Pos.size p) - 53 - 0) with 0 by lia.
    unfold binary_round_aux, shr_fexp. cbn [shr_record_of_loc Zdigits2].
    rewrite digits2_pos_size. unfold fexp, emin.
    replace (Z.max (Z.pos (Pos.size p) + 0 - 53) (3 - 1024 - 53) - 0)
      with 0 by lia.
    cbn [shr loc_of_shr_record shr_m shr_r shr_s round_nearest_even
         shr_record_of_loc Zdigits2].
    rewrite digits2_pos_size. unfold fexp, emin.
    replace (Z.max (Z.pos (Pos.size p) + 0 - 53) (3 - 1024 - 53) - 0)
      with 0 by lia.
    reflexivity.
  - replace (Z.pos (Pos.size p) - 53 - 0) with (Z.neg k) by lia.
    replace (Z.pos (Pos.size p) - 53) with (Z.neg k) by lia.
    unfold binary_round_aux, shr_fexp. cbn [shr_record_of_loc Zdigits2].
    rewrite digits2_pos_size, size_iter_xO. unfold fexp, emin.
    replace (Z.max (Z.pos (Pos.size p + k) + Z.neg k - 53) (3 - 1024 - 53)
             - Z.neg k) with 0 by lia.
    cbn [shr loc_of_shr_record shr_m shr_r shr_s round_nearest_even
         shr_record_of_loc Zdigits2].
    rewrite digits2_pos_size, size_iter_xO. unfold fexp, emin.
    replace (Z.max (Z.pos (Pos.size p + k) + Z.neg k - 53) (3 - 1024 - 53)
             - Z.neg k) with 0 by lia.
    cbn [shr shr_m].
    destruct (Z.leb_spec (Z.neg k) (1024 - 53)); [reflexivity|lia].
Qed.

Lemma of_Z_ltb (a b : Z) :
  0 <= a < b -> b < 2 ^ 53 -> Num.ltb (Num.of_Z a) (Num.of_Z b) = true.
Proof.
  intros [Ha Hab] Hb.
  destruct b as [|q|q]; try lia.
  rewrite (of_Z_pos q Hb).
  destruct a as [|p|p]; try lia.
  - unfold Num.of_Z, binary_normalize, Num.ltb, SFltb.
    destruct (53 - Z.pos (Pos.size q)); reflexivity.
  - rewrite (of_Z_pos p) by lia.
    assert (p < q)%positive as Hpq by lia.
    pose proof (size_mono p q Hpq) as Hmono.
    pose proof (size_bound q Hb) as Hsq.
    unfold Num.ltb, SFltb, SFcompare.
    destruct (53 - Z.pos (Pos.size p)) as [|k|k] eqn:Hk;
      destruct (53 - Z.pos (Pos.size q)) as [|l|l] eqn:Hl; try lia.
    + simpl. rewrite Pos.compare_cont_spec.
      apply Pos.compare_lt_iff in Hpq. rewrite Hpq. reflexivity.
    + reflexivity.
    + destruct (Z.compare_spec (Z.neg k) (Z.neg l)) as [Heq|Hlt|Hgt];
        [|reflexivity|lia].
      assert (k = l) as -> by lia.
      rewrite Pos.compare_cont_spec, !iter_xO_mul.
      assert (p * 2 ^ l < q * 2 ^ l)%positive as Hm
        by (apply Pos.mul_lt_mono_r; exact Hpq).
      apply Pos.compare_lt_iff in Hm. rewrite Hm. reflexivity.
Qed.

Lemma of_nat_ltb (i n : nat) :
  (i < n)%nat -> Z.of_nat n < 2 ^ 53 ->
  Num.ltb (Num.of_nat i) (Num.of_nat n) = true.
Proof. intros Hi Hn. apply of_Z_ltb; lia. Qed.

End NumOrder.

(** ** [JSON.parse] reads back the control frames of the broadcast protocol *)

Section ChatJSON.

Import JSON.
Local Open Scope string_scope.

Ltac read_literal :=
  rewrite run_app;
  match goal with
  | |- context [run (run ?st ?lit) ?rest] =>
      let r := eval simpl in (run st lit) in
      change (run st lit) with r
  end.

Ltac read_quoted := rewrite run_quote_value; cbn [complete].

Ltac read_integer :=
  first [ rewrite run_dec_member_app by auto
        | rewrite run_dec_member by auto ];
  cbn [after_value complete rev app].

Lemma parse_chat_fileStart (fileId : string) (f : File) (total : nat) :
  parse (ChatWebRTCManager.fileStart_text fileId f total)
  = Some (JObj [("type", JStr "fileStart");
                ("data", JObj [("fileId", JStr fileId);
                               ("fileName", JStr (file_name f));
                               ("fileSize", JNum (Num.of_nat (file_size f)));
                               ("fileType", JStr (file_type f));
                               ("totalChunks", JNum (Num.of_nat total))])]).
Proof.
  unfold parse, ChatWebRTCManager.fileStart_text.
  read_literal. read_quoted. read_literal. read_quoted. read_literal.
  read_integer. read_literal. read_quoted. read_literal. read_integer.
  reflexivity.
Qed.

Lemma parse_chat_fileChunk (fileId : string) (index total : nat) :
  parse (ChatWebRTCManager.fileChunk_text fileId index total)
  = Some (JObj [("type", JStr "fileChunk");
                ("data", JObj [("fileId", JStr fileId);
                               ("chunkIndex", JNum (Num.of_nat index));
                               ("totalChunks", JNum (Num.of_nat total))])]).
Proof.
  unfold parse, ChatWebRTCManager.fileChunk_text.
  read_literal. read_quoted. read_literal. read_integer. read_literal.
  read_integer. reflexivity.
Qed.

Lemma parse_chat_fileComplete (fileId : string) :
  parse (ChatWebRTCManager.fileComplete_text fileId)
  = Some (JObj [("type", JStr "fileComplete");
                ("data", JObj [("fileId", JStr fileId)])]).
Proof.
  unfold parse, ChatWebRTCManager.fileComplete_text.
  read_literal. read_quoted. reflexivity.
Qed.

Lemma string_app_assoc (a b c : string) : (a ++ b) ++ c = a ++ (b ++ c).
Proof.
  induction a as [|x a IH]; [reflexivity|].
  change (String x ((a ++ b) ++ c) = String x (a ++ (b ++ c))).
  by rewrite IH.
Qed.

(** The object a text message is on the wire: [subscriberId] is there
    only in a message from a subscriber. *)
Lemma parse_chat_message (id body : string) (now : nat)
    (who : ChatWebRTCManager.Sender) (sid : option string) :
  parse (ChatWebRTCManager.message_text id body now who sid)
  = Some (JObj [("type", JStr "message");
                ("data",
                 JObj ([("id", JStr id); ("content", JStr body);
                        ("timestamp", JNum (Num.of_nat now));
                        ("sender",
                         JStr (ChatWebRTCManager.sender_text who))]
                       ++ match sid with
                          | Some i => [("subscriberId", JStr i)]
                          | None => []
                          end
                       ++ [("type", JStr "text")])%list)]).
Proof.
  unfold parse, ChatWebRTCManager.message_text.
  read_literal. read_quoted. read_literal. read_quoted. read_literal.
  read_integer. read_literal. read_quoted.
  destruct sid as [i|].
  - rewrite string_app_assoc. read_literal. read_quoted. reflexivity.
  - reflexivity.
Qed.

End ChatJSON.

(** ** The send sequence, frame by frame *)

Section SendSequence.

Local Open Scope string_scope.

(** The frames of the pair protocol say what the specification lists. *)
Lemma pair_rounds_carry (f : File) (total n i : nat) :
  Forall2 Spec.carries
    (Spec.pair_rounds f total i n)
    (flat_map
       (fun j =>
          [Spec.pair_chunk_meta
             j (length (Spec.payload_slice (file_bytes f) j)) total;
           Spec.Raw (Spec.payload_slice (file_bytes f) j)])
       (seq i n)).
Proof.
  revert i. induction n as [|n IH]; intros i; [constructor|].
  unfold Spec.pair_rounds. cbn [seq flat_map app].
  constructor; [apply parse_pair_chunkStart|].
  constructor; [reflexivity|]. apply IH.
Qed.

Lemma pair_sequence_carries (f : File) :
  Forall2 Spec.carries (Spec.pair_sequence f) (Spec.pair_messages f).
Proof.
  unfold Spec.pair_sequence, Spec.pair_messages.
  rewrite chunkCount_chunk_count.
  constructor.
  - unfold Spec.pair_start. rewrite chunkCount_chunk_count.
    apply parse_pair_fileStart.
  - apply Forall2_app; [apply pair_rounds_carry|].
    constructor; [apply parse_pair_fileComplete|constructor].
Qed.

(** So do those of the broadcast protocol. *)
Lemma broadcast_rounds_carry (fileId : string) (f : File) (total n i : nat) :
  Forall2 Spec.carries
    (Spec.broadcast_rounds fileId f total i n)
    (flat_map
       (fun j =>
          [Spec.broadcast_chunk_meta fileId j total;
           Spec.Raw (Spec.payload_slice (file_bytes f) j)])
       (seq i n)).
Proof.
  revert i. induction n as [|n IH]; intros i; [constructor|].
  unfold Spec.broadcast_rounds.
  cbn [seq flat_map Spec.broadcast_round app].
  constructor; [apply parse_chat_fileChunk|].
  constructor; [reflexivity|]. apply IH.
Qed.

Lemma broadcast_sequence_carries (fileId : string) (f : File) :
  Forall2 Spec.carries (Spec.broadcast_sequence fileId f)
                       (Spec.broadcast_messages fileId f).
Proof.
  unfold Spec.broadcast_sequence, Spec.broadcast_messages.
  rewrite chunkCount_chunk_count.
  constructor.
  - unfold Spec.broadcast_start. rewrite chunkCount_chunk_count.
    apply parse_chat_fileStart.
  - apply Forall2_app; [apply broadcast_rounds_carry|].
    constructor; [apply parse_chat_fileComplete|constructor].
Qed.



End SendSequence.

(** ** The broadcast protocol, end to end *)

Section MapLast.

Context {K V : Type} (same : K -> K -> bool).
Implicit Type m : list (K * V).

Lemma Map_set_absent m k v :
  Map_get same k m = None -> Map_set same k v m = (m ++ [(k, v)])%list.
Proof.
  induction m as [|[k0 v0] m IH]; simpl; [reflexivity|].
  destruct (same k k0); [discriminate|]. intros Hm. by rewrite IH.
Qed.

Lemma Map_get_last m k v :
  Map_get same k m = None -> same k k = true ->
  Map_get same k (m ++ [(k, v)])%list = Some v.
Proof.
  intros Hm Hk. induction m as [|[k0 v0] m IH]; simpl.
  - by rewrite Hk.
  - simpl in Hm. destruct (same k k0); [discriminate|]. by apply IH.
Qed.

Lemma Map_delete_last m k v :
  Map_get same k m = None -> same k k = true ->
  Map_delete same k (m ++ [(k, v)])%list = m.
Proof.
  intros Hm Hk. induction m as [|[k0 v0] m IH]; simpl.
  - by rewrite Hk.
  - simpl in Hm. destruct (same k k0); [discriminate|]. by rewrite IH.
Qed.

End MapLast.

Section ChatRoundTrip.

Import ChatWebRTCManager.
Local Open Scope string_scope.

Lemma chat_receive_message (id body : string) (now now' : nat) (who : Sender)
    (sid : option string) (s : t) :
  handleReceivedData
    (deliver (FText (message_text id body now who sid))) now' s
  = (Ok tt, s,
     [onMessageParsed
        (JObj ([("id", JStr id); ("content", JStr body);
                ("timestamp", JNum (Num.of_nat now));
                ("sender", JStr (sender_text who))]
               ++ match sid with
                  | Some i => [("subscriberId", JStr i)]
                  | None => []
                  end
               ++ [("type", JStr "text")])%list)]).
Proof.
  unfold handleReceivedData, try_catch, bind, lift, ret.
  rewrite toString_deliver_text, parse_chat_message. reflexivity.
Qed.

Lemma chat_receive_fileStart (fileId : string) (f : File) (total now : nat)
    (s : t) :
  handleReceivedData (deliver (FText (fileStart_text fileId f total))) now s
  = (Ok tt,
     set_fileTransfers
       (Map_set same_value_zero (JStr fileId)
          {| chunks := ∅; receivedChunks := 0;
             totalChunks := JNum (Num.of_nat total);
             fileName := JStr (file_name f);
             fileSize := JNum (Num.of_nat (file_size f));
             fileType := JStr (file_type f) |}
          (fileTransfers s)) s,
     [onMessage
        {| msg_id := JStr fileId;
           content := ReceivingLabel (JStr (file_name f));
           timestamp := now; sender := host; msg_subscriberId := None;
           msg_type := file;
           msg_fileData :=
             Some {| att_name := JStr (file_name f);
                     att_size := JNum (Num.of_nat (file_size f));
                     att_type := JStr (file_type f); url := None |} |}]).
Proof.
  unfold handleReceivedData, try_catch, bind, lift, ret.
  rewrite toString_deliver_text, parse_chat_fileStart. reflexivity.
Qed.

Lemma chat_receive_fileChunk (fileId : string) (index total now : nat)
    (s : t) :
  handleReceivedData (deliver (FText (fileChunk_text fileId index total))) now s
  = (Ok tt, s, []).
Proof.
  unfold handleReceivedData, try_catch, bind, lift, ret.
  rewrite toString_deliver_text, parse_chat_fileChunk. reflexivity.
Qed.

Lemma chat_receive_fileComplete (fileId : string) (now : nat) (s : t) :
  result (handleFileComplete (JObj [("fileId", JStr fileId)]) now s) = Ok tt ->
  handleReceivedData (deliver (FText (fileComplete_text fileId))) now s
  = handleFileComplete (JObj [("fileId", JStr fileId)]) now s.
Proof.
  intros Hok.
  unfold handleReceivedData, try_catch, bind, lift, ret.
  rewrite toString_deliver_text, parse_chat_fileComplete.
  cbn [get_prop lookup_member is_str String.eqb Ascii.eqb Bool.eqb].
  destruct (handleFileComplete (JObj [("fileId", JStr fileId)]) now s)
    as [[r s'] t].
  cbv [result] in Hok. simpl in Hok. subst r. reflexivity.
Qed.

(** The binary chunk goes to the transfer opened last when every earlier
    one has all its chunks. *)
Lemma first_active_last (data : Data) (pre : list (jsval * Transfer))
    (k : jsval) (tr : Transfer) :
  Forall (fun e => active e.2 = Some false) pre -> active tr = Some true ->
  first_active data (pre ++ [(k, tr)])%list
  = Ok (Some ((pre ++ [(k, store data tr)])%list, store data tr)).
Proof.
  intros Hpre Htr. induction Hpre as [|[k0 tr0] pre Hk0 Hpre IH]; simpl.
  - by rewrite Htr.
  - simpl in Hk0. rewrite Hk0, IH. reflexivity.
Qed.

Lemma chat_receive_app (xs ys : list Data) (now : nat) (s : t) :
  receive (xs ++ ys)%list now s =
  match receive xs now s with
  | (Ok _, s', t) =>
      let '(r, s'', t') := receive ys now s' in (r, s'', (t ++ t')%list)
  | (Throw e, s', t) => (Throw e, s', t)
  end.
Proof.
  revert s. induction xs as [|x xs IH]; intros s.
  - simpl. unfold ret. destruct (receive ys now s) as [[r s'] t]. reflexivity.
  - cbn [app receive]. unfold bind at 1 2.
    destruct (handleReceivedData x now s) as [[[[]|e] s1] t1]; [|reflexivity].
    rewrite IH.
    destruct (receive xs now s1) as [[[[]|e] s2] t2]; [|reflexivity].
    destruct (receive ys now s2) as [[r s3] t3]. by rewrite app_assoc.
Qed.

(** The rounds [i], ..., [i + todo - 1] of a transfer, received in order
    while the transfer is the only one short of chunks: each slice lands
    under its own index in that transfer. *)
Lemma chat_receive_rounds (fileId : string) (f : File) (total now : nat)
    (pre : list (jsval * Transfer)) (todo i : nat) (s : t) (tr : Transfer) :
  fileTransfers s = (pre ++ [(JStr fileId, tr)])%list ->
  Forall (fun e => active e.2 = Some false) pre ->
  stringifiable (fileName tr) = true ->
  receivedChunks tr = i -> totalChunks tr = JNum (Num.of_nat total) ->
  i + todo <= total -> (Z.of_nat total < 2 ^ 53)%Z ->
  (forall j, i <= j < i + todo ->
     WebRTCManager.binary_like (Spec.payload_slice (file_bytes f) j)) ->
  exists tr' t,
    receive (deliver <$> Spec.broadcast_rounds fileId f total i todo) now s
      = (Ok tt,
         set_fileTransfers (pre ++ [(JStr fileId, tr')])%list s, t) /\
    receivedChunks tr' = i + todo /\
    totalChunks tr' = totalChunks tr /\ fileName tr' = fileName tr /\
    fileSize tr' = fileSize tr /\ fileType tr' = fileType tr /\
    (forall j, j < i -> chunks tr' !! j = chunks tr !! j) /\
    (forall j, i <= j < i + todo ->
       chunks tr' !! j = Some (Spec.payload_slice (file_bytes f) j)) /\
    omap download_of t = [] /\
    omap progress_of t = replicate todo (fileName tr).
Proof.
  revert i s tr.
  induction todo as [|todo IH];
    intros i s tr Hft Hpre Hname Hi Htotal Hle Hbig Hbin.
  - exists tr, []. simpl. unfold ret.
    split; [rewrite <- Hft, set_fileTransfers_same; reflexivity|].
    split; [lia|]. repeat (split; [reflexivity|]).
    split; [intros j Hj; lia|]. split; reflexivity.
  - unfold Spec.broadcast_rounds.
    cbn [seq flat_map Spec.broadcast_round app fmap list_fmap receive].
    unfold bind at 1. rewrite chat_receive_fileChunk. cbv beta iota.
    cbn [deliver]. unfold bind at 1.
    rewrite (chat_handleReceivedData_binary _ now s (Hbin i ltac:(lia))).
    assert (active tr = Some true) as Hactive.
    { unfold active. rewrite Htotal, Hi. cbn [ToNumber fmap option_fmap option_map].
      f_equal. apply of_nat_ltb; [lia|exact Hbig]. }
    unfold handleBinaryChunk. rewrite bind_get, Hft.
    rewrite (first_active_last _ pre (JStr fileId) tr Hpre Hactive).
    rewrite bind_put, bind_interpolate.
    cbn [forallb store totalChunks fileName]. rewrite Htotal, Hname.
    cbn [stringifiable andb ToNumber lift]. rewrite bind_ret.
    unfold emit at 1.
    set (data := Spec.payload_slice (file_bytes f) i).
    set (s1 := set_fileTransfers (pre ++ [(JStr fileId, store data tr)])%list s).
    destruct (IH (S i) s1 (store data tr))
      as (tr' & t & Hrun & Hcount & Htot' & Hname' & Hsize' & Htype'
          & Hlow & Hnew & Hdown & Hprog).
    + reflexivity.
    + exact Hpre.
    + exact Hname.
    + cbn [store receivedChunks]. lia.
    + exact Htotal.
    + lia.
    + exact Hbig.
    + intros j Hj. apply Hbin. lia.
    + fold (Spec.broadcast_rounds fileId f total (S i) todo). rewrite Hrun.
      exists tr'. eexists. split; [reflexivity|].
      split; [lia|].
      split; [rewrite Htot'; cbn [store totalChunks]; congruence|].
      split; [exact Hname'|].
      split; [exact Hsize'|]. split; [exact Htype'|].
      split; [|split; [|split]].
      * intros j Hj. rewrite Hlow by lia. cbn [store chunks].
        apply lookup_insert_ne. lia.
      * intros j Hj. destruct (decide (j = i)) as [->|Hne].
        -- rewrite Hlow by lia. cbn [store chunks]. rewrite Hi.
           apply lookup_insert_eq.
        -- apply Hnew. lia.
      * cbn. exact Hdown.
      * cbn. rewrite Hprog. reflexivity.
Qed.

(** What a subscriber with no transfer short of chunks, and none whose
    total cannot be converted, makes of the
    frames of one [sendFile]. *)
Lemma chat_sequence_received (fileId : string) (f : File) (now : nat) (s : t) :
  Forall (fun e => active e.2 = Some false) (fileTransfers s) ->
  Map_get same_value_zero (JStr fileId) (fileTransfers s) = None ->
  (Z.of_nat (chunk_count (file_size f)) < 2 ^ 53)%Z ->
  (forall j, j < chunk_count (file_size f) ->
     WebRTCManager.binary_like (Spec.payload_slice (file_bytes f) j)) ->
  let blob := {| blob_type := JStr (file_type f);
                 blob_bytes := file_bytes f |} in
  exists t,
    receive (deliver <$> Spec.broadcast_sequence fileId f) now s
      = (Ok tt, s, t) /\
    omap download_of t =
      [({| msg_id := JStr fileId; content := FileLabel (JStr (file_name f));
           timestamp := now; sender := host; msg_subscriberId := None;
           msg_type := file;
           msg_fileData :=
             Some {| att_name := JStr (file_name f);
                     att_size := JNum (Num.of_nat (file_size f));
                     att_type := JStr (file_type f); url := Some blob |} |},
        blob)] /\
    omap progress_of t
      = replicate (chunk_count (file_size f)) (JStr (file_name f)).
Proof.
  intros Hpre Hnew Hbig Hbin blob.
  set (r := receive (deliver <$> Spec.broadcast_sequence fileId f) now s).
  set (total := chunk_count (file_size f)) in *.
  set (tr0 := {| chunks := ∅; receivedChunks := 0;
                 totalChunks := JNum (Num.of_nat total);
                 fileName := JStr (file_name f);
                 fileSize := JNum (Num.of_nat (file_size f));
                 fileType := JStr (file_type f) |}).
  set (pre := fileTransfers s) in *.
  set (s1 := set_fileTransfers (pre ++ [(JStr fileId, tr0)])%list s).
  destruct (chat_receive_rounds fileId f total now pre total 0 s1 tr0)
    as (tr' & t & Hrun & Hcount & Htot' & Hname' & Hsize' & Htype'
        & _ & Hall & Hdown & Hprog);
    [reflexivity|exact Hpre|reflexivity|reflexivity|reflexivity|lia
    |exact Hbig| |].
  { intros j Hj. apply Hbin. lia. }
  set (s2 := set_fileTransfers (pre ++ [(JStr fileId, tr')])%list s1) in *.
  assert (Hsame : same_value_zero (JStr fileId) (JStr fileId) = true)
    by apply String.eqb_refl.
  assert (Hparts : collect (chunks tr') 0 total
                   = Some (Spec.payload_slice (file_bytes f) <$> seq 0 total)).
  { rewrite (collect_Some (chunks tr') total 0)
      by (intros j Hj; rewrite Hall by lia; eauto).
    f_equal. unfold chunks_in_order. apply list_fmap_ext.
    intros k j Hj. apply lookup_seq in Hj as [-> Hlt].
    rewrite Hall by lia. reflexivity. }
  assert (Hcomplete :
    handleFileComplete (JObj [("fileId", JStr fileId)]) now s2
    = (Ok tt, s,
       [onMessage
          {| msg_id := JStr fileId; content := FileLabel (JStr (file_name f));
             timestamp := now; sender := host; msg_subscriberId := None;
             msg_type := file;
             msg_fileData :=
               Some {| att_name := JStr (file_name f);
                       att_size := JNum (Num.of_nat (file_size f));
                       att_type := JStr (file_type f);
                       url := Some blob |} |}])).
  { pose proof (handleFileComplete_run (JObj [("fileId", JStr fileId)]) now s2)
      as Hc.
    cbn [get_prop lookup_member String.eqb Ascii.eqb Bool.eqb] in Hc.
    change (fileTransfers s2) with (pre ++ [(JStr fileId, tr')])%list in Hc.
    rewrite (Map_get_last same_value_zero pre (JStr fileId) tr' Hnew Hsame)
      in Hc.
    rewrite Hcount, Htot', Hname', Htype' in Hc.
    cbn [Nat.add totalChunks fileName fileType tr0 stringifiable] in Hc.
    cbn [strict_eq_num] in Hc. rewrite of_nat_eqb in Hc. cbn [negb] in Hc.
    rewrite Hparts in Hc.
    rewrite (Map_delete_last same_value_zero pre (JStr fileId) tr' Hnew Hsame)
      in Hc.
    assert (forall a b x, set_fileTransfers a (set_fileTransfers b x)
                          = set_fileTransfers a x) as Hset by reflexivity.
    subst s2 s1 pre. rewrite !Hset in Hc. rewrite !Hset.
    rewrite set_fileTransfers_same in Hc.
    rewrite Hc, Hsize'. cbn [fileName fileSize fileType tr0].
    unfold total, file_size. rewrite payload_slices_join. reflexivity. }
  assert (r = (Ok tt, s,
               (onMessage
                  {| msg_id := JStr fileId;
                     content := ReceivingLabel (JStr (file_name f));
                     timestamp := now; sender := host;
                     msg_subscriberId := None; msg_type := file;
                     msg_fileData :=
                       Some {| att_name := JStr (file_name f);
                               att_size := JNum (Num.of_nat (file_size f));
                               att_type := JStr (file_type f);
                               url := None |} |}
                :: t)
               ++ [onMessage
                     {| msg_id := JStr fileId;
                        content := FileLabel (JStr (file_name f));
                        timestamp := now; sender := host;
                        msg_subscriberId := None; msg_type := file;
                        msg_fileData :=
                          Some {| att_name := JStr (file_name f);
                                  att_size := JNum (Num.of_nat (file_size f));
                                  att_type := JStr (file_type f);
                                  url := Some blob |} |}])%list) as ->.
  { subst r. unfold Spec.broadcast_sequence. fold total.
    cbn [fmap list_fmap receive]. unfold bind at 1.
    rewrite chat_receive_fileStart. cbv beta iota.
    fold tr0. fold pre.
    rewrite (Map_set_absent same_value_zero pre (JStr fileId) tr0 Hnew).
    fold s1. rewrite fmap_app, chat_receive_app, Hrun.
    fold s2. cbn [fmap list_fmap receive]. unfold bind at 1.
    rewrite chat_receive_fileComplete by (rewrite Hcomplete; reflexivity).
    rewrite Hcomplete. unfold ret.
    cbn [app]. rewrite ?app_nil_r. reflexivity. }
  eexists. split; [reflexivity|]. split.
  - rewrite omap_app. cbn. rewrite Hdown. reflexivity.
  - rewrite omap_app. cbn. rewrite Hprog. cbn. apply app_nil_r.
Qed.

(** X17. The broadcast protocol round trip. A subscriber that holds no
    transfer short of chunks (each one it holds has a total that converts
    to a number, and that many chunks or more) and none under this id
    receives the frames of the host's [sendFile] in order; no slice of the
    payload is itself JSON text (other than [null]) and the chunk count is
    below 2^53. Then
    exactly one download is handed over, with the name, size and type of
    the original and its bytes; one progress notification came per chunk;
    and the transfer is removed again, the manager being as before. *)
Theorem chat_round_trip (fileId : string) (f : File) (now : nat) (s : t) :
  Forall (fun e => active e.2 = Some false) (fileTransfers s) ->
  Map_get same_value_zero (JStr fileId) (fileTransfers s) = None ->
  (Z.of_nat (chunk_count (file_size f)) < 2 ^ 53)%Z ->
  (forall j, j < chunk_count (file_size f) ->
     WebRTCManager.binary_like (Spec.payload_slice (file_bytes f) j)) ->
  let r := receive (deliver <$> Spec.broadcast_sequence fileId f) now s in
  let blob := {| blob_type := JStr (file_type f);
                 blob_bytes := file_bytes f |} in
  result r = Ok tt /\
  omap download_of (trace r) =
    [({| msg_id := JStr fileId; content := FileLabel (JStr (file_name f));
         timestamp := now; sender := host; msg_subscriberId := None;
         msg_type := file;
         msg_fileData :=
           Some {| att_name := JStr (file_name f);
                   att_size := JNum (Num.of_nat (file_size f));
                   att_type := JStr (file_type f); url := Some blob |} |},
      blob)] /\
  omap progress_of (trace r)
    = replicate (chunk_count (file_size f)) (JStr (file_name f)) /\
  state r = s.
Proof.
  intros Hpre Hnew Hbig Hbin r blob. subst r.
  destruct (chat_sequence_received fileId f now s Hpre Hnew Hbig Hbin)
    as (t & -> & Hdown & Hprog).
  cbn [result state trace fst snd].
  split; [reflexivity|]. split; [exact Hdown|]. split; [exact Hprog|reflexivity].
Qed.

(** X20. Transfers that do not overlap are delivered intact: the frames of
    one [sendFile] after those of another, under the same conditions, give
    two downloads, each with the bytes that were sent, in the order sent,
    and leave the manager as it was. *)
Theorem sequential_transfers_intact (idA idB : string) (fA fB : File)
    (now : nat) (s : t) :
  Forall (fun e => active e.2 = Some false) (fileTransfers s) ->
  Map_get same_value_zero (JStr idA) (fileTransfers s) = None ->
  Map_get same_value_zero (JStr idB) (fileTransfers s) = None ->
  (Z.of_nat (chunk_count (file_size fA)) < 2 ^ 53)%Z ->
  (Z.of_nat (chunk_count (file_size fB)) < 2 ^ 53)%Z ->
  (forall j, j < chunk_count (file_size fA) ->
     WebRTCManager.binary_like (Spec.payload_slice (file_bytes fA) j)) ->
  (forall j, j < chunk_count (file_size fB) ->
     WebRTCManager.binary_like (Spec.payload_slice (file_bytes fB) j)) ->
  let r := receive (deliver <$> (Spec.broadcast_sequence idA fA
                                 ++ Spec.broadcast_sequence idB fB)%list)
             now s in
  result r = Ok tt /\
  map (fun d => (msg_id d.1, blob_bytes d.2)) (omap download_of (trace r))
    = [(JStr idA, file_bytes fA); (JStr idB, file_bytes fB)] /\
  state r = s.
Proof.
  intros Hpre HnewA HnewB HbigA HbigB HbinA HbinB r. subst r.
  destruct (chat_sequence_received idA fA now s Hpre HnewA HbigA HbinA)
    as (tA & HrunA & HdownA & _).
  destruct (chat_sequence_received idB fB now s Hpre HnewB HbigB HbinB)
    as (tB & HrunB & HdownB & _).
  rewrite fmap_app, chat_receive_app, HrunA, HrunB.
  cbn [result state trace fst snd].
  split; [reflexivity|]. split; [|reflexivity].
  rewrite omap_app, map_app, HdownA, HdownB. reflexivity.
Qed.

End ChatRoundTrip.

(** ** Messages, end to end *)

Section Messages.

Import ChatWebRTCManager.
Local Open Scope string_scope.

Lemma first_active_none (data : Data) (entries : list (jsval * Transfer)) :
  Forall (fun e => active e.2 = Some false) entries ->
  first_active data entries = Ok None.
Proof.
  intros Hall. induction Hall as [|[k tr] rest Hk Hrest IH]; simpl;
    [reflexivity|].
  simpl in Hk. rewrite Hk, IH. reflexivity.
Qed.

(** X18. A chunk that finds no transfer short of chunks (none was announced,
    or every one has a total that converts to a number and all its
    chunks) is dropped without a trace: no event, no log, no change. *)
Theorem chat_stray_chunk_dropped (data : Data) (now : nat) (s : t) :
  Forall (fun e => active e.2 = Some false) (fileTransfers s) ->
  WebRTCManager.binary_like data ->
  handleReceivedData data now s = (Ok tt, s, []).
Proof.
  intros Hall Hbin. rewrite (chat_handleReceivedData_binary data now s Hbin).
  unfold handleBinaryChunk. rewrite bind_get, (first_active_none _ _ Hall).
  reflexivity.
Qed.

(** X19. A text message, from the host to a subscriber. On a connected
    transport that accepts the send, [sendMessage] puts exactly one frame
    on the transport of each target, and that frame, handed to the
    inbound handler of any manager, is surfaced to the message callback
    as the object with the id, content, timestamp, sender and type of the
    message sent; the receiving manager is not changed. *)
Theorem message_round_trip (mid body : string) (now now' : nat)
    (targets : option (list string)) (s receiver : t) (sid : string)
    (p : Peer) :
  isHost s = true ->
  NoDup (targets_of targets s) -> sid ∈ targets_of targets s ->
  Map_get String.eqb sid (peers s) = Some p ->
  connected p = true -> reliable p ->
  let frame := FText (message_text mid body now host None) in
  exists p',
    Map_get String.eqb sid (peers (state (sendMessage mid now body targets s)))
      = Some p' /\
    outbox p' = (outbox p ++ [frame])%list /\
    handleReceivedData (deliver frame) now' receiver
    = (Ok tt, receiver,
       [onMessageParsed
          (JObj [("id", JStr mid); ("content", JStr body);
                 ("timestamp", JNum (Num.of_nat now));
                 ("sender", JStr "host"); ("type", JStr "text")])]).
Proof.
  intros Hhost Hnd Hin Hp Hcon Hrel frame.
  destruct (forEach_try_send_target
              [frame] "Chat: Failed to send message to subscriber"
              (targets_of targets s) s sid p Hp Hcon Hrel Hnd)
    as (s' & t & p' & Hrun & _ & Hp' & _ & _ & Hcalls & _).
  exists p'. split; [|split].
  - unfold sendMessage. rewrite bind_get, Hhost. fold frame.
    unfold bind. rewrite Hrun. exact Hp'.
  - apply outbox_app, Hcalls, Hin.
  - subst frame. rewrite chat_receive_message. reflexivity.
Qed.

End Messages.

(** ** Worked runs of the further properties *)

Section MoreRuns.

Local Open Scope string_scope.

Lemma plain_file_binary_like :
  forall j, j < chunk_count (file_size plain_file) ->
    WebRTCManager.binary_like (Spec.payload_slice (file_bytes plain_file) j).
Proof.
  intros j Hj. change (chunk_count (file_size plain_file)) with 1 in Hj.
  assert (j = 0) as -> by lia. left. vm_compute. reflexivity.
Defined.

Lemma receive_keeps_in_step_witness :
  WebRTCManager.in_step (WebRTCManager.new false) /\
  WebRTCManager.in_step receiver_22_of_40 /\
  size (WebRTCManager.receivedChunks receiver_22_of_40)
    = WebRTCManager.expectedChunkIndex receiver_22_of_40.
Proof.
  pose proof (in_step_fresh false) as Hfresh.
  split; [exact Hfresh|].
  destruct (receive_keeps_in_step
              (deliver (FText fileStart_a_bin) :: replicate 22 [x00%byte])
              (WebRTCManager.new false) Hfresh)
    as (_ & Hstep & Hsize & _).
  split; [exact Hstep|exact Hsize].
Defined.

Lemma pair_round_trip_any_state_witness :
  omap WebRTCManager.file_of
    (trace (WebRTCManager.receive
              (deliver <$> Spec.pair_sequence plain_file) receiver_22_of_40))
  = [{| WebRTCManager.name := JStr "abc.txt";
        WebRTCManager.type := JStr "text/plain";
        WebRTCManager.bytes := file_bytes plain_file |}].
Proof.
  destruct (pair_round_trip_any_state plain_file receiver_22_of_40
              plain_file_binary_like) as (_ & Hfiles & _).
  exact Hfiles.
Defined.

Lemma fileComplete_again_witness :
  length (omap WebRTCManager.file_of
            (trace (WebRTCManager.receive
                      (deliver <$> (Spec.pair_sequence plain_file
                                    ++ [FText WebRTCManager.fileComplete_text])%list)
                      (WebRTCManager.new false)))) = 2.
Proof.
  destruct (fileComplete_again plain_file (WebRTCManager.new false)
              plain_file_binary_like) as (_ & Hfiles).
  rewrite Hfiles. reflexivity.
Defined.

Lemma sendFile_stops_at_failure_witness :
  WebRTCManager.peer flaky_sender = Some (open_peer [false; false; true]) /\
  result (WebRTCManager.sendFile plain_file flaky_sender) = Throw SendError /\
  exists p' l,
    WebRTCManager.peer
      (state (WebRTCManager.sendFile plain_file flaky_sender)) = Some p' /\
    outbox p' = l /\ length l = 2.
Proof.
  split; [reflexivity|]. split; [reflexivity|].
  destruct (sendFile_stops_at_failure plain_file flaky_sender
              (open_peer [false; false; true]) eq_refl eq_refl)
    as (p' & l & Hp' & _ & Hout & _).
  exists p', (outbox p'). split; [exact Hp'|]. split; [reflexivity|].
  vm_compute in Hp'. injection Hp' as <-. reflexivity.
Defined.

Lemma sendMessage_targets_only_witness :
  Map_get String.eqb "s3"
    (ChatWebRTCManager.peers
       (state (ChatWebRTCManager.sendMessage "m1" 5 "hi" (Some ["s1"; "s2"])
                 host_of_three)))
  = Some (Peer_new []).
Proof.
  destruct (sendMessage_targets_only "m1" 5 "hi" (Some ["s1"; "s2"])
              host_of_three eq_refl) as (_ & _ & Hother).
  rewrite (Hother "s3"); [reflexivity|].
  cbn [ChatWebRTCManager.targets_of].
  rewrite !elem_of_cons, elem_of_nil. intuition discriminate.
Defined.

Lemma sendMessage_subscriber_witness :
  ChatWebRTCManager.isHost joined_subscriber = false /\
  result (ChatWebRTCManager.sendMessage "m2" 6 "hello" None joined_subscriber)
    = Ok tt.
Proof.
  split; [reflexivity|].
  destruct (sendMessage_subscriber "m2" 6 "hello" None joined_subscriber
              eq_refl) as (Hok & _).
  exact Hok.
Defined.

Lemma host_of_three_NoDup :
  NoDup (Map_keys (ChatWebRTCManager.subscribers host_of_three)) /\
  NoDup (Map_keys (ChatWebRTCManager.peers host_of_three)).
Proof.
  split;
    (change (NoDup ["s1"; "s2"; "s3"]);
     repeat (apply NoDup_cons; split;
             [rewrite ?elem_of_cons, ?elem_of_nil; intuition discriminate|]);
     apply NoDup_nil_2).
Defined.

Lemma removeSubscriber_spec_witness :
  ChatWebRTCManager.getSubscriberCount host_of_three = 3 /\
  ChatWebRTCManager.getSubscriberCount
    (state (ChatWebRTCManager.removeSubscriber "s2" host_of_three)) = 2 /\
  trace (ChatWebRTCManager.removeSubscriber "s2" host_of_three)
    = [ChatWebRTCManager.onSubscriberLeft "s2"].
Proof.
  split; [reflexivity|].
  destruct host_of_three_NoDup as [Hsubs Hpeers].
  destruct (removeSubscriber_spec "s2" host_of_three Hsubs Hpeers)
    as (_ & Htrace & _ & _ & _ & Hcount & _).
  split; [exact Hcount|exact Htrace].
Defined.

Lemma handshake_witness :
  ChatWebRTCManager.isHost fresh_host = true /\
  Map_get String.eqb "s1"
    (ChatWebRTCManager.subscribers
       (state (ChatWebRTCManager.processAnswer
                 (ChatWebRTCManager.answer_of
                    (state (ChatWebRTCManager.createAnswer
                              (ChatWebRTCManager.offer_of "s1" "sdp") [] None
                              (ChatWebRTCManager.new false (Some "bob"))))
                    "sdp")
                 5 "w" None
                 (state (ChatWebRTCManager.createOffer "s1" [] fresh_host)))))
  = Some {| ChatWebRTCManager.sub_id := "s1";
            ChatWebRTCManager.sub_name := "bob";
            ChatWebRTCManager.sub_connected := true;
            ChatWebRTCManager.joinedAt := 5 |}.
Proof.
  split; [reflexivity|].
  assert ("s1" <> "") as Hid by discriminate.
  assert ("bob" <> "") as Hname by discriminate.
  destruct (handshake fresh_host "s1" "bob" "sdp" "sdp" "w" [] [] 5
              eq_refl Hid) as (_ & _ & Hjoin & _).
  destruct (Hjoin Hname) as (_ & Hsub & _).
  exact Hsub.
Defined.

Lemma chat_round_trip_witness :
  ChatWebRTCManager.fileTransfers joined_subscriber = [] /\
  map (fun d => ChatWebRTCManager.blob_bytes d.2)
      (omap ChatWebRTCManager.download_of
         (trace (ChatWebRTCManager.receive
                   (deliver <$> Spec.broadcast_sequence "f1" plain_file) 5
                   joined_subscriber)))
  = [file_bytes plain_file].
Proof.
  split; [reflexivity|].
  destruct (chat_round_trip "f1" plain_file 5 joined_subscriber
              (List.Forall_nil _) eq_refl eq_refl plain_file_binary_like)
    as (_ & Hdown & _).
  rewrite Hdown. reflexivity.
Defined.

Lemma message_round_trip_witness :
  exists p',
    Map_get String.eqb "s2"
      (ChatWebRTCManager.peers
         (state (ChatWebRTCManager.sendMessage "m1" 5 "hi" None host_of_three)))
      = Some p' /\
    outbox p'
    = [FText (ChatWebRTCManager.message_text "m1" "hi" 5
                ChatWebRTCManager.host None)].
Proof.
  destruct host_of_three_NoDup as [Hsubs _].
  assert ("s2" ∈ ChatWebRTCManager.targets_of None host_of_three) as Hin.
  { change (ChatWebRTCManager.targets_of None host_of_three)
      with ["s1"; "s2"; "s3"].
    apply list_elem_of_further, list_elem_of_here. }
  destruct (message_round_trip "m1" "hi" 5 6 None host_of_three
              joined_subscriber "s2" (open_peer []) eq_refl Hsubs Hin
              eq_refl eq_refl (List.Forall_nil _))
    as (p' & Hp' & Hout & _).
  exists p'. split; [exact Hp'|exact Hout].
Defined.

Lemma connectToPeer_metadata_witness :
  WebRTCManager.receivedChunks
    (state (WebRTCManager.handleReceivedData [x01%byte]
              (state (WebRTCManager.connectToPeer
                        (WebRTCManager.fileData_of plain_file 1) None
                        connected_sender))))
  = <[0 := [x01%byte]]> ∅.
Proof.
  destruct (connectToPeer_metadata (WebRTCManager.fileData_of plain_file 1)
              None connected_sender) as (_ & _ & Hstored).
  destruct (Hstored (open_peer []) [x01%byte] eq_refl eq_refl eq_refl
              (or_introl eq_refl)) as (Hchunks & _).
  exact Hchunks.
Defined.

Lemma chat_stray_chunk_dropped_witness :
  ChatWebRTCManager.handleReceivedData [x01%byte] 5 joined_subscriber
  = (Ok tt, joined_subscriber, []).
Proof.
  exact (chat_stray_chunk_dropped [x01%byte] 5 joined_subscriber
           (List.Forall_nil _) (or_introl eq_refl)).
Defined.

Lemma sequential_transfers_intact_witness :
  map (fun d => (ChatWebRTCManager.msg_id d.1,
                 ChatWebRTCManager.blob_bytes d.2))
      (omap ChatWebRTCManager.download_of
         (trace (ChatWebRTCManager.receive
                   (deliver <$> (Spec.broadcast_sequence "f1" plain_file
                                 ++ Spec.broadcast_sequence "f2" plain_file)%list)
                   5 joined_subscriber)))
  = [(JStr "f1", file_bytes plain_file); (JStr "f2", file_bytes plain_file)].
Proof.
  destruct (sequential_transfers_intact "f1" "f2" plain_file plain_file 5
              joined_subscriber (List.Forall_nil _) eq_refl eq_refl
              eq_refl eq_refl plain_file_binary_like plain_file_binary_like)
    as (_ & Hdown & _).
  exact Hdown.
Defined.

Lemma destroyed_manager_refuses_witness :
  WebRTCManager.handleReceivedData [x01%byte]
    (state (WebRTCManager.destroy receiver_22_of_40))
  = (Ok tt, state (WebRTCManager.destroy receiver_22_of_40),
     [WebRTCManager.no_metadata_warning]).
Proof.
  destruct (destroyed_manager_refuses receiver_22_of_40 plain_file JNull
              None [x01%byte]) as (_ & _ & _ & Hdrop).
  exact (Hdrop (or_introl eq_refl)).
Defined.

Lemma destroyed_chat_sends_nothing_witness :
  ChatWebRTCManager.processAnswer answer_s1 5 "w" None
    (state (ChatWebRTCManager.destroy pending_host))
  = (Throw (ErrorMsg "Peer not found for subscriber"),
     state (ChatWebRTCManager.destroy pending_host), []).
Proof.
  assert ("s1" <> "") as Hid by discriminate.
  assert ("bob" <> "") as Hname by discriminate.
  destruct (destroyed_chat_sends_nothing pending_host "w" 5 "hi" None
              answer_s1 None "s1" "bob") as (_ & _ & _ & Hrefused).
  exact (Hrefused eq_refl eq_refl Hid eq_refl Hname).
Defined.

(** Where the inbound-data handler of the broadcast manager throws. A
    transfer announced with a total that cannot be converted makes the
    next frame that is no JSON text throw in the test of the loop,
    before a chunk is stored. A start frame whose file name cannot be
    converted is recorded, throws in the label of its file message, and
    is then handed to [handleBinaryChunk] by the [catch]: the text of
    the frame is stored as the first chunk of the transfer it announced,
    and the log line throws again, out of the handler. *)
Lemma chat_handleReceivedData_throws :
  let announced :=
    ChatWebRTCManager.handleReceivedData
      (deliver (FText fileStart_odd_total)) 5 joined_subscriber in
  let named :=
    ChatWebRTCManager.handleReceivedData
      (deliver (FText fileStart_odd_name)) 5 joined_subscriber in
  result announced = Ok tt /\
  ChatWebRTCManager.handleReceivedData [x01%byte] 5 (state announced)
    = (Throw TypeError, state announced, []) /\
  result named = Throw TypeError /\
  trace named = [] /\
  ((fun tr => (ChatWebRTCManager.chunks tr,
               ChatWebRTCManager.receivedChunks tr))
     <$> Map_get same_value_zero (JStr "Z")
           (ChatWebRTCManager.fileTransfers (state named)))
    = Some ({[ 0 := deliver (FText fileStart_odd_name) ]}, 1).
Proof. vm_compute. repeat split. Qed.

Lemma sendFile_host_never_throws_witness :
  result (ChatWebRTCManager.sendFile "f1" 5 plain_file None host_of_three)
    = Ok tt /\
  ChatWebRTCManager.sendFile "f1" 5 plain_file None joined_subscriber
    = (Throw (ErrorMsg "Only host can send files"), joined_subscriber, []).
Proof.
  destruct (sendFile_host_never_throws "f1" 5 plain_file None host_of_three)
    as [_ Hhost].
  destruct (sendFile_host_never_throws "f1" 5 plain_file None
              joined_subscriber) as [Hsub _].
  split; [exact (proj1 (Hhost eq_refl))|exact (Hsub eq_refl)].
Defined.

End MoreRuns.
